(** * Smart LLM router: a shallow embedding of the routing core

    The development follows the three core modules of the service:
    [services/conversation_state.py] (the conversation state store),
    [services/classifier.py] (the classification engine) and
    [services/router.py] (the routing decision engine), together with
    the registry lookup of [clients/base.py], the pure parts of the
    provider clients in [clients/], the key check of [utils/auth.py]
    and the endpoints of [main.py].

    Conventions of the embedding.
    - Python [str] values are [string]s of 8-bit characters; [lower]
      acts on the letters A-Z, whitespace is the ASCII whitespace of
      [str.split] and [str.strip].
    - Python [int]s are [Z]; readings of [time.time()] are taken from a
      clock oracle and are integers (only their order and differences
      are used by the code).
    - Dynamically typed values ([Any]) are values of [pyval].
    - Code that can raise returns a [result]; code that mutates the
      process state runs in the monad [M] over [World].
    - The registry lookup takes the import of a client module to
      succeed; the properties are stated over the result of the lookup
      and hold whichever provider it names. *)

From Stdlib Require Import ZArith Lia Bool List String Ascii Floats Uint63.
From stdpp Require Import base list strings pretty.
Import ListNotations.

Set Warnings "-register-all,-inexact-float".
Local Open Scope string_scope.

(** ** Text primitives *)

Module Text.

Definition lower_ascii (c : ascii) : ascii :=
  let n := nat_of_ascii c in
  if (65 <=? n)%nat && (n <=? 90)%nat then ascii_of_nat (n + 32) else c.

(** [str.lower()] *)
Fixpoint lower (s : string) : string :=
  match s with
  | EmptyString => EmptyString
  | String c r => String (lower_ascii c) (lower r)
  end.

Definition upper_ascii (c : ascii) : ascii :=
  let n := nat_of_ascii c in
  if (97 <=? n)%nat && (n <=? 122)%nat then ascii_of_nat (n - 32) else c.

(** [str.upper()] *)
Fixpoint upper (s : string) : string :=
  match s with
  | EmptyString => EmptyString
  | String c r => String (upper_ascii c) (upper r)
  end.

(** The whitespace of [str.strip()] and [str.split()] in the ASCII range. *)
Definition is_space (c : ascii) : bool :=
  let n := nat_of_ascii c in
  ((9 <=? n)%nat && (n <=? 13)%nat) || ((28 <=? n)%nat && (n <=? 32)%nat).

Fixpoint lstrip_by (p : ascii -> bool) (s : string) : string :=
  match s with
  | EmptyString => EmptyString
  | String c r => if p c then lstrip_by p r else s
  end.

(** Drops the characters satisfying [p] at the end of [s]. *)
Fixpoint rstrip_by (p : ascii -> bool) (s : string) : string :=
  match s with
  | EmptyString => EmptyString
  | String c r =>
      match rstrip_by p r with
      | EmptyString => if p c then EmptyString else String c EmptyString
      | r' => String c r'
      end
  end.

Definition strip_by (p : ascii -> bool) (s : string) : string :=
  rstrip_by p (lstrip_by p s).

(** [s.strip()] *)
Definition strip (s : string) : string := strip_by is_space s.

Fixpoint mem_ascii (c : ascii) (cs : string) : bool :=
  match cs with
  | EmptyString => false
  | String d r => Ascii.eqb c d || mem_ascii c r
  end.

(** [s.strip(chars)] *)
Definition strip_chars (chars : string) (s : string) : string :=
  strip_by (fun c => mem_ascii c chars) s.

(** [s.startswith(p)] *)
Fixpoint startswith (p s : string) : bool :=
  match p, s with
  | EmptyString, _ => true
  | String a p', String b s' => Ascii.eqb a b && startswith p' s'
  | String _ _, EmptyString => false
  end.

(** [sub in s] *)
Fixpoint contains (sub s : string) : bool :=
  startswith sub s ||
  match s with
  | EmptyString => false
  | String _ r => contains sub r
  end.

(** [s[:n]] *)
Fixpoint take (n : nat) (s : string) : string :=
  match n, s with
  | O, _ => EmptyString
  | S _, EmptyString => EmptyString
  | S k, String c r => String c (take k r)
  end.

(** [s.split()]: the maximal runs of non-whitespace characters.
    [cur] is the run being read, in reverse. *)
Fixpoint split_go (cur : list ascii) (s : string) : list string :=
  let flush := match cur with
               | [] => []
               | _ => [string_of_list_ascii (rev cur)]
               end in
  match s with
  | EmptyString => flush
  | String c r =>
      if is_space c then flush ++ split_go [] r
      else split_go (c :: cur) r
  end.

Definition split (s : string) : list string := split_go [] s.

(** [sep.join(l)] on strings *)
Fixpoint join (sep : string) (l : list string) : string :=
  match l with
  | [] => EmptyString
  | [x] => x
  | x :: r => x ++ sep ++ join sep r
  end.

(** [s in l] for a list or set of strings *)
Definition mem (s : string) (l : list string) : bool :=
  existsb (String.eqb s) l.

(** [any(p in s for p in patterns)] *)
Definition contains_any (patterns : list string) (s : string) : bool :=
  existsb (fun p => contains p s) patterns.

End Text.

(** ** Exceptions and results *)

Inductive exn : Type :=
| IndexError
| TypeError
| AttributeError
| KeyError
| JSONDecodeError
| HTTPException (status_code : Z) (detail : string)
| ProviderError (msg : string)
| InvalidReference.

Inductive result (A : Type) : Type :=
| Ok (a : A)
| Raise (e : exn).
Arguments Ok {A} a.
Arguments Raise {A} e.

Global Instance result_ret : MRet result := fun _ a => Ok a.
Global Instance result_bind : MBind result := fun _ _ k r =>
  match r with
  | Ok a => k a
  | Raise e => Raise e
  end.

(** ** Dynamically typed values *)

Inductive pyval : Type :=
| PNone
| PBool (b : bool)
| PNum (z : Z)
| PStr (s : string)
| PList (l : list pyval)
| PDict (d : list (string * pyval)).

Definition pydict : Type := list (string * pyval).

(** [d.get(k)], [None] when the key is absent *)
Fixpoint dict_get (k : string) (d : pydict) : option pyval :=
  match d with
  | [] => None
  | (k', v) :: r => if String.eqb k k' then Some v else dict_get k r
  end.

(** [d.get(k, dflt)] *)
Definition dict_get_default (k : string) (dflt : pyval) (d : pydict) : pyval :=
  match dict_get k d with
  | Some v => v
  | None => dflt
  end.

(** [k in d] *)
Definition dict_has (k : string) (d : pydict) : bool :=
  match dict_get k d with
  | Some _ => true
  | None => false
  end.

(** Truth value of a Python value, as tested by [if v] and [not v]. *)
Definition truthy (v : pyval) : bool :=
  match v with
  | PNone => false
  | PBool b => b
  | PNum z => negb (z =? 0)%Z
  | PStr s => negb (String.eqb s "")
  | PList l => match l with [] => false | _ => true end
  | PDict d => match d with [] => false | _ => true end
  end.

(** [v.get(k)]: only a dict has the method. *)
Definition py_get (k : string) (v : pyval) : result pyval :=
  match v with
  | PDict d => Ok (dict_get_default k PNone d)
  | _ => Raise AttributeError
  end.

(** [v[k]] for a string key *)
Definition py_item (k : string) (v : pyval) : result pyval :=
  match v with
  | PDict d => match dict_get k d with
               | Some x => Ok x
               | None => Raise KeyError
               end
  | _ => Raise TypeError
  end.

(** [v[0]] *)
Definition py_first (v : pyval) : result pyval :=
  match v with
  | PList (x :: _) => Ok x
  | PList [] => Raise IndexError
  | PStr (String c _) => Ok (PStr (String c EmptyString))
  | PStr EmptyString => Raise IndexError
  | PDict _ => Raise KeyError
  | _ => Raise TypeError
  end.

(** [v[:100]] is evaluated for a log line; only its failure matters. *)
Definition py_sliceable (v : pyval) : result unit :=
  match v with
  | PStr _ | PList _ => Ok tt
  | _ => Raise TypeError
  end.

(** [len(v)], evaluated for a log line; only its failure matters. *)
Definition py_sized (v : pyval) : result unit :=
  match v with
  | PStr _ | PList _ | PDict _ => Ok tt
  | _ => Raise TypeError
  end.

Definition int_of_bool (b : bool) : Z := if b then 1%Z else 0%Z.

(** [a + b] *)
Definition py_add (a b : pyval) : result pyval :=
  match a, b with
  | PNum x, PNum y => Ok (PNum (x + y))
  | PNum x, PBool y => Ok (PNum (x + int_of_bool y))
  | PBool x, PNum y => Ok (PNum (int_of_bool x + y))
  | PBool x, PBool y => Ok (PNum (int_of_bool x + int_of_bool y))
  | PStr x, PStr y => Ok (PStr (x ++ y))
  | PList x, PList y => Ok (PList (x ++ y))
  | _, _ => Raise TypeError
  end.

(** [needle in v] for a string [needle]: substring of a string, element
    of a list, key of a dict. *)
Definition py_in (needle : string) (v : pyval) : result bool :=
  match v with
  | PStr s => Ok (Text.contains needle s)
  | PList l => Ok (existsb (fun x => match x with
                                     | PStr s => String.eqb needle s
                                     | _ => false
                                     end) l)
  | PDict d => Ok (dict_has needle d)
  | _ => Raise TypeError
  end.

(** ** Messages ([config/models.py])

    [Message.content] is [Union[str, List[Dict[str, Any]]]]; the
    [files] field is not read by the routing core. *)

Inductive Content : Type :=
| CStr (s : string)
| CParts (parts : list pydict).

Record Message : Type := mkMessage {
  role : string;
  content : Content
}.

(** [" ".join(...)] over values that must all be [str]. *)
Fixpoint join_values (l : list pyval) : result (list string) :=
  match l with
  | [] => Ok []
  | PStr s :: r => rest ← join_values r; Ok (s :: rest)
  | _ :: _ => Raise TypeError
  end.

Definition part_is (ty : string) (part : pydict) : bool :=
  match dict_get "type" part with
  | Some (PStr t) => String.eqb t ty
  | _ => false
  end.

(** [_get_text_from_content], identical in the three services. *)
Definition get_text_from_content (c : Content) : result string :=
  match c with
  | CStr s => Ok s
  | CParts parts =>
      texts ← join_values
                (map (dict_get_default "text" (PStr ""))
                     (List.filter (part_is "text") parts));
      Ok (Text.join " " texts)
  end.

(** ** Conversation state ([services/conversation_state.py]) *)

Record ConversationState : Type := mkState {
  conversation_id : string;
  active_model_tier : string;
  last_model_used : option string;
  has_vision_content : bool;
  vision_sticky_count : Z;
  heavy_context_active : bool;
  heavy_context_sticky_count : Z;
  message_count_since_upgrade : Z;
  last_activity : Z;
  topic_keywords : list string
}.

(** Field assignments [state.f = v]. *)
Definition set_active_model_tier (v : string) (s : ConversationState) :=
  mkState (conversation_id s) v (last_model_used s) (has_vision_content s)
    (vision_sticky_count s) (heavy_context_active s)
    (heavy_context_sticky_count s) (message_count_since_upgrade s)
    (last_activity s) (topic_keywords s).
Definition set_last_model_used (v : option string) (s : ConversationState) :=
  mkState (conversation_id s) (active_model_tier s) v (has_vision_content s)
    (vision_sticky_count s) (heavy_context_active s)
    (heavy_context_sticky_count s) (message_count_since_upgrade s)
    (last_activity s) (topic_keywords s).
Definition set_has_vision_content (v : bool) (s : ConversationState) :=
  mkState (conversation_id s) (active_model_tier s) (last_model_used s) v
    (vision_sticky_count s) (heavy_context_active s)
    (heavy_context_sticky_count s) (message_count_since_upgrade s)
    (last_activity s) (topic_keywords s).
Definition set_vision_sticky_count (v : Z) (s : ConversationState) :=
  mkState (conversation_id s) (active_model_tier s) (last_model_used s)
    (has_vision_content s) v (heavy_context_active s)
    (heavy_context_sticky_count s) (message_count_since_upgrade s)
    (last_activity s) (topic_keywords s).
Definition set_heavy_context_active (v : bool) (s : ConversationState) :=
  mkState (conversation_id s) (active_model_tier s) (last_model_used s)
    (has_vision_content s) (vision_sticky_count s) v
    (heavy_context_sticky_count s) (message_count_since_upgrade s)
    (last_activity s) (topic_keywords s).
Definition set_heavy_context_sticky_count (v : Z) (s : ConversationState) :=
  mkState (conversation_id s) (active_model_tier s) (last_model_used s)
    (has_vision_content s) (vision_sticky_count s) (heavy_context_active s)
    v (message_count_since_upgrade s) (last_activity s) (topic_keywords s).
Definition set_message_count_since_upgrade (v : Z) (s : ConversationState) :=
  mkState (conversation_id s) (active_model_tier s) (last_model_used s)
    (has_vision_content s) (vision_sticky_count s) (heavy_context_active s)
    (heavy_context_sticky_count s) v (last_activity s) (topic_keywords s).
Definition set_last_activity (v : Z) (s : ConversationState) :=
  mkState (conversation_id s) (active_model_tier s) (last_model_used s)
    (has_vision_content s) (vision_sticky_count s) (heavy_context_active s)
    (heavy_context_sticky_count s) (message_count_since_upgrade s)
    v (topic_keywords s).
Definition set_topic_keywords (v : list string) (s : ConversationState) :=
  mkState (conversation_id s) (active_model_tier s) (last_model_used s)
    (has_vision_content s) (vision_sticky_count s) (heavy_context_active s)
    (heavy_context_sticky_count s) (message_count_since_upgrade s)
    (last_activity s) v.

(** The dataclass defaults; [__post_init__] stamps [last_activity]. *)
Definition new_state (cid : string) (keywords : list string) (now : Z)
  : ConversationState :=
  mkState cid "simple" None false 0 false 0 0 now keywords.

(** [ConversationStateManager]: [states] is the dict, in insertion
    order, from conversation id to the state object (a heap reference,
    since the objects handed out by [get_or_create_state] are the ones
    stored). *)
Record Manager : Type := mkManager {
  states : list (string * nat);
  max_conversations : Z;
  cleanup_after_seconds : Z;
  last_cleanup : Z
}.

(** ** Provider clients, backend replies, requests *)

(** A [BaseLLMClient] object, known to the core by its provider name. *)
Record Client : Type := mkClient { provider_name : string }.

(** The five values returned by a successful registry lookup. *)
Record Resolution : Type := mkResolution {
  res_client : Client;
  res_model_id : pyval;
  res_model_type : pyval;
  res_api_parameters : pyval;
  res_system_prompt : pyval
}.

(** [choices[i].message.content] of an SDK reply object. *)
Record ChoiceObj : Type := mkChoice { choice_content : option string }.

(** [reply.usage] of an SDK reply object; an absent attribute is [None]. *)
Record UsageObj : Type := mkUsage {
  u_prompt_tokens : option Z;
  u_completion_tokens : option Z;
  u_total_tokens : option Z
}.

(** What [generate_response] returns: an SDK object (with or without the
    attributes [choices] and [usage]; [usage] may be [None]) or a dict. *)
Inductive Response : Type :=
| RObject (choices : option (list ChoiceObj)) (usage : option (option UsageObj))
| RDict (d : pydict).

Record ChatRequest : Type := mkRequest {
  messages : list Message;
  temperature : option Z   (* in thousandths; the default is 0.7 *)
}.

Inductive CallSite : Type := FromClassifier | FromRouter.

(** Calls leaving the core, in the order they are made. *)
Inductive Event : Type :=
| EvResolve (logical_model_name : string)
| EvGenerate (site : CallSite) (c : Client) (model_id : pyval)
    (msgs : list Message) (temp : Z) (api_parameters system_prompt : pyval).

(** ** Configuration and environment *)

(** The attributes of [settings] read by the core, as they stand after
    [reload_if_changed]. *)
Record Settings : Type := mkSettings {
  classifier_model : string;
  simple_no_research_model : string;
  simple_research_model : string;
  hard_no_research_model : string;
  hard_research_model : string;
  escalation_model : string;
  fallback_model : string;
  token_usage_threshold : Z;
  log_level : string;
  model_configs : pydict
}.

(** What the core takes from outside the repository: the clock, uuid and
    md5 of the standard library, the tokenizer, [json.loads], the files
    of system prompts, whether a provider's SDK client initialises, and
    the provider backends themselves.  [gemini_image_provider_name] is
    the provider name of [GeminiImageClient], whose module is not part
    of the sources at hand. *)
Record Env : Type := mkEnv {
  clock : nat -> Z;
  uuid4 : nat -> string;
  md5_hexdigest : string -> string;
  settings : Settings;
  read_system_prompt_from_file : string -> option string;
  initialize_client : string -> bool;
  gemini_image_provider_name : string;
  tiktoken_encoding : option (string -> result Z);
  json_loads : string -> result pyval;
  generate_response :
    Client -> pyval -> list Message -> Z -> pyval -> pyval -> result Response
}.

(** ** Process state and the monad of effects *)

Record World : Type := mkWorld {
  ticks : nat;                      (* oracle draws so far *)
  heap : list ConversationState;    (* state objects, by reference *)
  mgr : Manager;                    (* [conversation_state_manager] *)
  trace : list Event                (* calls made so far, oldest first *)
}.

Definition M (A : Type) : Type := World -> result A * World.

Global Instance M_ret : MRet M := fun _ a w => (Ok a, w).
Global Instance M_bind : MBind M := fun _ _ k m w =>
  match m w with
  | (Ok a, w') => k a w'
  | (Raise e, w') => (Raise e, w')
  end.

Definition raise {A : Type} (e : exn) : M A := fun w => (Raise e, w).
Definition lift {A : Type} (r : result A) : M A := fun w => (r, w).

(** [try: m except Exception as e: h e] *)
Definition try_except {A : Type} (m : M A) (h : exn -> M A) : M A :=
  fun w =>
    match m w with
    | (Raise e, w') => h e w'
    | r => r
    end.

Definition get_mgr : M Manager := fun w => (Ok (mgr w), w).
Definition put_mgr (m : Manager) : M unit :=
  fun w => (Ok tt, mkWorld (ticks w) (heap w) m (trace w)).
Definition get_heap : M (list ConversationState) := fun w => (Ok (heap w), w).
Definition emit (e : Event) : M unit :=
  fun w => (Ok tt, mkWorld (ticks w) (heap w) (mgr w) (trace w ++ [e])).

(** Reading and writing a state object through its reference. *)
Definition deref (r : nat) : M ConversationState :=
  fun w =>
    match heap w !! r with
    | Some s => (Ok s, w)
    | None => (Raise InvalidReference, w)
    end.
Definition assign (r : nat) (s : ConversationState) : M unit :=
  fun w => (Ok tt, mkWorld (ticks w) (<[r := s]> (heap w)) (mgr w) (trace w)).
Definition alloc (s : ConversationState) : M nat :=
  fun w => (Ok (length (heap w)),
            mkWorld (ticks w) (heap w ++ [s]) (mgr w) (trace w)).

(** ** The conversation state store *)

Definition stop_words : list string :=
  ["the"; "a"; "an"; "and"; "or"; "but"; "in"; "on"; "at"; "to"; "for";
   "of"; "with"; "by"; "is"; "are"; "was"; "were"; "be"; "been"; "have";
   "has"; "had"; "do"; "does"; "did"; "will"; "would"; "could"; "should";
   "can"; "may"; "might"; "i"; "you"; "he"; "she"; "it"; "we"; "they";
   "this"; "that"; "these"; "those"].

(** The characters stripped from each token: . , ! ? ; : ( ) [ ] { }
    and the two quote characters. *)
Definition keyword_punctuation : string :=
  ".,!?;:()[]{}" ++ String (ascii_of_nat 34) "'".

Definition topic_change_indicators : list string :=
  ["new topic"; "different question"; "now let's"; "switching to";
   "change subject"; "moving on"; "next question"; "unrelated";
   "completely different"; "new request"; "forget about"; "ignore that"].

(** [l[-n:]] *)
Definition last_n {A : Type} (n : nat) (l : list A) : list A :=
  drop (length l - n) l.

Fixpoint result_map {A B : Type} (f : A -> result B) (l : list A)
  : result (list B) :=
  match l with
  | [] => Ok []
  | x :: r => y ← f x; ys ← result_map f r; Ok (y :: ys)
  end.

Definition is_user (m : Message) : bool := String.eqb (role m) "user".

Definition is_keyword (w : string) : bool :=
  (3 <? String.length w)%nat && negb (Text.mem w stop_words).

(** [_extract_topic_keywords] *)
Definition extract_topic_keywords (msgs : list Message) : result (list string) :=
  match msgs with
  | [] => Ok []
  | _ =>
      texts ← result_map (fun m => get_text_from_content (content m))
                (List.filter is_user (last_n 3 msgs));
      let text_content := Text.lower (Text.join " " texts) in
      let words := map (Text.strip_chars keyword_punctuation)
                       (Text.split text_content) in
      Ok (take 10 (List.filter is_keyword words))
  end.

(** [len(set(a) & set(b))] and [len(set(a) | set(b))] *)
Definition overlap_count (a b : list string) : nat :=
  length (List.filter (fun w => Text.mem w b) (remove_dups a)).
Definition union_count (a b : list string) : nat :=
  length (remove_dups (a ++ b)).

Definition float_of_nat (n : nat) : float :=
  PrimFloat.of_uint63 (Uint63.of_Z (Z.of_nat n)).

(** [overlap / total_unique < 0.3], in binary64 as Python computes it. *)
Definition overlap_ratio_below (overlap total_unique : nat) : bool :=
  PrimFloat.ltb
    (PrimFloat.div (float_of_nat overlap) (float_of_nat total_unique))
    0.3%float.

(** [_detect_topic_change]; [messages[-1]] raises on an empty list. *)
Definition detect_topic_change (msgs : list Message) (st : ConversationState)
  : result bool :=
  match last msgs with
  | None => Raise IndexError
  | Some m =>
      text ← get_text_from_content (content m);
      let last_message_content := Text.lower text in
      if Text.contains_any topic_change_indicators last_message_content
      then Ok true
      else
        current_keywords ← extract_topic_keywords msgs;
        let stored_keywords := topic_keywords st in
        match stored_keywords, current_keywords with
        | _ :: _, _ :: _ =>
            let overlap := overlap_count current_keywords stored_keywords in
            let total_unique := union_count current_keywords stored_keywords in
            if (0 <? total_unique)%nat
            then Ok (overlap_ratio_below overlap total_unique)
            else Ok false
        | _, _ => Ok false
        end
  end.

(** The dict operations used on [states]. *)
Fixpoint states_get (cid : string) (d : list (string * nat)) : option nat :=
  match d with
  | [] => None
  | (k, r) :: rest => if String.eqb cid k then Some r else states_get cid rest
  end.
Definition states_del (cid : string) (d : list (string * nat))
  : list (string * nat) :=
  List.filter (fun e => negb (String.eqb (fst e) cid)) d.

(** The entries of [states] with the [last_activity] of their object. *)
Fixpoint with_activity (h : list ConversationState) (d : list (string * nat))
  : result (list (string * Z)) :=
  match d with
  | [] => Ok []
  | (k, r) :: rest =>
      match h !! r with
      | Some s => l ← with_activity h rest; Ok ((k, last_activity s) :: l)
      | None => Raise InvalidReference
      end
  end.

(** [sorted(..., key=last_activity)]: a stable insertion sort. *)
Fixpoint insert_by_activity (x : string * Z) (l : list (string * Z))
  : list (string * Z) :=
  match l with
  | [] => [x]
  | y :: r => if (snd x <? snd y)%Z then x :: l
              else y :: insert_by_activity x r
  end.
Definition sort_by_activity (l : list (string * Z)) : list (string * Z) :=
  fold_left (fun acc x => insert_by_activity x acc) l [].

(** The sticky-state reset of the topic-drift path. *)
Definition reset_sticky (s : ConversationState) : ConversationState :=
  set_active_model_tier "simple"
    (set_message_count_since_upgrade 0
       (set_heavy_context_sticky_count 0
          (set_vision_sticky_count 0 s))).

Definition vision_update (had_vision : bool) (s : ConversationState)
  : ConversationState :=
  if had_vision then
    set_active_model_tier "hard"
      (set_vision_sticky_count 3 (set_has_vision_content true s))
  else if (0 <? vision_sticky_count s)%Z then
    let s1 := set_vision_sticky_count (vision_sticky_count s - 1) s in
    if (vision_sticky_count s1 =? 0)%Z
    then set_has_vision_content false s1 else s1
  else s.

Definition heavy_context_update (had_heavy_context : bool)
  (s : ConversationState) : ConversationState :=
  if had_heavy_context then
    set_active_model_tier "hard"
      (set_heavy_context_sticky_count 2 (set_heavy_context_active true s))
  else if (0 <? heavy_context_sticky_count s)%Z then
    let s1 := set_heavy_context_sticky_count
                (heavy_context_sticky_count s - 1) s in
    if (heavy_context_sticky_count s1 =? 0)%Z
    then set_heavy_context_active false s1 else s1
  else s.

Definition tier_update (model_tier : string) (s : ConversationState)
  : ConversationState :=
  if negb (String.eqb model_tier (active_model_tier s)) then
    set_active_model_tier model_tier (set_message_count_since_upgrade 0 s)
  else
    set_message_count_since_upgrade (message_count_since_upgrade s + 1) s.

(** The body of [update_state_after_routing] on the state object. *)
Definition routing_update (now : Z) (selected_model model_tier : string)
  (had_vision had_heavy_context : bool) (s : ConversationState)
  : ConversationState :=
  tier_update model_tier
    (heavy_context_update had_heavy_context
       (vision_update had_vision
          (set_last_activity now (set_last_model_used (Some selected_model) s)))).

(** [should_stick_to_vision_model] and [should_stick_to_heavy_model] *)
Definition should_stick_to_vision_model (s : ConversationState) : bool :=
  has_vision_content s && (0 <? vision_sticky_count s)%Z.
Definition should_stick_to_heavy_model (s : ConversationState) : bool :=
  (heavy_context_active s && (0 <? heavy_context_sticky_count s)%Z)
  || should_stick_to_vision_model s.

Section Store.

Context (env : Env).

(** [time.time()] *)
Definition time_time : M Z :=
  fun w => (Ok (clock env (ticks w)),
            mkWorld (S (ticks w)) (heap w) (mgr w) (trace w)).

(** [_generate_conversation_id] *)
Definition generate_conversation_id (msgs : list Message) : result string :=
  match msgs with
  | [] => Ok "empty_conversation"
  | first :: _ =>
      first_message_content ← get_text_from_content (content first);
      let conversation_signature :=
        Text.take 200 first_message_content ++ "_" ++ pretty (length msgs) in
      Ok (Text.take 16 (md5_hexdigest env conversation_signature))
  end.

(** [_cleanup_old_conversations] *)
Definition cleanup_old_conversations : M unit :=
  t ← time_time;
  m ← get_mgr;
  if (t - last_cleanup m <? 3600)%Z then mret tt
  else
    current_time ← time_time;
    h ← get_heap;
    entries ← lift (with_activity h (states m));
    let expired_conversations :=
      map fst (List.filter
                 (fun e => (cleanup_after_seconds m <? current_time - snd e)%Z)
                 entries) in
    let states1 := fold_left (fun d k => states_del k d)
                     expired_conversations (states m) in
    entries1 ← lift (with_activity h states1);
    let states2 :=
      if (max_conversations m <? Z.of_nat (length states1))%Z then
        let sorted_conversations := sort_by_activity entries1 in
        let excess_count :=
          Z.to_nat (Z.of_nat (length states1) - max_conversations m) in
        fold_left (fun d k => states_del k d)
          (map fst (take excess_count sorted_conversations)) states1
      else states1 in
    put_mgr (mkManager states2 (max_conversations m)
               (cleanup_after_seconds m) current_time).

(** [get_or_create_state]; the result is the reference of the state. *)
Definition get_or_create_state (msgs : list Message) : M nat :=
  _ ← cleanup_old_conversations;
  conversation_id ← lift (generate_conversation_id msgs);
  m ← get_mgr;
  r ← match states_get conversation_id (states m) with
      | Some r =>
          st ← deref r;
          now ← time_time;
          let st1 := set_last_activity now st in
          _ ← assign r st1;
          changed ← lift (detect_topic_change msgs st1);
          _ ← (if changed : bool then assign r (reset_sticky st1) else mret tt);
          mret r
      | None =>
          keywords ← lift (extract_topic_keywords msgs);
          now ← time_time;
          r ← alloc (new_state conversation_id keywords now);
          _ ← put_mgr (mkManager (states m ++ [(conversation_id, r)])
                         (max_conversations m) (cleanup_after_seconds m)
                         (last_cleanup m));
          mret r
      end;
  keywords ← lift (extract_topic_keywords msgs);
  st ← deref r;
  _ ← assign r (set_topic_keywords keywords st);
  mret r.

(** [update_state_after_routing] *)
Definition update_state_after_routing (r : nat)
  (selected_model model_tier : string) (had_vision had_heavy_context : bool)
  : M unit :=
  st ← deref r;
  now ← time_time;
  assign r (routing_update now selected_model model_tier
              had_vision had_heavy_context st).

End Store.

(** ** The classification engine ([services/classifier.py]) *)

Definition title_patterns : list string :=
  ["generate a title"; "create a title"; "title for this conversation";
   "chat_history"; "</chat_history>"; "conversation title";
   "summarize this conversation into a title"].

(** [is_title_generation_request] *)
Definition is_title_generation_request (msgs : list Message) : result bool :=
  match last msgs with
  | None => Ok false
  | Some m =>
      text ← get_text_from_content (content m);
      let last_message_content := Text.lower text in
      Ok ((String.length last_message_content <? 200)%nat
          && Text.contains_any title_patterns last_message_content)
  end.

(** [is_escalation_request] *)
Definition is_escalation_request (user_prompt : string) : bool :=
  let cleaned_prompt := Text.lower (Text.strip user_prompt) in
  Text.mem cleaned_prompt ["escalate"; "escalate this"; "escalate me"].

Definition imperative_triggers : list string :=
  ["research this"; "research that"; "research it"; "research about";
   "research the"; "research how"; "research what"; "research when";
   "research where"; "research why"; "research whether";
   "look this up"; "look that up"; "look it up"; "look up";
   "search for this"; "search for that"; "search for the";
   "find information about"; "find info about"; "find out about";
   "investigate this"; "investigate that"; "investigate the";
   "dig deeper into"; "get more info on"; "get information on"].

Definition polite_triggers : list string :=
  ["can you research"; "could you research"; "would you research";
   "please research"; "can you look up"; "could you look up";
   "can you find"; "could you find"; "can you search";
   "could you search"; "please look up"; "please find"].

Definition question_triggers : list string :=
  ["what's the latest on"; "what is the latest on";
   "what's the current"; "what is the current";
   "what are the recent"; "what are recent";
   "any recent"; "any latest"; "any new";
   "current information about"; "latest news on"; "recent developments"].

(** [is_research_request] *)
Definition is_research_request (user_prompt : string) : bool :=
  let cleaned_prompt := Text.lower (Text.strip user_prompt) in
  if existsb (fun t => Text.startswith t cleaned_prompt)
       (imperative_triggers ++ polite_triggers)
  then true
  else if (String.length cleaned_prompt <? 100)%nat
          && Text.contains_any question_triggers cleaned_prompt
  then true
  else
    let words := Text.split cleaned_prompt in
    (2 <=? length words)%nat
    && match words with
       | w :: _ => String.eqb w "research"
       | [] => false
       end
    && (length words <=? 10)%nat.

Definition default_category : string := "simple_no_research".

Definition valid_categories : list string :=
  ["simple_no_research"; "simple_research"; "hard_no_research";
   "hard_research"].

(** The loop [for valid_cat in valid_categories: if valid_cat in category]. *)
Fixpoint first_valid_category (cats : list string) (category : pyval)
  : result string :=
  match cats with
  | [] => Ok default_category
  | c :: rest =>
      found ← py_in c category;
      if found : bool then Ok c else first_valid_category rest category
  end.

Definition default_classifier_prompt : string :=
  "Classify the user's request based on two dimensions: 'SIMPLE' or 'HARD' complexity, "
  ++ "and 'RESEARCH' or 'NO_RESEARCH' for information retrieval. "
  ++ "Combine these with an underscore, e.g., 'SIMPLE_RESEARCH'. "
  ++ "Provide ONLY this combined classification. Default to 'SIMPLE_NO_RESEARCH'.".

Section Classifier.

Context (env : Env).

(** [read_system_prompt_from_file]: [os.path.join] rejects a path that
    is not a string before the guarded read. *)
Definition read_prompt_file (file : pyval) : result (option string) :=
  match file with
  | PStr f => Ok (read_system_prompt_from_file env f)
  | _ => Raise TypeError
  end.

(** The client class chosen for a provider name, its module taken to
    be importable. *)
Definition client_for (provider : pyval) : option Client :=
  match provider with
  | PStr p =>
      if String.eqb p "openai" then Some (mkClient "openai")
      else if String.eqb p "ollama" then Some (mkClient "ollama")
      else if String.eqb p "gemini" then Some (mkClient "gemini")
      else if String.eqb p "anthropic" then Some (mkClient "anthropic")
      else if String.eqb p "perplexity" then Some (mkClient "perplexity")
      else if String.eqb p "gemini_image"
      then Some (mkClient (gemini_image_provider_name env))
      else None
  | _ => None
  end.

(** The body of [get_llm_client_and_model_details] ([clients/base.py]);
    [None] stands for the tuple of five [None]s. *)
Definition lookup_model_details (logical_model_name : string)
  : result (option Resolution) :=
  let model_details :=
    dict_get_default logical_model_name PNone (model_configs (settings env)) in
  if negb (truthy model_details) then Ok None
  else
    provider ← py_get "provider" model_details;
    model_id_for_api ← py_get "model_id" model_details;
    model_type ← (match model_details with
                  | PDict d => Ok (dict_get_default "type" (PStr "chat") d)
                  | _ => Raise AttributeError
                  end);
    api_parameters ← (match model_details with
                      | PDict d => Ok (dict_get_default "parameters" (PDict []) d)
                      | _ => Raise AttributeError
                      end);
    system_prompt_content ← py_get "system_prompt" model_details;
    system_prompt_file ← py_get "system_prompt_file" model_details;
    system_prompt_content ←
      (if truthy system_prompt_file then
         file_content ← read_prompt_file system_prompt_file;
         match file_content with
         | Some c => if truthy (PStr c) then Ok (PStr c)
                     else Ok system_prompt_content
         | None => Ok system_prompt_content
         end
       else Ok system_prompt_content);
    let system_prompt_content :=
      if truthy system_prompt_content then system_prompt_content
      else PStr "You are a helpful AI assistant." in
    if negb (truthy provider) || negb (truthy model_id_for_api) then Ok None
    else
      match client_for provider with
      | None => Ok None
      | Some client =>
          match provider with
          | PStr p =>
              if initialize_client env p
              then Ok (Some (mkResolution client model_id_for_api model_type
                               api_parameters system_prompt_content))
              else Ok None
          | _ => Ok None
          end
      end.

(** A call of [get_llm_client_and_model_details], recorded in the trace. *)
Definition get_llm_client_and_model_details (logical_model_name : string)
  : M (option Resolution) :=
  _ ← emit (EvResolve logical_model_name);
  lift (lookup_model_details logical_model_name).

(** A call of [client.generate_response], recorded in the trace. *)
Definition call_generate (site : CallSite) (r : Resolution)
  (msgs : list Message) (temp : Z) (api_parameters system_prompt : pyval)
  : M Response :=
  _ ← emit (EvGenerate site (res_client r) (res_model_id r) msgs temp
              api_parameters system_prompt);
  lift (generate_response env (res_client r) (res_model_id r) msgs temp
          api_parameters system_prompt).

(** [_normalize_category] *)
Definition normalize_category (category : string) : result string :=
  let category := Text.lower (Text.strip category) in
  if Text.startswith "{" category then
    match json_loads env category with
    | Raise JSONDecodeError => Ok default_category
    | Raise e => Raise e
    | Ok data =>
        match data with
        | PDict d =>
            first_valid_category valid_categories
              (dict_get_default "category" (PStr default_category) d)
        | _ => Raise AttributeError
        end
    end
  else first_valid_category valid_categories (PStr category).

(** The reply text read by [classify_message]:
    [response.choices[0].message.content.strip().lower()] when the reply
    has a non-empty [choices] attribute, the default label otherwise. *)
Definition reply_category (response : Response) : result string :=
  match response with
  | RObject (Some (c :: _)) _ =>
      match choice_content c with
      | Some s => Ok (Text.lower (Text.strip s))
      | None => Raise AttributeError
      end
  | _ => Ok default_category
  end.

(** [classify_message] *)
Definition classify_message (msgs : list Message) : M string :=
  match last msgs with
  | None => mret default_category
  | Some m =>
      user_content ← lift (get_text_from_content (content m));
      res ← get_llm_client_and_model_details (classifier_model (settings env));
      match res with
      | None => mret default_category
      | Some r =>
          let system_prompt :=
            if truthy (res_system_prompt r) then res_system_prompt r
            else PStr default_classifier_prompt in
          try_except
            (response ← call_generate FromClassifier r
                          [mkMessage "user" (CStr user_content)] 0
                          (PDict [("max_tokens", PNum 25)]) system_prompt;
             category ← lift (reply_category response);
             lift (normalize_category category))
            (fun _ => mret default_category)
      end
  end.

End Classifier.

(** ** The routing decision engine ([services/router.py]) *)

Definition image_reference_keywords : list string :=
  ["image"; "picture"; "photo"; "screenshot"; "device"; "list"; "show";
   "display"; "read"; "see"; "view"; "visible"; "shown"; "listed"; "those";
   "these"; "what's in"; "what is in"; "describe"; "caption"; "identify";
   "items"; "objects"; "contents"; "details"; "information";
   "from the image"; "in the picture"; "what you see"; "analyze this";
   "tell me about"; "third item"; "first item"; "second item"; "last item";
   "bottom"; "top"; "left"; "right"; "corner"; "center"; "highlighted";
   "selected"; "what's the"; "which one"; "how many"; "count"; "number of"].

(** [_has_image_in_current_message] *)
Definition has_image_in_current_message (m : Message) : bool :=
  match content m with
  | CParts parts => existsb (part_is "image_url") parts
  | CStr _ => false
  end.

(** [_has_image_in_conversation] *)
Definition has_image_in_conversation (msgs : list Message) : bool :=
  existsb has_image_in_current_message msgs.

(** [_references_image_content] *)
Definition references_image_content (text : string) : bool :=
  let text_lower := Text.lower text in
  (0 <? length (List.filter (fun kw => Text.contains kw text_lower)
                  image_reference_keywords))%nat.

(** [_should_use_vision_model] *)
Definition should_use_vision_model (msgs : list Message) : result bool :=
  match last msgs with
  | None => Ok false
  | Some last_message =>
      if has_image_in_current_message last_message then Ok true
      else if has_image_in_conversation msgs then
        last_text ← get_text_from_content (content last_message);
        if references_image_content last_text then Ok true
        else if (String.length (Text.strip last_text) <? 50)%nat then Ok true
        else Ok false
      else Ok false
  end.

(** [_determine_model_tier] *)
Definition determine_model_tier (category : string)
  (needs_vision needs_heavy_context : bool) : string :=
  if needs_vision || needs_heavy_context then "hard"
  else if Text.contains "hard" category then "hard"
  else if Text.contains "simple" category then "simple"
  else "simple".

(** The canonical reply built by [_format_openai_response]: the object
    is always ["chat.completion"], with one choice, index 0, of role
    assistant and finish reason stop. *)
Record ChatCompletion : Type := mkCompletion {
  cc_id : pyval;
  cc_created : pyval;
  cc_model : string;
  cc_content : pyval;
  cc_usage : pyval;
  cc_images : option pyval
}.

Inductive Formatted : Type :=
| Canonical (c : ChatCompletion)
| Passthrough (d : pydict).

Definition usage_dict (p c t : pyval) : pyval :=
  PDict [("prompt_tokens", p); ("completion_tokens", c); ("total_tokens", t)].

Definition zero_usage : pyval := usage_dict (PNum 0) (PNum 0) (PNum 0).

Definition option_content (c : option string) : pyval :=
  match c with
  | Some s => PStr s
  | None => PNone
  end.

(** [getattr(llm_response.usage, field, 0)] *)
Definition usage_attr (u : option UsageObj) (field : UsageObj -> option Z)
  : pyval :=
  match u with
  | Some o => match field o with
              | Some n => PNum n
              | None => PNum 0
              end
  | None => PNum 0
  end.

Definition is_image_batch (d : pydict) : bool :=
  dict_has "data" d
  && match dict_get "object" d with
     | Some (PStr o) => String.eqb o "list"
     | _ => false
     end.

(** Content and usage of the standard chat-completion handling. *)
Definition standard_content_usage (llm_response : Response)
  : result (pyval * pyval) :=
  let content := PStr "An error occurred or no content was generated." in
  let usage := zero_usage in
  match llm_response with
  | RObject (Some (c :: _)) u =>
      let content := option_content (choice_content c) in
      match u with
      | Some uo =>
          Ok (content,
              usage_dict (usage_attr uo u_prompt_tokens)
                         (usage_attr uo u_completion_tokens)
                         (usage_attr uo u_total_tokens))
      | None => Ok (content, usage)
      end
  | RObject _ _ => Ok (content, usage)
  | RDict d =>
      if dict_has "choices" d then
        choices ← py_item "choices" (PDict d);
        first ← py_first choices;
        message ← py_item "message" first;
        content ← py_item "content" message;
        Ok (content, dict_get_default "usage" usage d)
      else if dict_has "message" d then
        message ← py_item "message" (PDict d);
        content ← py_item "content" message;
        let prompt_eval_count := dict_get_default "prompt_eval_count" (PNum 0) d in
        let eval_count := dict_get_default "eval_count" (PNum 0) d in
        total ← py_add prompt_eval_count eval_count;
        Ok (content, usage_dict prompt_eval_count eval_count total)
      else Ok (content, usage)
  end.

Section Router.

Context (env : Env).

(** [uuid.uuid4()] as text *)
Definition uuid_uuid4 : M string :=
  fun w => (Ok (uuid4 env (ticks w)),
            mkWorld (S (ticks w)) (heap w) (mgr w) (trace w)).

(** [_get_model_mappings().get(category, settings.fallback_model)] *)
Definition model_for_category (category : string) : string :=
  let s := settings env in
  if String.eqb category "simple_no_research" then simple_no_research_model s
  else if String.eqb category "simple_research" then simple_research_model s
  else if String.eqb category "hard_no_research" then hard_no_research_model s
  else if String.eqb category "hard_research" then hard_research_model s
  else fallback_model s.

(** [_detect_heavy_context] *)
Definition detect_heavy_context (msgs : list Message) : result bool :=
  match tiktoken_encoding env with
  | None =>
      texts ← result_map (fun m => get_text_from_content (content m)) msgs;
      let total_length :=
        fold_left (fun n t => (n + Z.of_nat (String.length t))%Z) texts 0%Z in
      Ok (token_usage_threshold (settings env) * 4 <? total_length)%Z
  | Some encode =>
      num_tokens ←
        fold_left
          (fun acc m =>
             n ← acc;
             text_content ← get_text_from_content (content m);
             if truthy (PStr text_content)
             then k ← encode text_content; Ok (n + k)%Z
             else Ok n)
          msgs (Ok 0%Z);
      Ok (token_usage_threshold (settings env) <? num_tokens)%Z
  end.

(** The model-name prefix added to the content in debug mode. *)
Definition debug_prefix (model_name : string) (content : pyval) : result pyval :=
  if String.eqb (Text.upper (log_level (settings env))) "DEBUG" then
    match content with
    | PStr c =>
        if negb (Text.startswith (model_name ++ " - ") c)
        then Ok (PStr (model_name ++ " - " ++ c))
        else Ok content
    | _ => Raise AttributeError
    end
  else Ok content.

(** The standard chat-completion branch of [_format_openai_response]. *)
Definition standard_completion (llm_response : Response) (model_name : string)
  : M Formatted :=
  '(content, usage) ← lift (standard_content_usage llm_response);
  content ← lift (debug_prefix model_name content);
  u ← uuid_uuid4;
  now ← time_time env;
  mret (Canonical (mkCompletion (PStr ("chatcmpl-" ++ u)) (PNum now)
                     model_name content usage None)).

(** [_format_openai_response] *)
Definition format_openai_response (llm_response : Response)
  (model_name : string) : M Formatted :=
  match llm_response with
  | RDict d =>
      if is_image_batch d then
        _ ← lift (py_sized (dict_get_default "data" PNone d));
        u ← uuid_uuid4;
        now ← time_time env;
        mret (Canonical
                (mkCompletion
                   (dict_get_default "id" (PStr ("img-" ++ u)) d)
                   (dict_get_default "created" (PNum now) d)
                   model_name
                   (PStr "I've generated an image based on your request.")
                   (usage_dict (PNum 0) (PNum 10) (PNum 10))
                   (Some (dict_get_default "data" (PList []) d))))
      else if dict_has "error" d then mret (Passthrough d)
      else standard_completion llm_response model_name
  | RObject _ _ => standard_completion llm_response model_name
  end.

(** The choice of target model and tier in [route_and_process]. *)
Definition select_target (msgs : list Message) (user_prompt_text : string)
  (needs_vision needs_heavy_context : bool) : M (string * string) :=
  let s := settings env in
  if needs_vision then mret (hard_no_research_model s, "hard")
  else if needs_heavy_context then mret (hard_no_research_model s, "hard")
  else
    title ← lift (is_title_generation_request msgs);
    if title : bool then mret (simple_no_research_model s, "simple")
    else if is_escalation_request user_prompt_text
    then mret (escalation_model s, "escalation")
    else if is_research_request user_prompt_text
    then mret ("Perplexity-Research", "research")
    else
      category ← classify_message env msgs;
      mret (model_for_category category,
            determine_model_tier category needs_vision needs_heavy_context).

(** Registry resolution of the target, with the fallback model. *)
Definition resolve_with_fallback (target_model : string)
  : M (Resolution * string) :=
  res ← get_llm_client_and_model_details env target_model;
  match res with
  | Some r => mret (r, target_model)
  | None =>
      res ← get_llm_client_and_model_details env (fallback_model (settings env));
      match res with
      | Some r => mret (r, fallback_model (settings env))
      | None => raise (HTTPException 500 "No valid LLM client available")
      end
  end.

(** The double check that a vision request goes to Gemini. *)
Definition vision_override (needs_vision : bool) (rt : Resolution * string)
  : M (Resolution * string) :=
  if needs_vision
     && negb (String.eqb (provider_name (res_client (fst rt))) "gemini")
  then
    res ← get_llm_client_and_model_details env (escalation_model (settings env));
    match res with
    | Some r =>
        if String.eqb (provider_name (res_client r)) "gemini"
        then mret (r, escalation_model (settings env))
        else raise (HTTPException 500 "Cannot find Gemini model for vision task!")
    | None => raise (HTTPException 500 "Cannot find Gemini model for vision task!")
    end
  else mret rt.

(** The preview of the reply written to the log. *)
Definition log_response_preview (response : Response) : result unit :=
  match response with
  | RObject (Some (c :: _)) _ => py_sliceable (option_content (choice_content c))
  | RObject _ _ => Ok tt
  | RDict d =>
      if dict_has "choices" d then
        choices ← py_item "choices" (PDict d);
        first ← py_first choices;
        message ← py_item "message" first;
        content ← py_item "content" message;
        py_sliceable content
      else Ok tt
  end.

(** [str(e)].  An [HTTPException] prints as its status and detail and a
    backend error as its message.  The message that the interpreter
    gives a built-in exception depends on the operation that failed,
    which the exception of this model does not record: one text per
    class stands for it, and no property states it. *)
Definition exn_text (e : exn) : string :=
  match e with
  | IndexError => "list index out of range"
  | TypeError => "type error"
  | AttributeError => "attribute error"
  | KeyError => "key error"
  | JSONDecodeError => "json decode error"
  | HTTPException status_code detail => pretty status_code ++ ": " ++ detail
  | ProviderError msg => msg
  | InvalidReference => "invalid reference"
  end.

(** The guarded part of [route_and_process]: the backend call and the
    formatting of its reply.  The request log lines written before the
    call read the text parts that [_detect_heavy_context] has already
    read, and raise nothing. *)
Definition generate_and_format (req : ChatRequest) (rt : Resolution * string)
  : M Formatted :=
  try_except
    (let temp := match temperature req with
                 | Some t => t
                 | None => 700%Z
                 end in
     response ← call_generate env FromRouter (fst rt) (messages req) temp
                  (res_api_parameters (fst rt)) (res_system_prompt (fst rt));
     _ ← lift (log_response_preview response);
     format_openai_response response (snd rt))
    (fun e => raise (HTTPException 500
                       ("Failed to generate response: " ++ exn_text e))).

(** [route_and_process] *)
Definition route_and_process (req : ChatRequest) : M Formatted :=
  let msgs := messages req in
  match last msgs with
  | None => raise (HTTPException 400 "No messages provided.")
  | Some last_message =>
      user_prompt_text ← lift (get_text_from_content (content last_message));
      needs_vision ← lift (should_use_vision_model msgs);
      needs_heavy_context ← lift (detect_heavy_context msgs);
      '(target_model, model_tier) ←
        select_target msgs user_prompt_text needs_vision needs_heavy_context;
      rt ← resolve_with_fallback target_model;
      rt ← vision_override needs_vision rt;
      generate_and_format req rt
  end.

End Router.

(** ** Vocabulary of the properties *)

(** The world after further calls have been recorded. *)
Definition add_events (w : World) (evs : list Event) : World :=
  mkWorld (ticks w) (heap w) (mgr w) (trace w ++ evs).

(** The clients that [route_and_process] itself asked to generate. *)
Fixpoint router_calls (tr : list Event) : list Client :=
  match tr with
  | [] => []
  | EvGenerate FromRouter c _ _ _ _ _ :: r => c :: router_calls r
  | _ :: r => router_calls r
  end.

(** The stickiness invariant of the data model: counters are not
    negative and a flag is false when its counter is 0. *)
Definition sticky_inv (s : ConversationState) : Prop :=
  (0 <= vision_sticky_count s)%Z
  /\ (0 <= heavy_context_sticky_count s)%Z
  /\ (vision_sticky_count s = 0%Z -> has_vision_content s = false)
  /\ (heavy_context_sticky_count s = 0%Z -> heavy_context_active s = false).

(** What every state object of the store satisfies: the counters stay
    within their sticky windows and a positive counter has its flag. *)
Definition window_inv (s : ConversationState) : Prop :=
  (0 <= vision_sticky_count s <= 3)%Z
  /\ (0 <= heavy_context_sticky_count s <= 2)%Z
  /\ ((0 < vision_sticky_count s)%Z -> has_vision_content s = true)
  /\ ((0 < heavy_context_sticky_count s)%Z -> heavy_context_active s = true).

(** [m] keeps [P] on every object of the heap and, when it returns,
    returns a value satisfying [Q]. *)
Definition keeps (P : ConversationState -> Prop) {A : Type} (m : M A)
  (Q : A -> Prop) : Prop :=
  forall w, Forall P (heap w) ->
            Forall P (heap (snd (m w)))
            /\ forall a, fst (m w) = Ok a -> Q a.

(** [m] touches nothing but the oracles and the trace: it leaves the
    state store (table and objects) as it found it, and the trace it
    leaves extends the one it found by events that, with the outcome of
    [m], satisfy [Q]. *)
Definition records {A : Type} (m : M A)
  (Q : result A -> list Event -> Prop) : Prop :=
  forall w,
    heap (snd (m w)) = heap w
    /\ mgr (snd (m w)) = mgr w
    /\ exists evs,
        trace (snd (m w)) = (trace w ++ evs)%list /\ Q (fst (m w)) evs.

Definition is_gemini (c : Client) : Prop := provider_name c = "gemini".

Definition no_router_call (evs : list Event) : Prop := router_calls evs = [].

(** One call of [update_state_after_routing], by its arguments. *)
Record RoutingCall : Type := mkCall {
  rc_selected_model : string;
  rc_model_tier : string;
  rc_had_vision : bool;
  rc_had_heavy_context : bool
}.

(** The operations of the store that create or change state objects. *)
Inductive StoreOp : Type :=
| OpGetOrCreate (msgs : list Message)
| OpUpdate (r : nat) (call : RoutingCall).

Definition run_op (env : Env) (op : StoreOp) (w : World) : World :=
  match op with
  | OpGetOrCreate msgs => snd (get_or_create_state env msgs w)
  | OpUpdate r c =>
      snd (update_state_after_routing env r (rc_selected_model c)
             (rc_model_tier c) (rc_had_vision c) (rc_had_heavy_context c) w)
  end.

(** A sequence of store operations; an operation that raises leaves the
    world as it was when the exception left it. *)
Definition run_ops (env : Env) (ops : list StoreOp) (w : World) : World :=
  fold_left (fun w op => run_op env op w) ops w.

(** The process at start-up: an empty state table. *)
Definition initial_world (max_conv retention started : Z) : World :=
  mkWorld 0 [] (mkManager [] max_conv retention started) [].

(** [calls] applied one after the other to the object at [r]. *)
Fixpoint run_updates (env : Env) (r : nat) (calls : list RoutingCall) : M unit :=
  match calls with
  | [] => mret tt
  | c :: rest =>
      _ ← update_state_after_routing env r (rc_selected_model c)
            (rc_model_tier c) (rc_had_vision c) (rc_had_heavy_context c);
      run_updates env r rest
  end.

(** The keyword extraction as the specification words it: the tokens of
    the last 3 user turns. *)
Definition spec_extract_topic_keywords (msgs : list Message)
  : result (list string) :=
  texts ← result_map (fun m => get_text_from_content (content m))
            (last_n 3 (List.filter is_user msgs));
  let words := map (Text.strip_chars keyword_punctuation)
                   (Text.split (Text.lower (Text.join " " texts))) in
  Ok (take 10 (List.filter is_keyword words)).

(** [overlap / union < 0.3] over the rationals. *)
Definition ratio_below_30_percent (overlap union : nat) : bool :=
  (10 * Z.of_nat overlap <? 3 * Z.of_nat union)%Z.

(** The keyword test of drift between a fresh and a stored keyword list. *)
Definition keyword_drift (current stored : list string) : bool :=
  match current, stored with
  | _ :: _, _ :: _ =>
      ratio_below_30_percent (overlap_count current stored)
                             (union_count current stored)
  | _, _ => false
  end.

(** Topic drift as the specification words it. *)
Definition spec_topic_drift (msgs : list Message) (st : ConversationState)
  : result bool :=
  match last msgs with
  | None => Raise IndexError
  | Some m =>
      text ← get_text_from_content (content m);
      current ← spec_extract_topic_keywords msgs;
      Ok (Text.contains_any topic_change_indicators (Text.lower text)
          || keyword_drift current (topic_keywords st))
  end.

(** A usage object whose total is the sum of its two counts. *)
Definition usage_total_is_sum (u : pyval) : Prop :=
  exists p c t, u = usage_dict p c t /\ py_add p c = Ok t.

(** A backend reply that reports no token usage. *)
Definition reports_no_usage (r : Response) : bool :=
  match r with
  | RObject _ None => true
  | RObject _ (Some _) => false
  | RDict d =>
      negb (dict_has "usage" d) && negb (dict_has "prompt_eval_count" d)
      && negb (dict_has "eval_count" d)
  end.

(** ** Sample configuration and inputs *)

Definition model_entry (provider model_id : string) : pyval :=
  PDict [("provider", PStr provider); ("model_id", PStr model_id)].

Definition sample_settings : Settings :=
  mkSettings "router-classifier" "fast-chat" "fast-search" "deep-chat"
    "deep-search" "top-chat" "spare-chat" 4000 "INFO"
    [("fast-chat", model_entry "ollama" "llama3");
     ("deep-chat", model_entry "openai" "gpt-4o");
     ("top-chat", model_entry "gemini" "gemini-2.5-pro");
     ("spare-chat", model_entry "ollama" "mistral")].

Definition chat_reply (text : string) (usage : pyval) : Response :=
  RDict [("choices",
          PList [PDict [("message", PDict [("content", PStr text)])]]);
         ("usage", usage)].

(** A deployment for the examples.  Its digest function is the identity:
    the examples only need equal signatures to give equal ids, which
    every function does. *)
Definition sample_env : Env :=
  mkEnv (fun n => (1000 + Z.of_nat n)%Z) (fun _ => "0000") (fun s => s)
    sample_settings (fun _ => None) (fun _ => true) "gemini_image" None
    (fun _ => Raise JSONDecodeError)
    (fun _ _ _ _ _ _ => Ok (chat_reply "done" zero_usage)).

(** The same deployment with no model configured at all. *)
Definition bare_env : Env :=
  mkEnv (clock sample_env) (uuid4 sample_env) (md5_hexdigest sample_env)
    (mkSettings "router-classifier" "fast-chat" "fast-search" "deep-chat"
       "deep-search" "top-chat" "spare-chat" 4000 "INFO" [])
    (fun _ => None) (fun _ => true) "gemini_image" None
    (fun _ => Raise JSONDecodeError)
    (fun _ _ _ _ _ _ => Ok (chat_reply "done" zero_usage)).

(** A deployment whose models file gives the classifier entry as a
    bare string instead of an object. *)
Definition misconfigured_env : Env :=
  mkEnv (clock sample_env) (uuid4 sample_env) (md5_hexdigest sample_env)
    (mkSettings "router-classifier" "fast-chat" "fast-search" "deep-chat"
       "deep-search" "top-chat" "spare-chat" 4000 "INFO"
       [("router-classifier", PStr "gpt-4o-mini")])
    (fun _ => None) (fun _ => true) "gemini_image" None
    (fun _ => Raise JSONDecodeError)
    (fun _ _ _ _ _ _ => Ok (chat_reply "done" zero_usage)).

Definition sample_world : World := initial_world 1000 86400 1000.

(** Stored keywords never exceed the cap of the extraction. *)
Definition keywords_capped (s : ConversationState) : Prop :=
  (length (topic_keywords s) <= 10)%nat.

Definition user_says (text : string) : Message := mkMessage "user" (CStr text).
Definition assistant_says (text : string) : Message :=
  mkMessage "assistant" (CStr text).

(** A user turn carrying a picture. *)
Definition picture_turn : Message :=
  mkMessage "user"
    (CParts [[("type", PStr "text"); ("text", PStr "look at this")];
             [("type", PStr "image_url");
              ("image_url", PDict [("url", PStr "data:image/png;base64,AAAA")])]]).

(** A text part whose text is a number. *)
Definition numeric_text_turn : Message :=
  mkMessage "user" (CParts [[("type", PStr "text"); ("text", PNum 5)]]).

Definition topic_switch : list Message := [user_says "new topic: cats"].

Definition long_history : list Message :=
  [user_says "kubernetes cluster deployment";
   assistant_says "sure";
   user_says "pods";
   assistant_says "okay then";
   user_says "nodes";
   assistant_says "done"].

Definition kubernetes_state : ConversationState :=
  set_topic_keywords ["kubernetes"; "cluster"; "deployment"]
    (new_state "k8s" [] 0).

Definition image_batch_reply : pydict :=
  [("object", PStr "list"); ("data", PList [PDict [("b64_json", PStr "AAAA")]])].

Definition uneven_usage : pyval :=
  usage_dict (PNum 5) (PNum 7) (PNum 13).

(** ** Further functions of the services *)

Definition is_upper_ascii (c : ascii) : bool :=
  let n := nat_of_ascii c in (65 <=? n)%nat && (n <=? 90)%nat.

Definition is_lower_ascii (c : ascii) : bool :=
  let n := nat_of_ascii c in (97 <=? n)%nat && (n <=? 122)%nat.

(** [str.istitle()]: an upper-case letter only after an uncased
    character, a lower-case letter only after a cased one, and at least
    one letter. *)
Fixpoint istitle_go (previous_is_cased cased : bool) (s : string) : bool :=
  match s with
  | EmptyString => cased
  | String c r =>
      if is_upper_ascii c then
        if previous_is_cased then false else istitle_go true true r
      else if is_lower_ascii c then
        if previous_is_cased then istitle_go true true r else false
      else istitle_go false cased r
  end.

Definition istitle (s : string) : bool := istitle_go false false s.

(** [s.replace(c, '')] for a single character [c] *)
Fixpoint remove_char (c : ascii) (s : string) : string :=
  match s with
  | EmptyString => EmptyString
  | String d r => if Ascii.eqb c d then remove_char c r
                  else String d (remove_char c r)
  end.

(** [s[n:]] *)
Fixpoint drop_str (n : nat) (s : string) : string :=
  match n, s with
  | O, _ => s
  | S _, EmptyString => EmptyString
  | S k, String _ r => drop_str k r
  end.

(** [s[-n:]] for a positive [n] *)
Definition take_last (n : nat) (s : string) : string :=
  drop_str (String.length s - n) s.

(** [s.split(sep, 1)] when [sep] occurs in [s]: the text before the
    first occurrence and the text after it; [None] when it does not
    occur (the list then has the single element [s]). *)
Fixpoint split_once (sep s : string) : option (string * string) :=
  if Text.startswith sep s then Some (EmptyString, drop_str (String.length sep) s)
  else
    match s with
    | EmptyString => None
    | String c r =>
        match split_once sep r with
        | Some (before, after) => Some (String c before, after)
        | None => None
        end
    end.

Definition context_triggers : list string :=
  ["research this"; "research that"; "research it";
   "look this up"; "look that up"; "look it up"].

(** The test on a context word: longer than 2 characters and
    capitalised or title-cased. *)
Definition looks_like_topic (word : string) : bool :=
  (2 <? String.length word)%nat
  && (match word with
      | String c _ => is_upper_ascii c
      | EmptyString => false
      end
      || istitle (remove_char "." (remove_char "," word))).

(** The branch of [extract_research_topic] that reads the context. *)
Definition topic_from_context (conversation_context : string) : string :=
  let context_words := Text.split conversation_context in
  let potential_topics :=
    map (Text.strip_chars ".,!?;:")
        (List.filter looks_like_topic (last_n 50 context_words)) in
  match potential_topics with
  | [] => take_last 200 conversation_context
  | _ => Text.join " " (last_n 3 potential_topics)
  end.

(** [user_prompt.split(phrase, 1)[1].strip()] *)
Definition after_phrase (phrase user_prompt : string) : result string :=
  match split_once phrase user_prompt with
  | Some (_, rest) => Ok (Text.strip rest)
  | None => Raise IndexError
  end.

(** [extract_research_topic] ([services/classifier.py]) *)
Definition extract_research_topic (user_prompt conversation_context : string)
  : result string :=
  let prompt_lower := Text.lower (Text.strip user_prompt) in
  if Text.contains_any context_triggers prompt_lower
  then Ok (topic_from_context conversation_context)
  else if Text.contains "research about" prompt_lower
  then after_phrase "research about" user_prompt
  else if Text.contains "find information about" prompt_lower
  then after_phrase "find information about" user_prompt
  else if Text.contains "what's the latest on" prompt_lower
  then after_phrase "what's the latest on" user_prompt
  else
    let words := Text.split user_prompt in
    if (1 <? length words)%nat
       && match words with
          | w :: _ => String.eqb (Text.lower w) "research"
          | [] => false
          end
    then Ok (Text.join " " (tl words))
    else Ok user_prompt.

(** [get_state_summary] ([services/conversation_state.py]) *)
Definition get_state_summary (cid : string) : M pydict :=
  m ← get_mgr;
  match states_get cid (states m) with
  | None => mret [("status", PStr "not_found")]
  | Some r =>
      st ← deref r;
      mret [("conversation_id", PStr (conversation_id st));
            ("active_model_tier", PStr (active_model_tier st));
            ("last_model_used", option_content (last_model_used st));
            ("has_vision_content", PBool (has_vision_content st));
            ("vision_sticky_count", PNum (vision_sticky_count st));
            ("heavy_context_active", PBool (heavy_context_active st));
            ("heavy_context_sticky_count",
             PNum (heavy_context_sticky_count st));
            ("message_count_since_upgrade",
             PNum (message_count_since_upgrade st));
            ("topic_keywords", PList (map PStr (take 5 (topic_keywords st))));
            ("total_conversations_tracked",
             PNum (Z.of_nat (length (states m))))]
  end.

(** The dict that [AnthropicClient.generate_response] builds from the
    text and the token counts of the SDK reply
    ([clients/anthropic_client.py]). *)
Definition anthropic_reply (model_id : pyval) (text : string)
  (input_tokens output_tokens : Z) : Response :=
  RDict [("choices",
          PList [PDict [("message", PDict [("content", PStr text)])]]);
         ("model", model_id);
         ("usage",
          usage_dict (PNum input_tokens) (PNum output_tokens)
                     (PNum (input_tokens + output_tokens)))].

(** The dict that [GeminiClient.generate_response] builds from
    [response.text], which the SDK leaves [None] for a reply without
    text ([clients/gemini_client.py]). *)
Definition gemini_reply (model_id : pyval) (text : option string) : Response :=
  RDict [("choices",
          PList [PDict [("message",
                         PDict [("content", option_content text)])]]);
         ("model", model_id);
         ("usage", zero_usage)].

(** ** More vocabulary *)

(** A table entry whose reference is a live object filed under its own
    conversation id. *)
Definition entry_live (h : list ConversationState) (e : string * nat) : Prop :=
  exists s, h !! snd e = Some s /\ conversation_id s = fst e.

(** The state table is a proper dict of live objects. *)
Definition store_wf (w : World) : Prop :=
  NoDup (map fst (states (mgr w)))
  /\ Forall (entry_live (heap w)) (states (mgr w)).

(** The logical names looked up in the registry, in order. *)
Fixpoint resolves (tr : list Event) : list string :=
  match tr with
  | [] => []
  | EvResolve n :: r => n :: resolves r
  | _ :: r => resolves r
  end.

Definition is_server_error (e : exn) : Prop :=
  exists detail, e = HTTPException 500 detail.

(** The four tiers of the data model. *)
Definition tiers : list string := ["simple"; "hard"; "escalation"; "research"].

(** The logical models a selection can name. *)
Definition selectable_models (s : Settings) : list string :=
  [simple_no_research_model s; simple_research_model s;
   hard_no_research_model s; hard_research_model s;
   escalation_model s; "Perplexity-Research"].

(** A deployment whose backends answer with an SDK object whose first
    choice has no content. *)
Definition silent_env : Env :=
  mkEnv (clock sample_env) (uuid4 sample_env) (md5_hexdigest sample_env)
    sample_settings (fun _ => None) (fun _ => true) "gemini_image" None
    (fun _ => Raise JSONDecodeError)
    (fun _ _ _ _ _ _ => Ok (RObject (Some [mkChoice None]) None)).

Definition ollama_resolution : Resolution :=
  mkResolution (mkClient "ollama") (PStr "llama3") (PStr "chat") (PDict [])
    (PStr "You are a helpful AI assistant.").

(** The temperature sent to the backend: the request's, or 0.7. *)
Definition request_temperature (req : ChatRequest) : Z :=
  match temperature req with
  | Some t => t
  | None => 700%Z
  end.

(** The one call [route_and_process] makes to a backend. *)
Definition router_call (req : ChatRequest) (r : Resolution) : Event :=
  EvGenerate FromRouter (res_client r) (res_model_id r) (messages req)
    (request_temperature req) (res_api_parameters r) (res_system_prompt r).

(** Routing updates applied to one state object, each with the clock
    reading it takes. *)
Definition apply_call (s : ConversationState) (nc : Z * RoutingCall)
  : ConversationState :=
  routing_update (fst nc) (rc_selected_model (snd nc)) (rc_model_tier (snd nc))
    (rc_had_vision (snd nc)) (rc_had_heavy_context (snd nc)) s.

Definition apply_calls (s : ConversationState) (calls : list (Z * RoutingCall))
  : ConversationState :=
  fold_left apply_call calls s.

(** The part of [get_or_create_state] that follows the eviction pass. *)
Definition lookup_or_create (env : Env) (msgs : list Message) : M nat :=
  conversation_id ← lift (generate_conversation_id env msgs);
  m ← get_mgr;
  r ← match states_get conversation_id (states m) with
      | Some r =>
          st ← deref r;
          now ← time_time env;
          let st1 := set_last_activity now st in
          _ ← assign r st1;
          changed ← lift (detect_topic_change msgs st1);
          _ ← (if changed : bool then assign r (reset_sticky st1) else mret tt);
          mret r
      | None =>
          keywords ← lift (extract_topic_keywords msgs);
          now ← time_time env;
          r ← alloc (new_state conversation_id keywords now);
          _ ← put_mgr (mkManager (states m ++ [(conversation_id, r)])
                         (max_conversations m) (cleanup_after_seconds m)
                         (last_cleanup m));
          mret r
      end;
  keywords ← lift (extract_topic_keywords msgs);
  st ← deref r;
  _ ← assign r (set_topic_keywords keywords st);
  mret r.

(** The world with another heap and state table, one oracle draw later. *)
Definition next_world (w : World) (h : list ConversationState)
  (d : list (string * nat)) : World :=
  mkWorld (S (ticks w)) h
    (mkManager d (max_conversations (mgr w)) (cleanup_after_seconds (mgr w))
       (last_cleanup (mgr w)))
    (trace w).

(** The eviction pass is due. *)
Definition cleanup_due (env : Env) (w : World) : Prop :=
  (3600 <= clock env (ticks w) - last_cleanup (mgr w))%Z.

(** An explicit topic-change marker in the text of the last message. *)
Definition has_topic_marker (msgs : list Message) : bool :=
  match last msgs with
  | Some m =>
      match get_text_from_content (content m) with
      | Ok text => Text.contains_any topic_change_indicators (Text.lower text)
      | Raise _ => false
      end
  | None => false
  end.

(** The fields of a state object other than [last_activity]. *)
Definition same_but_activity (a b : ConversationState) : Prop :=
  set_last_activity 0 a = set_last_activity 0 b.

(** The table without the entries of the keys [ks]. *)
Definition without_keys (ks : list string) (d : list (string * nat))
  : list (string * nat) :=
  fold_left (fun d k => states_del k d) ks d.

(** A state object that the eviction pass at [now] keeps for its age. *)
Definition fresh_enough (h : list ConversationState) (retention now : Z)
  (e : string * nat) : Prop :=
  forall s, h !! snd e = Some s -> (now - last_activity s <= retention)%Z.

(** A world for the examples of eviction: three conversations, last
    active at 10, 5000 and 90000, a table limited to one entry with a
    retention of 86400 seconds, and a clock that reads 100000 and then
    100001 (slots 0 and 1 of [sample_env]'s clock read 1000 and 1001,
    so the sample uses a clock of its own). *)
Definition late_env : Env :=
  mkEnv (fun n => (100000 + Z.of_nat n)%Z) (uuid4 sample_env)
    (md5_hexdigest sample_env) sample_settings (fun _ => None)
    (fun _ => true) "gemini_image" None (fun _ => Raise JSONDecodeError)
    (fun _ _ _ _ _ _ => Ok (chat_reply "done" zero_usage)).

Definition crowded_world : World :=
  mkWorld 0
    [new_state "a" [] 10; new_state "b" [] 5000; new_state "c" [] 90000]
    (mkManager [("a", 0%nat); ("b", 1%nat); ("c", 2%nat)] 1 86400 0) [].

(** Two conversations of three messages that open with the same user
    message and go on differently, and a short one for a repeated
    request. *)
Definition rust_question : list Message := [user_says "rust borrow checker"].

Definition travel_chat : list Message :=
  [user_says "hello there"; assistant_says "hi"; user_says "plan a trip to rome"].

Definition cooking_chat : list Message :=
  [user_says "hello there"; assistant_says "hey"; user_says "bake sourdough bread"].

(** The store after the first lookup of a conversation at start-up. *)
Definition after_lookup (msgs : list Message) : World :=
  snd (get_or_create_state sample_env msgs sample_world).

(** ** The HTTP endpoints ([main.py], [utils/auth.py]) *)

(** [validate_api_key]; the header is [None] when the request has
    none. *)
Definition validate_api_key (authorization : option string) : result string :=
  match authorization with
  | None | Some EmptyString =>
      Raise (HTTPException 401 "Missing Authorization header")
  | Some a =>
      let api_key :=
        if Text.startswith "Bearer " a then drop_str 7 a else a in
      if (String.length api_key <? 10)%nat
      then Raise (HTTPException 401 "Invalid API key format")
      else Ok api_key
  end.

(** The dict that [smart_route_chat_completions] returns from its
    exception handler; [message] is [str(e)]. *)
Definition critical_error (message : string) : pydict :=
  [("error",
    PDict [("message",
            PStr ("A critical error occurred in the smart router: "
                  ++ message));
           ("type", PStr "server_error");
           ("code", PStr "smart_router_fail")])].

(** [smart_route_chat_completions].  [reload] is the outcome of the
    settings reload and of the log-level update, and [body] the outcome
    of reading the JSON body, logging it and validating it as a
    [ChatRequest]; the settings of [env] are the ones in force after the
    reload.  The value returned is the router's reply or the error
    dict. *)
Definition smart_route_chat_completions (env : Env) (reload : result unit)
  (authorization : option string) (body : result ChatRequest) : M Formatted :=
  try_except
    (_ ← lift reload;
     _ ← lift (validate_api_key authorization);
     chat_request ← lift body;
     route_and_process env chat_request)
    (fun e => mret (Passthrough (critical_error (exn_text e)))).

(** [for x in l: ys.append(f(x))] *)
Fixpoint for_each {A B : Type} (f : A -> M B) (l : list A) : M (list B) :=
  match l with
  | [] => mret []
  | x :: rest =>
      y ← f x;
      ys ← for_each f rest;
      mret (y :: ys)
  end.

(** [debug_conversations] *)
Definition debug_conversations (authorization : option string) : M pydict :=
  _ ← lift (validate_api_key authorization);
  m ← get_mgr;
  let total_conversations := length (states m) in
  if (total_conversations =? 0)%nat
  then mret [("total_conversations", PNum 0); ("conversations", PList [])]
  else
    conversations ← for_each get_state_summary (take 10 (map fst (states m)));
    mret [("total_conversations", PNum (Z.of_nat total_conversations));
          ("showing", PNum (Z.of_nat (length conversations)));
          ("conversations", PList (map PDict conversations))].

(** [debug_specific_conversation] *)
Definition debug_specific_conversation (conversation_id : string)
  (authorization : option string) : M pydict :=
  _ ← lift (validate_api_key authorization);
  get_state_summary conversation_id.

(** A request is refused for its key. *)
Definition is_unauthorized (e : exn) : Prop :=
  exists detail, e = HTTPException 401 detail.

(** ** Provider clients ([clients/]) *)

(** [for x in v]: the elements of a list, the characters of a string,
    the keys of a dict. *)
Definition py_iter (v : pyval) : result (list pyval) :=
  match v with
  | PList l => Ok l
  | PStr s => Ok (map (fun c => PStr (String c EmptyString))
                      (list_ascii_of_string s))
  | PDict d => Ok (map (fun kv => PStr (fst kv)) d)
  | _ => Raise TypeError
  end.

(** [len(v)] *)
Definition py_len (v : pyval) : result Z :=
  match v with
  | PList l => Ok (Z.of_nat (length l))
  | PStr s => Ok (Z.of_nat (String.length s))
  | PDict d => Ok (Z.of_nat (length d))
  | _ => Raise TypeError
  end.

(** [v == s] for a string [s] *)
Definition is_str (s : string) (v : pyval) : bool :=
  match v with
  | PStr t => String.eqb t s
  | _ => false
  end.

(** A loop that threads an accumulator and stops at the first
    exception. *)
Fixpoint result_fold {A B : Type} (f : B -> A -> result B) (l : list A)
  (acc : B) : result B :=
  match l with
  | [] => Ok acc
  | x :: r => acc' ← f acc x; result_fold f r acc'
  end.

(** The body of the inner loop of [_convert_perplexity_response]:
    [message_content += content_item.get("text", "")] for a text
    item. *)
Definition perplexity_content_text (message_content : string)
  (content_item : pyval) : result string :=
  ty ← py_get "type" content_item;
  if is_str "text" ty then
    match content_item with
    | PDict d =>
        match dict_get_default "text" (PStr "") d with
        | PStr t => Ok (message_content ++ t)
        | _ => Raise TypeError
        end
    | _ => Raise AttributeError
    end
  else Ok message_content.

(** The body of its outer loop. *)
Definition perplexity_item_text (message_content : string) (item : pyval)
  : result string :=
  ty ← py_get "type" item;
  if is_str "message" ty then
    has_content ← py_in "content" item;
    if has_content : bool then
      content_array ← py_item "content" item;
      content_items ← py_iter content_array;
      result_fold perplexity_content_text content_items message_content
    else Ok message_content
  else Ok message_content.

(** The reply that [_convert_perplexity_response] builds around a
    text. *)
Definition perplexity_completion (id created model_id : pyval)
  (message_content : string) (usage : pyval) : pydict :=
  [("id", id); ("object", PStr "chat.completion"); ("created", created);
   ("model", model_id);
   ("choices",
    PList [PDict [("index", PNum 0);
                  ("message", PDict [("role", PStr "assistant");
                                     ("content", PStr message_content)]);
                  ("finish_reason", PStr "stop")]]);
   ("usage", usage)].

Definition perplexity_parse_error : string :=
  "Error: Could not parse Perplexity response format".

Section Perplexity.

(** The builtin [int], applied to the [created_at] field. *)
Variable py_int : pyval -> result pyval.

(** [PerplexityClient._convert_perplexity_response], on the JSON object
    of the HTTP reply. *)
Definition convert_perplexity_response (perplexity_response : pydict)
  (model_id : pyval) : result pydict :=
  let fallback :=
    Ok (perplexity_completion (PStr "unknown") (PNum 0) model_id
          perplexity_parse_error zero_usage) in
  if dict_has "choices" perplexity_response then Ok perplexity_response
  else
    match dict_get "output" perplexity_response with
    | Some output =>
        if truthy output then
          n ← py_len output;
          if (0 <? n)%Z then
            items ← py_iter output;
            message_content ← result_fold perplexity_item_text items "";
            created ← py_int (dict_get_default "created_at" (PNum 0)
                                perplexity_response);
            Ok (perplexity_completion
                  (dict_get_default "id" (PStr "unknown") perplexity_response)
                  created model_id message_content
                  (dict_get_default "usage" zero_usage perplexity_response))
          else fallback
        else fallback
    | None => fallback
    end.

End Perplexity.

(** The reply has an [output] field that the conversion reads. *)
Definition has_output (perplexity_response : pydict) : bool :=
  match dict_get "output" perplexity_response with
  | Some output => truthy output
  | None => false
  end.

(** *** The contents sent to Gemini ([clients/gemini_client.py])

    The clients are called with the dicts of the [Message] objects
    ([msg.dict()] in the router, a literal in the classifier), so a
    message always has its [role], a string, and its [content], a string
    or a list of dicts. *)

(** An entry of the [contents] list: a value taken from the messages (a
    text when it is a [str]) or an image [Part] made from decoded
    bytes. *)
Inductive GeminiPart : Type :=
| GValue (v : pyval)
| GImage (data mime_type : string).

(** [isinstance(part, str)] *)
Definition is_text_part (p : GeminiPart) : bool :=
  match p with
  | GValue (PStr _) => true
  | _ => false
  end.

Definition part_text (p : GeminiPart) : option string :=
  match p with
  | GValue (PStr s) => Some s
  | _ => None
  end.

Definition newline : string := String (ascii_of_nat 10) EmptyString.

(** [s.split(sep)[0]] *)
Definition before (sep s : string) : string :=
  match split_once sep s with
  | Some (b, _) => b
  | None => s
  end.

Section Gemini.

(** [base64.b64decode], [None] when it raises. *)
Variable b64decode : string -> option string.

(** The [try] block that turns a data URL into an image part; any
    exception in it gives the text of the handler. *)
Definition image_from_data_url (image_url : string) : GeminiPart :=
  let failed := GValue (PStr "(Image conversion failed)") in
  match split_once "," image_url with
  | Some (header, base64_data) =>
      match split_once ":" header with
      | Some (_, rest) =>
          let mime_type := before ";" (before ":" rest) in
          match b64decode base64_data with
          | Some image_bytes => GImage image_bytes mime_type
          | None => failed
          end
      | None => failed
      end
  | None => failed
  end.

(** The branch of [_convert_openai_content_to_gemini] for a part of
    type [image_url]. *)
Definition convert_image_part (part : pydict) : result GeminiPart :=
  image_url ← match dict_get_default "image_url" (PDict []) part with
              | PDict d => Ok (dict_get_default "url" (PStr "") d)
              | _ => Raise AttributeError
              end;
  match image_url with
  | PStr url =>
      if Text.startswith "data:image/" url
      then Ok (image_from_data_url url)
      else Ok (GValue (PStr "(External image URL not supported)"))
  | _ => Raise AttributeError
  end.

(** What one part of a content list adds to [gemini_parts]. *)
Definition convert_part (part : pydict) : result (list GeminiPart) :=
  if part_is "text" part then
    text ← py_item "text" (PDict part);
    Ok [GValue text]
  else if part_is "image_url" part then
    image_part ← convert_image_part part;
    Ok [image_part]
  else Ok [].

(** [_convert_openai_content_to_gemini] *)
Definition convert_openai_content_to_gemini (c : Content)
  : result (list GeminiPart) :=
  match c with
  | CStr s => Ok [GValue (PStr s)]
  | CParts parts =>
      gemini_parts ← result_map convert_part parts;
      Ok (concat gemini_parts)
  end.

(** The loop of [_build_gemini_contents] over the messages; the state
    is [(all_images, conversation_context)]. *)
Definition gemini_scan_message (st : list GeminiPart * list string)
  (message : Message) : result (list GeminiPart * list string) :=
  let '(all_images, conversation_context) := st in
  if String.eqb (role message) "user" then
    content_parts ← convert_openai_content_to_gemini (content message);
    let text_parts := omap part_text content_parts in
    let all_images :=
      (all_images
       ++ List.filter (fun p => negb (is_text_part p)) content_parts)%list in
    match text_parts with
    | [] => Ok (all_images, conversation_context)
    | _ => Ok (all_images,
               (conversation_context
                ++ [("User: " ++ Text.join " " text_parts)%string])%list)
    end
  else if String.eqb (role message) "assistant" then
    match content message with
    | CStr assistant_text =>
        assistant_text ←
          (if Text.contains " - " assistant_text
           then match split_once " - " assistant_text with
                | Some (_, rest) => Ok rest
                | None => Raise IndexError
                end
           else Ok assistant_text);
        Ok (all_images,
            (conversation_context
             ++ [("Assistant: " ++ assistant_text)%string])%list)
    | CParts _ => Ok st
    end
  else Ok st.

(** The entry that repeats the last message. *)
Definition current_question (messages : list Message) : list GeminiPart :=
  match last messages with
  | Some last_message =>
      if String.eqb (role last_message) "user" then
        match content last_message with
        | CStr last_content =>
            [GValue (PStr ("Current question: " ++ last_content))]
        | CParts _ => []
        end
      else []
  | None => []
  end.

(** [_build_gemini_contents] *)
Definition build_gemini_contents (messages : list Message)
  (system_prompt : pyval) : result (list GeminiPart) :=
  match messages with
  | [] => Ok [GValue (if truthy system_prompt then system_prompt
                      else PStr "Hello")]
  | _ =>
      '(all_images, conversation_context) ←
        result_fold gemini_scan_message messages ([], []);
      Ok ((if truthy system_prompt then [GValue system_prompt] else [])
          ++ match conversation_context with
             | [] => []
             | _ => [GValue (PStr ("Conversation context:" ++ newline
                                   ++ Text.join newline
                                        (last_n 10 conversation_context))%string)]
             end
          ++ all_images
          ++ current_question messages)%list
  end.

(** The parts of the user messages that are not texts, in the order of
    the conversation. *)
Definition user_images (messages : list Message) : list GeminiPart :=
  concat
    (map (fun m =>
            match convert_openai_content_to_gemini (content m) with
            | Ok parts => List.filter (fun p => negb (is_text_part p)) parts
            | Raise _ => []
            end)
         (List.filter is_user messages)).

End Gemini.

(** A message of the user or of the assistant. *)
Definition speaks (m : Message) : bool :=
  String.eqb (role m) "user" || String.eqb (role m) "assistant".

(** A conversation with a picture in its first turn and a system
    message in the middle, and a decoder for the samples. *)
Definition picture_chat : list Message :=
  [picture_turn; assistant_says "Flash - a cat";
   mkMessage "system" (CStr "be brief"); user_says "what colour is it"].

Definition sample_b64decode (s : string) : option string := Some s.

(** *** The parameters of the provider calls

    [temperature] is the number the caller passes; the functions only
    store it. *)

(** [d[k] = v]: a key that is there keeps its place. *)
Fixpoint dict_set (k : string) (v : pyval) (d : pydict) : pydict :=
  match d with
  | [] => [(k, v)]
  | (k', v') :: r =>
      if String.eqb k k' then (k, v) :: r else (k', v') :: dict_set k v r
  end.

Definition content_value (c : Content) : pyval :=
  match c with
  | CStr s => PStr s
  | CParts parts => PList (map PDict parts)
  end.

(** [{"role": msg["role"], "content": msg["content"]}] *)
Definition message_dict (m : Message) : pyval :=
  PDict [("role", PStr (role m)); ("content", content_value (content m))].

(** The system message that leads the list when there is a prompt. *)
Definition system_message (system_prompt : pyval) : list pyval :=
  if truthy system_prompt
  then [PDict [("role", PStr "system"); ("content", system_prompt)]]
  else [].

(** [if not api_parameters.get("exclude_temperature", False):
    call_params["temperature"] = temperature] *)
Definition with_temperature (api_parameters : pydict) (temperature : pyval)
  (call_params : pydict) : pydict :=
  if truthy (dict_get_default "exclude_temperature" (PBool false)
               api_parameters)
  then call_params
  else dict_set "temperature" temperature call_params.

(** The loop that copies the parameters of the model configuration,
    except the router's own flags. *)
Definition forward_parameters (custom_flags : list string)
  (api_parameters call_params : pydict) : pydict :=
  fold_left
    (fun call_params kv =>
       if Text.mem (fst kv) custom_flags then call_params
       else dict_set (fst kv) (snd kv) call_params)
    api_parameters call_params.

(** The keyword arguments that [OpenAIClient.generate_response] passes
    to the SDK. *)
Definition openai_call_params (model_id : pyval) (messages : list Message)
  (temperature api_parameters system_prompt : pyval) : result pydict :=
  let llm_messages :=
    (system_message system_prompt ++ map message_dict messages)%list in
  let call_params := [("model", model_id); ("messages", PList llm_messages)] in
  match api_parameters with
  | PDict ap =>
      Ok (forward_parameters ["exclude_temperature"] ap
            (with_temperature ap temperature call_params))
  | _ => Raise AttributeError
  end.

Definition not_system (m : Message) : bool :=
  negb (String.eqb (role m) "system").

(** The keyword arguments that [AnthropicClient.generate_response]
    passes to the SDK. *)
Definition anthropic_call_params (model_id : pyval) (messages : list Message)
  (temperature api_parameters system_prompt : pyval) : result pydict :=
  let anthropic_messages := map message_dict (List.filter not_system messages) in
  let call_params :=
    [("model", model_id); ("messages", PList anthropic_messages)] in
  match api_parameters with
  | PDict ap =>
      let call_params := with_temperature ap temperature call_params in
      let call_params :=
        if truthy system_prompt
        then dict_set "system" system_prompt call_params
        else call_params in
      let call_params :=
        forward_parameters ["exclude_temperature"] ap call_params in
      Ok (if dict_has "max_tokens" call_params then call_params
          else dict_set "max_tokens" (PNum 4096) call_params)
  | _ => Raise AttributeError
  end.

(** The message that [PerplexityClient.generate_response] sends for a
    message of the conversation: the content of a list is replaced by
    the texts of its text parts. *)
Definition perplexity_message (m : Message) : result pyval :=
  content ←
    match content m with
    | CParts parts =>
        text_parts ← result_map (fun part => py_item "text" (PDict part))
                       (List.filter (part_is "text") parts);
        texts ← join_values text_parts;
        Ok (PStr (Text.join " " texts))
    | CStr s => Ok (PStr s)
    end;
  Ok (PDict [("role", PStr (role m)); ("content", content)]).

(** The parameters of the model configuration that the Perplexity
    payload takes over. *)
Definition perplexity_parameters : list string :=
  ["max_tokens"; "top_p"; "presence_penalty"; "stream";
   "search_domain_filter"; "search_recency_filter"].

(** [if k in api_parameters: payload[k] = api_parameters[k]] *)
Definition copy_parameter (api_parameters payload : pydict) (k : string)
  : pydict :=
  match dict_get k api_parameters with
  | Some v => dict_set k v payload
  | None => payload
  end.

(** The JSON payload of [PerplexityClient.generate_response]. *)
Definition perplexity_payload (model_id : pyval) (messages : list Message)
  (temperature api_parameters system_prompt : pyval) : result pydict :=
  converted ← result_map perplexity_message messages;
  let llm_messages := (system_message system_prompt ++ converted)%list in
  let payload := [("model", model_id); ("messages", PList llm_messages)] in
  match api_parameters with
  | PDict ap =>
      Ok (fold_left (copy_parameter ap) perplexity_parameters
            (with_temperature ap temperature payload))
  | _ => Raise AttributeError
  end.

(** The parameters of a model configuration, for the examples. *)
Definition sample_api_parameters : pydict :=
  [("exclude_temperature", PBool true); ("max_tokens", PNum 512);
   ("model", PStr "pinned-model"); ("reasoning_effort", PStr "high")].

(** The tokenizer returns a length. *)
Definition counts_tokens (env : Env) : Prop :=
  forall encode text n,
    tiktoken_encoding env = Some encode -> encode text = Ok n -> (0 <= n)%Z.

(** A deployment with a tokenizer that counts words and a threshold of 3
    tokens. *)
Definition word_count_env : Env :=
  mkEnv (clock sample_env) (uuid4 sample_env) (md5_hexdigest sample_env)
    (mkSettings "router-classifier" "fast-chat" "fast-search" "deep-chat"
       "deep-search" "top-chat" "spare-chat" 3 "INFO" [])
    (fun _ => None) (fun _ => true) "gemini_image"
    (Some (fun text => Ok (Z.of_nat (length (Text.split text)))))
    (fun _ => Raise JSONDecodeError)
    (fun _ _ _ _ _ _ => Ok (chat_reply "done" zero_usage)).

(** The text of a converted Perplexity reply, said directly: the [text]
    fields of the items of type [text], in order, of the [content] lists
    of the output items of type [message]. *)
Definition concat_texts (l : list string) : string :=
  fold_right String.append EmptyString l.

Definition content_item_text (content_item : pyval) : string :=
  match content_item with
  | PDict d =>
      if part_is "text" d
      then match dict_get "text" d with
           | Some (PStr t) => t
           | _ => EmptyString
           end
      else EmptyString
  | _ => EmptyString
  end.

Definition output_item_text (item : pyval) : string :=
  match item with
  | PDict d =>
      if part_is "message" d
      then match dict_get "content" d with
           | Some (PList content_items) =>
               concat_texts (map content_item_text content_items)
           | _ => EmptyString
           end
      else EmptyString
  | _ => EmptyString
  end.

Definition output_text (output : pyval) : string :=
  match output with
  | PList items => concat_texts (map output_item_text items)
  | _ => EmptyString
  end.

(** The explicit topic phrases of [extract_research_topic], in the order
    of its [if]/[elif] chain, and the first of them that occurs in the
    lower-cased prompt. *)
Definition topic_phrases : list string :=
  ["research about"; "find information about"; "what's the latest on"].

Definition first_topic_phrase (prompt_lower : string) : option string :=
  List.find (fun phrase => Text.contains phrase prompt_lower) topic_phrases.

(** * Properties *)

(** ** Stickiness of a single state object *)

Ltac zbool :=
  repeat match goal with
         | H : (_ <? _)%Z = true |- _ => apply Z.ltb_lt in H
         | H : (_ <? _)%Z = false |- _ => apply Z.ltb_ge in H
         | H : (_ =? _)%Z = true |- _ => apply Z.eqb_eq in H
         | H : (_ =? _)%Z = false |- _ => apply Z.eqb_neq in H
         end.

Ltac split_ifs :=
  repeat match goal with
         | |- context [if ?b then _ else _] => destruct b eqn:?
         end.

Lemma new_state_sticky cid kws now : sticky_inv (new_state cid kws now).
Proof. unfold sticky_inv; simpl; repeat split; auto; lia. Qed.

Lemma routing_update_sticky now selected tier hv hh s :
  sticky_inv s ->
  sticky_inv (routing_update now selected tier hv hh s).
Proof.
  unfold sticky_inv, routing_update, tier_update, heavy_context_update,
    vision_update.
  intros (Hv & Hh & Hvf & Hhf).
  destruct hv, hh; simpl; split_ifs; simpl in *; zbool;
    repeat split; intros; try lia; auto.
Qed.

Lemma new_state_window cid kws now : window_inv (new_state cid kws now).
Proof. unfold window_inv; simpl; repeat split; intros; lia. Qed.

Lemma routing_update_window now selected tier hv hh s :
  window_inv s ->
  window_inv (routing_update now selected tier hv hh s).
Proof.
  unfold window_inv, routing_update, tier_update, heavy_context_update,
    vision_update.
  intros (Hv & Hh & Hvf & Hhf).
  destruct hv, hh; simpl; split_ifs; simpl in *; zbool;
    repeat split; intros; try lia; auto.
Qed.

Lemma reset_sticky_window s : window_inv s -> window_inv (reset_sticky s).
Proof.
  unfold window_inv, reset_sticky; simpl.
  intros _; repeat split; intros; lia.
Qed.

Lemma set_last_activity_window now s :
  window_inv s -> window_inv (set_last_activity now s).
Proof. unfold window_inv; simpl; auto. Qed.

Lemma set_topic_keywords_window kws s :
  window_inv s -> window_inv (set_topic_keywords kws s).
Proof. unfold window_inv; simpl; auto. Qed.

(** ** Stepping through the monad *)

Lemma result_bind_ok {A B : Type} (a : A) (k : A -> result B) :
  Ok a ≫= k = k a.
Proof. reflexivity. Qed.

Lemma result_bind_raise {A B : Type} (e : exn) (k : A -> result B) :
  Raise e ≫= k = Raise e.
Proof. reflexivity. Qed.

Lemma bind_ok {A B : Type} (m : M A) (k : A -> M B) w a w1 :
  m w = (Ok a, w1) -> (m ≫= k) w = k a w1.
Proof. intros H. unfold mbind, M_bind. rewrite H. reflexivity. Qed.

Lemma bind_raise {A B : Type} (m : M A) (k : A -> M B) w e w1 :
  m w = (Raise e, w1) -> (m ≫= k) w = (Raise e, w1).
Proof. intros H. unfold mbind, M_bind. rewrite H. reflexivity. Qed.

Lemma lift_bind_ok {A B : Type} (r : result A) (k : A -> M B) w a :
  r = Ok a -> (lift r ≫= k) w = k a w.
Proof. intros ->. reflexivity. Qed.

Lemma lift_bind_raise {A B : Type} (r : result A) (k : A -> M B) w e :
  r = Raise e -> (lift r ≫= k) w = (Raise e, w).
Proof. intros ->. reflexivity. Qed.

(** ** A postcondition logic for heap invariants *)

Section HeapInvariant.

Context (P : ConversationState -> Prop).

Lemma keeps_weaken {A : Type} (m : M A) (Q R : A -> Prop) :
  keeps P m Q -> (forall a, Q a -> R a) -> keeps P m R.
Proof.
  intros Hm HQR w Hw. destruct (Hm w Hw) as [H1 H2]. split; auto.
Qed.

Lemma keeps_ret {A : Type} (a : A) (Q : A -> Prop) :
  Q a -> keeps P (mret a) Q.
Proof.
  intros HQ w Hw. split; [exact Hw|].
  intros b Hb. simpl in Hb. injection Hb as <-. exact HQ.
Qed.

Lemma keeps_bind {A B : Type} (m : M A) (k : A -> M B)
  (Q : A -> Prop) (R : B -> Prop) :
  keeps P m Q -> (forall a, Q a -> keeps P (k a) R) -> keeps P (m ≫= k) R.
Proof.
  intros Hm Hk w Hw. destruct (Hm w Hw) as [H1 H2].
  unfold mbind, M_bind. destruct (m w) as [[a|e] w1]; simpl in *.
  - apply (Hk a (H2 a eq_refl) w1 H1).
  - split; [exact H1|]. intros b Hb. discriminate.
Qed.

Lemma keeps_lift {A : Type} (r : result A) : keeps P (lift r) (fun a => r = Ok a).
Proof. intros w Hw. split; [exact Hw|]. intros a Ha. exact Ha. Qed.

Lemma keeps_raise {A : Type} (e : exn) (Q : A -> Prop) : keeps P (raise e) Q.
Proof. intros w Hw. split; [exact Hw|]. intros a Ha. discriminate. Qed.

Lemma keeps_get_mgr : keeps P get_mgr (fun _ => True).
Proof. intros w Hw. split; [exact Hw|]. auto. Qed.

Lemma keeps_put_mgr m : keeps P (put_mgr m) (fun _ => True).
Proof. intros w Hw. split; [exact Hw|]. auto. Qed.

Lemma keeps_get_heap : keeps P get_heap (fun _ => True).
Proof. intros w Hw. split; [exact Hw|]. auto. Qed.

Lemma keeps_time env : keeps P (time_time env) (fun _ => True).
Proof. intros w Hw. split; [exact Hw|]. auto. Qed.

Lemma keeps_deref r : keeps P (deref r) P.
Proof.
  intros w Hw. unfold deref.
  destruct (heap w !! r) as [s|] eqn:E; simpl.
  - split; [exact Hw|]. intros a Ha. injection Ha as <-.
    rewrite Forall_forall in Hw. apply Hw.
    eapply list_elem_of_lookup_2. exact E.
  - split; [exact Hw|]. intros a Ha. discriminate.
Qed.

Lemma keeps_assign r s : P s -> keeps P (assign r s) (fun _ => True).
Proof.
  intros Hs w Hw. split; [|auto]. simpl.
  rewrite Forall_forall. intros x Hx.
  apply list_elem_of_lookup_1 in Hx as [i Hi].
  destruct (decide (i = r)) as [->|Hne].
  - destruct (decide (r < length (heap w))%nat) as [Hlt|Hge].
    + rewrite list_lookup_insert_eq in Hi by exact Hlt. congruence.
    + apply lookup_lt_Some in Hi. rewrite length_insert in Hi. lia.
  - rewrite list_lookup_insert_ne in Hi by congruence.
    rewrite Forall_forall in Hw. apply Hw.
    eapply list_elem_of_lookup_2. exact Hi.
Qed.

Lemma keeps_alloc s : P s -> keeps P (alloc s) (fun _ => True).
Proof.
  intros Hs w Hw. split; [|auto]. simpl.
  apply Forall_app. split; [exact Hw|]. constructor; [exact Hs|constructor].
Qed.

End HeapInvariant.

(** ** The store keeps its heap invariants *)

(** The extraction keeps at most 10 keywords. *)
Lemma extract_topic_keywords_length msgs kws :
  extract_topic_keywords msgs = Ok kws -> (length kws <= 10)%nat.
Proof.
  unfold extract_topic_keywords. destruct msgs as [|m0 msgs'].
  - intros H. injection H as <-. simpl. lia.
  - destruct (result_map _ _) as [texts|e]; simpl; [|discriminate].
    intros H. injection H as <-. rewrite length_take. lia.
Qed.


Lemma cleanup_keeps P env :
  keeps P (cleanup_old_conversations env) (fun _ => True).
Proof.
  unfold cleanup_old_conversations.
  eapply keeps_bind; [apply keeps_time|]. intros t _.
  eapply keeps_bind; [apply keeps_get_mgr|]. intros m _.
  destruct (_ <? _)%Z; [apply keeps_ret; exact I|].
  eapply keeps_bind; [apply keeps_time|]. intros current_time _.
  eapply keeps_bind; [apply keeps_get_heap|]. intros h _.
  eapply keeps_bind; [apply keeps_lift|]. intros entries _.
  eapply keeps_bind; [apply keeps_lift|]. intros entries1 _.
  apply keeps_put_mgr.
Qed.

Lemma get_or_create_state_keeps P env msgs :
  (forall cid kws now,
      extract_topic_keywords msgs = Ok kws -> P (new_state cid kws now)) ->
  (forall now s, P s -> P (set_last_activity now s)) ->
  (forall s, P s -> P (reset_sticky s)) ->
  (forall kws s,
      extract_topic_keywords msgs = Ok kws -> P s ->
      P (set_topic_keywords kws s)) ->
  keeps P (get_or_create_state env msgs) (fun _ => True).
Proof.
  intros Hnew Hact Hreset Hkw. unfold get_or_create_state.
  eapply keeps_bind; [apply cleanup_keeps|]. intros _ _.
  eapply keeps_bind; [apply keeps_lift|]. intros cid _.
  eapply keeps_bind; [apply keeps_get_mgr|]. intros m _.
  eapply keeps_bind with (Q := fun _ => True).
  - destruct (states_get cid (states m)) as [r|].
    + eapply keeps_bind; [apply keeps_deref|]. intros st Hst.
      eapply keeps_bind; [apply keeps_time|]. intros now _.
      eapply keeps_bind; [apply keeps_assign; auto|]. intros _ _.
      eapply keeps_bind; [apply keeps_lift|]. intros changed _.
      eapply keeps_bind with (Q := fun _ => True).
      * destruct changed; [apply keeps_assign; auto|apply keeps_ret; exact I].
      * intros _ _. apply keeps_ret. exact I.
    + eapply keeps_bind; [apply keeps_lift|]. intros kws Hkws.
      eapply keeps_bind; [apply keeps_time|]. intros now _.
      eapply keeps_bind; [apply keeps_alloc; auto|]. intros r _.
      eapply keeps_bind; [apply keeps_put_mgr|]. intros _ _.
      apply keeps_ret. exact I.
  - intros r _.
    eapply keeps_bind; [apply keeps_lift|]. intros kws Hkws.
    eapply keeps_bind; [apply keeps_deref|]. intros st Hst.
    eapply keeps_bind; [apply keeps_assign; auto|]. intros _ _.
    apply keeps_ret. exact I.
Qed.

Lemma update_state_after_routing_keeps P env r selected tier hv hh :
  (forall now s, P s -> P (routing_update now selected tier hv hh s)) ->
  keeps P (update_state_after_routing env r selected tier hv hh)
    (fun _ => True).
Proof.
  intros Hupd. unfold update_state_after_routing.
  eapply keeps_bind; [apply keeps_deref|]. intros st Hst.
  eapply keeps_bind; [apply keeps_time|]. intros now _.
  apply keeps_assign. auto.
Qed.

Lemma run_op_window env op w :
  Forall window_inv (heap w) -> Forall window_inv (heap (run_op env op w)).
Proof.
  intros Hw. destruct op as [msgs|r c]; simpl.
  - refine (proj1 (get_or_create_state_keeps window_inv env msgs
                     _ set_last_activity_window reset_sticky_window _ w Hw)).
    + intros cid kws now _. apply new_state_window.
    + intros kws s _. apply set_topic_keywords_window.
  - refine (proj1 (update_state_after_routing_keeps window_inv env r _ _ _ _
                     _ w Hw)).
    intros now s. apply routing_update_window.
Qed.

Lemma run_ops_window env ops w :
  Forall window_inv (heap w) -> Forall window_inv (heap (run_ops env ops w)).
Proof.
  revert w. induction ops as [|op ops IH]; intros w Hw; simpl.
  - exact Hw.
  - apply IH. apply run_op_window. exact Hw.
Qed.

Lemma run_update_sticky env r call w :
  Forall sticky_inv (heap w) ->
  Forall sticky_inv (heap (run_op env (OpUpdate r call) w)).
Proof.
  intros Hw. simpl.
  refine (proj1 (update_state_after_routing_keeps sticky_inv env r _ _ _ _
                   _ w Hw)).
  intros now s. apply routing_update_sticky.
Qed.

(** What one call of [update_state_after_routing] does to a live object. *)
Lemma update_state_after_routing_at env r selected tier hv hh w s :
  heap w !! r = Some s ->
  update_state_after_routing env r selected tier hv hh w
  = (Ok tt,
     mkWorld (S (ticks w))
       (<[r := routing_update (clock env (ticks w)) selected tier hv hh s]>
          (heap w))
       (mgr w) (trace w)).
Proof.
  intros H. unfold update_state_after_routing, mbind, M_bind, deref.
  rewrite H. reflexivity.
Qed.

Lemma run_updates_sticky env r calls :
  forall w s,
    heap w !! r = Some s -> sticky_inv s ->
    exists s',
      fst (run_updates env r calls w) = Ok tt
      /\ heap (snd (run_updates env r calls w)) !! r = Some s'
      /\ sticky_inv s'.
Proof.
  induction calls as [|c calls IH]; intros w s Hs Hinv; simpl.
  - exists s. auto.
  - erewrite bind_ok
      by (apply update_state_after_routing_at; exact Hs).
    eapply IH.
    + simpl. apply list_lookup_insert_eq. eapply lookup_lt_Some. exact Hs.
    + apply routing_update_sticky. exact Hinv.
Qed.

Lemma routing_update_keywords now selected tier hv hh s :
  topic_keywords (routing_update now selected tier hv hh s) = topic_keywords s.
Proof.
  unfold routing_update, tier_update, heavy_context_update, vision_update.
  destruct hv, hh; simpl; split_ifs; reflexivity.
Qed.

(** Every state object of the store holds at most 10 keywords. *)
Lemma store_keywords_capped env ops max_conv retention started :
  Forall keywords_capped
    (heap (run_ops env ops (initial_world max_conv retention started))).
Proof.
  assert (Hop : forall op w, Forall keywords_capped (heap w) ->
                             Forall keywords_capped (heap (run_op env op w))).
  { intros op w Hw. destruct op as [msgs|r c]; simpl.
    - refine (proj1 (get_or_create_state_keeps keywords_capped env msgs
                       _ _ _ _ w Hw)).
      + intros cid kws now Hk. unfold keywords_capped. simpl.
        eapply extract_topic_keywords_length. exact Hk.
      + intros now s Hs. exact Hs.
      + intros s Hs. exact Hs.
      + intros kws s Hk _. unfold keywords_capped. simpl.
        eapply extract_topic_keywords_length. exact Hk.
    - refine (proj1 (update_state_after_routing_keeps keywords_capped env r
                       _ _ _ _ _ w Hw)).
      intros now s Hs. unfold keywords_capped.
      rewrite routing_update_keywords. exact Hs. }
  assert (Hops : forall w, Forall keywords_capped (heap w) ->
                           Forall keywords_capped (heap (run_ops env ops w))).
  { induction ops as [|op ops IH]; intros w Hw; simpl; auto. }
  apply Hops. simpl. constructor.
Qed.

(** ** Claims about the conversation state store *)

(** C2 (as amended).  Every state object reachable by any sequence of
    store operations ([get_or_create_state], with its topic-drift reset,
    and [update_state_after_routing]) has [vision_sticky_count] within
    0..3 and [heavy_context_sticky_count] within 0..2, so neither is
    ever negative, and a positive counter has its paired flag set;
    [update_state_after_routing] moreover keeps every flag false at
    counter 0 once that holds. *)
Theorem store_keeps_sticky_windows env ops max_conv retention started :
  Forall window_inv
    (heap (run_ops env ops (initial_world max_conv retention started)))
  /\ (forall w r call,
        Forall sticky_inv (heap w) ->
        Forall sticky_inv (heap (run_op env (OpUpdate r call) w))).
Proof.
  split.
  - apply run_ops_window. simpl. constructor.
  - intros w r call. apply run_update_sticky.
Qed.

Lemma store_keeps_sticky_windows_witness :
  Forall window_inv
    (heap (run_ops sample_env
             [OpGetOrCreate topic_switch;
              OpUpdate 0 (mkCall "deep-chat" "hard" true true);
              OpGetOrCreate topic_switch]
             sample_world))
  /\ Forall sticky_inv
       (heap (run_op sample_env
                (OpUpdate 0 (mkCall "deep-chat" "hard" true false))
                (run_op sample_env (OpGetOrCreate topic_switch) sample_world))).
Proof.
  destruct (store_keeps_sticky_windows sample_env
              [OpGetOrCreate topic_switch;
               OpUpdate 0 (mkCall "deep-chat" "hard" true true);
               OpGetOrCreate topic_switch] 1000 86400 1000) as [Hwin Hupd].
  split.
  - exact Hwin.
  - apply Hupd.
    match goal with
    | |- Forall _ ?h => let h' := eval vm_compute in h in change h with h'
    end.
    constructor; [|constructor].
    unfold sticky_inv; simpl. repeat split; intros; (lia || reflexivity).
Defined.

(** C2, counterexample.  After a vision and heavy-context routing update
    followed by a drift-resetting [get_or_create_state], the object has
    both counters at 0 and both flags still true. *)
Lemma drift_reset_leaves_flags_set :
  exists s,
    heap (run_ops sample_env
            [OpGetOrCreate topic_switch;
             OpUpdate 0 (mkCall "deep-chat" "hard" true true);
             OpGetOrCreate topic_switch]
            sample_world) !! 0%nat = Some s
    /\ vision_sticky_count s = 0%Z /\ has_vision_content s = true
    /\ heavy_context_sticky_count s = 0%Z /\ heavy_context_active s = true
    /\ ~ sticky_inv s.
Proof.
  eexists. split; [vm_compute; reflexivity|].
  simpl. repeat split.
  intros (_ & _ & Hv & _). simpl in Hv. specialize (Hv eq_refl). discriminate.
Qed.

(** C3.  Starting from a freshly created state object, after any finite
    sequence of [update_state_after_routing] calls with arbitrary
    arguments every call has returned, both sticky counters are
    non-negative and each flag is false whenever its counter is 0. *)
Theorem updates_keep_sticky_invariant env cid kws created n m tr calls :
  let w := mkWorld n [new_state cid kws created] m tr in
  exists s,
    fst (run_updates env 0 calls w) = Ok tt
    /\ heap (snd (run_updates env 0 calls w)) !! 0%nat = Some s
    /\ (0 <= vision_sticky_count s)%Z
    /\ (0 <= heavy_context_sticky_count s)%Z
    /\ (vision_sticky_count s = 0%Z -> has_vision_content s = false)
    /\ (heavy_context_sticky_count s = 0%Z -> heavy_context_active s = false).
Proof.
  intros w.
  destruct (run_updates_sticky env 0 calls w (new_state cid kws created))
    as (s & Hok & Hs & Hinv).
  - reflexivity.
  - apply new_state_sticky.
  - exists s. split; [exact Hok|]. split; [exact Hs|]. exact Hinv.
Qed.

(** C10, at the failing input.  The fingerprint of an empty message list
    is ["empty_conversation"] whatever the environment, and the first
    [get_or_create_state([])] creates the state under that key; the
    second one finds it and raises [IndexError] from
    [_detect_topic_change]. *)
Theorem second_empty_call_raises :
  (forall env, generate_conversation_id env [] = Ok "empty_conversation")
  /\ fst (get_or_create_state sample_env [] sample_world) = Ok 0%nat
  /\ states (mgr (snd (get_or_create_state sample_env [] sample_world)))
     = [("empty_conversation", 0%nat)]
  /\ fst (get_or_create_state sample_env []
            (snd (get_or_create_state sample_env [] sample_world)))
     = Raise IndexError.
Proof.
  split; [reflexivity|]. vm_compute. auto.
Qed.

(** ** Topic drift *)

(** The binary64 quotient compared with the literal 0.3 agrees with the
    exact comparison on every pair of cardinalities that two keyword
    lists of at most 10 words can produce. *)
Lemma overlap_ratio_table :
  forallb
    (fun o =>
       forallb
         (fun t => Bool.eqb (overlap_ratio_below o (S t))
                            (ratio_below_30_percent o (S t)))
         (seq 0 20))
    (seq 0 11)
  = true.
Proof. vm_compute. reflexivity. Qed.

Lemma overlap_ratio_exact o t :
  (o <= 10)%nat -> (1 <= t <= 20)%nat ->
  overlap_ratio_below o t = ratio_below_30_percent o t.
Proof.
  intros Ho Ht.
  pose proof overlap_ratio_table as H.
  rewrite List.forallb_forall in H.
  specialize (H o). rewrite List.in_seq in H.
  specialize (H ltac:(lia)).
  rewrite List.forallb_forall in H.
  destruct t as [|t]; [lia|].
  specialize (H t). rewrite List.in_seq in H.
  specialize (H ltac:(lia)).
  apply Bool.eqb_prop in H. exact H.
Qed.

Lemma length_remove_dups (l : list string) :
  (length (remove_dups l) <= length l)%nat.
Proof.
  induction l as [|x l IH]; simpl; [lia|].
  destruct (decide_rel elem_of x l); simpl; lia.
Qed.

Lemma length_list_filter {A : Type} (f : A -> bool) (l : list A) :
  (length (List.filter f l) <= length l)%nat.
Proof.
  induction l as [|x l IH]; simpl; [lia|].
  destruct (f x); simpl; lia.
Qed.

Lemma overlap_count_le a b : (overlap_count a b <= length a)%nat.
Proof.
  unfold overlap_count.
  etransitivity; [apply length_list_filter|apply length_remove_dups].
Qed.

Lemma union_count_le a b : (union_count a b <= length a + length b)%nat.
Proof.
  unfold union_count.
  etransitivity; [apply length_remove_dups|].
  rewrite List.length_app. lia.
Qed.

Lemma union_count_pos a b : a <> [] -> (1 <= union_count a b)%nat.
Proof.
  unfold union_count. destruct a as [|x a]; [congruence|]. intros _.
  assert (H : x ∈ remove_dups ((x :: a) ++ b)).
  { apply elem_of_remove_dups. simpl. apply list_elem_of_here. }
  destruct (remove_dups ((x :: a) ++ b)); simpl; [|lia].
  inversion H.
Qed.

(** On keyword lists of at most 10 words the test of the code is the
    exact one. *)
Lemma detect_keyword_test current stored :
  (length current <= 10)%nat -> (length stored <= 10)%nat ->
  match stored, current with
  | _ :: _, _ :: _ =>
      if (0 <? union_count current stored)%nat
      then overlap_ratio_below (overlap_count current stored)
                               (union_count current stored)
      else false
  | _, _ => false
  end = keyword_drift current stored.
Proof.
  intros Hc Hs. unfold keyword_drift.
  destruct stored as [|s0 stored']; destruct current as [|c0 current'];
    try reflexivity.
  pose proof (union_count_pos (c0 :: current') (s0 :: stored')
                ltac:(congruence)) as Hpos.
  pose proof (union_count_le (c0 :: current') (s0 :: stored')) as Hle.
  pose proof (overlap_count_le (c0 :: current') (s0 :: stored')) as Hov.
  destruct (Nat.ltb_spec 0 (union_count (c0 :: current') (s0 :: stored')));
    [|lia].
  apply overlap_ratio_exact; lia.
Qed.

(** C8 (as amended).  When the last message's text and the keywords can
    be read, [_detect_topic_change] declares drift if and only if the
    lower-cased text of the last message contains one of the fixed
    topic-change markers, or the freshly extracted keywords (at most 10
    tokens, lower-cased, punctuation-stripped, longer than 3 characters
    and not stop words, taken from the user-role messages among the
    last 3 messages) and the stored keywords are both non-empty with an
    overlap-to-union ratio strictly below 0.3.  A ratio of 0.1 declares
    drift, a ratio of 0.5 does not, and an empty keyword list on either
    side declares none. *)
Theorem topic_drift_iff msgs st m text current :
  last msgs = Some m ->
  get_text_from_content (content m) = Ok text ->
  extract_topic_keywords msgs = Ok current ->
  (length (topic_keywords st) <= 10)%nat ->
  let marker :=
    Text.contains_any topic_change_indicators (Text.lower text) in
  let stored := topic_keywords st in
  detect_topic_change msgs st = Ok (marker || keyword_drift current stored)
  /\ (detect_topic_change msgs st = Ok true <->
      marker = true
      \/ (current <> [] /\ stored <> []
          /\ (10 * overlap_count current stored
              < 3 * union_count current stored)%nat))
  /\ (length current <= 10)%nat
  /\ overlap_ratio_below 1 10 = true
  /\ overlap_ratio_below 5 10 = false
  /\ keyword_drift [] stored = false
  /\ keyword_drift current [] = false.
Proof.
  intros Hlast Htext Hext Hstored marker stored.
  pose proof (extract_topic_keywords_length msgs current Hext) as Hcur.
  assert (Hdet : detect_topic_change msgs st
                 = Ok (marker || keyword_drift current stored)).
  { unfold detect_topic_change.
    rewrite Hlast, Htext, result_bind_ok.
    fold marker. destruct marker; [reflexivity|].
    rewrite Hext, result_bind_ok.
    rewrite <- (detect_keyword_test current stored Hcur Hstored).
    fold stored. destruct stored, current; try reflexivity.
    destruct (0 <? _)%nat; reflexivity. }
  split; [exact Hdet|].
  split.
  - rewrite Hdet. split.
    + intros H. injection H as H. apply orb_true_iff in H as [H|H]; [auto|].
      right. unfold keyword_drift, ratio_below_30_percent in H.
      destruct current, stored; try discriminate.
      apply Z.ltb_lt in H. repeat split; try congruence. lia.
    + intros [H|(Hc & Hs & Hlt)]; [rewrite H; reflexivity|].
      f_equal. apply orb_true_iff. right.
      unfold keyword_drift, ratio_below_30_percent.
      destruct current, stored; try congruence.
      apply Z.ltb_lt. lia.
  - split; [exact Hcur|].
    split; [vm_compute; reflexivity|].
    split; [vm_compute; reflexivity|].
    split; [reflexivity|]. destruct current; reflexivity.
Qed.

Lemma topic_drift_iff_witness :
  detect_topic_change long_history kubernetes_state = Ok true
  /\ extract_topic_keywords long_history = Ok ["nodes"].
Proof.
  pose proof (topic_drift_iff long_history kubernetes_state
                (assistant_says "done") "done" ["nodes"]
                eq_refl eq_refl eq_refl ltac:(simpl; lia)) as H.
  destruct H as [Hdet _].
  split; [exact Hdet|reflexivity].
Defined.

(** C8, counterexample.  With the keywords taken from the last 3 user
    turns, as the claim words it, the stored keywords of this
    conversation overlap the fresh ones by 3 of 5 and no drift would be
    declared; the code reads only the user turn among the last 3
    messages, finds no overlap, and declares drift. *)
Lemma last_three_user_turns_differ :
  spec_extract_topic_keywords long_history
  = Ok ["kubernetes"; "cluster"; "deployment"; "pods"; "nodes"]
  /\ extract_topic_keywords long_history = Ok ["nodes"]
  /\ spec_topic_drift long_history kubernetes_state = Ok false
  /\ detect_topic_change long_history kubernetes_state = Ok true.
Proof. vm_compute. auto. Qed.

(** ** Usage of the normalized reply *)

Ltac munfold := unfold mbind, M_bind, mret, M_ret, lift, raise in *.

Lemma standard_completion_usage env resp name w c w' :
  standard_completion env resp name w = (Ok (Canonical c), w') ->
  exists content, standard_content_usage resp = Ok (content, cc_usage c).
Proof.
  unfold standard_completion. munfold.
  destruct (standard_content_usage resp) as [[content usage]|e];
    [|discriminate].
  destruct (debug_prefix env name content) as [content'|e]; [|discriminate].
  simpl. intros H. injection H as <- _. simpl. eauto.
Qed.

Lemma format_usage_cases env resp name w c w' :
  format_openai_response env resp name w = (Ok (Canonical c), w') ->
  (exists d, resp = RDict d /\ is_image_batch d = true
             /\ cc_usage c = usage_dict (PNum 0) (PNum 10) (PNum 10))
  \/ ((forall d, resp = RDict d -> is_image_batch d = false)
      /\ exists content, standard_content_usage resp = Ok (content, cc_usage c)).
Proof.
  unfold format_openai_response. destruct resp as [ch u|d].
  - intros H. right. split; [intros d Hd; discriminate|].
    eapply standard_completion_usage. exact H.
  - destruct (is_image_batch d) eqn:Eimg.
    + munfold. destruct (py_sized _); [|discriminate]. simpl.
      intros H. injection H as <- _. left. exists d. auto.
    + destruct (dict_has "error" d).
      * munfold. discriminate.
      * intros H. right. split.
        -- intros d' Hd'. injection Hd' as <-. exact Eimg.
        -- eapply standard_completion_usage. exact H.
Qed.

Lemma dict_get_default_absent k dflt d :
  dict_has k d = false -> dict_get_default k dflt d = dflt.
Proof.
  unfold dict_has, dict_get_default. destruct (dict_get k d); congruence.
Qed.

(** C9 (as amended).  For every backend reply that normalization maps
    into the canonical shape: an image batch gets the fixed usage
    (0, 10, 10); an ollama-message-like dict gets its two counts
    (0 when absent) and their sum as the total; a chat-completion-like
    reply gets the usage its backend reported, copied as it is (for an
    SDK object, field by field with 0 for an absent one); and, outside
    the image-batch shape, all three counts are zero when the reply
    reports no usage.  So the total is the sum of the two counts for the
    image-batch and the ollama-message-like shapes. *)
Theorem normalized_usage env resp name w c w' :
  format_openai_response env resp name w = (Ok (Canonical c), w') ->
  match resp with
  | RDict d =>
      if is_image_batch d
      then cc_usage c = usage_dict (PNum 0) (PNum 10) (PNum 10)
      else if dict_has "choices" d
      then cc_usage c = dict_get_default "usage" zero_usage d
      else if dict_has "message" d
      then exists total,
          py_add (dict_get_default "prompt_eval_count" (PNum 0) d)
                 (dict_get_default "eval_count" (PNum 0) d) = Ok total
          /\ cc_usage c
             = usage_dict (dict_get_default "prompt_eval_count" (PNum 0) d)
                          (dict_get_default "eval_count" (PNum 0) d) total
      else cc_usage c = zero_usage
  | RObject (Some (_ :: _)) (Some uo) =>
      cc_usage c = usage_dict (usage_attr uo u_prompt_tokens)
                              (usage_attr uo u_completion_tokens)
                              (usage_attr uo u_total_tokens)
  | RObject _ _ => cc_usage c = zero_usage
  end
  /\ ((forall d, resp = RDict d ->
                 is_image_batch d = true \/ dict_has "choices" d = false) ->
      (forall ch u, resp <> RObject ch u) ->
      usage_total_is_sum (cc_usage c))
  /\ ((forall d, resp = RDict d -> is_image_batch d = false) ->
      reports_no_usage resp = true -> cc_usage c = zero_usage).
Proof.
  intros H.
  assert (Hshape :
    match resp with
    | RDict d =>
        if is_image_batch d
        then cc_usage c = usage_dict (PNum 0) (PNum 10) (PNum 10)
        else if dict_has "choices" d
        then cc_usage c = dict_get_default "usage" zero_usage d
        else if dict_has "message" d
        then exists total,
            py_add (dict_get_default "prompt_eval_count" (PNum 0) d)
                   (dict_get_default "eval_count" (PNum 0) d) = Ok total
            /\ cc_usage c
               = usage_dict (dict_get_default "prompt_eval_count" (PNum 0) d)
                            (dict_get_default "eval_count" (PNum 0) d) total
        else cc_usage c = zero_usage
    | RObject (Some (_ :: _)) (Some uo) =>
        cc_usage c = usage_dict (usage_attr uo u_prompt_tokens)
                                (usage_attr uo u_completion_tokens)
                                (usage_attr uo u_total_tokens)
    | RObject _ _ => cc_usage c = zero_usage
    end).
  { destruct (format_usage_cases env resp name w c w' H)
      as [(d & -> & Eimg & Hu)|[Hnot (content & Hstd)]].
    - rewrite Eimg. exact Hu.
    - destruct resp as [ch u|d]; unfold standard_content_usage in Hstd.
      + destruct ch as [[|c0 ch']|]; try (injection Hstd as _ <-; reflexivity).
        destruct u as [uo|]; injection Hstd as _ <-; reflexivity.
      + rewrite (Hnot d eq_refl).
        destruct (dict_has "choices" d).
        * destruct (py_item "choices" (PDict d)) as [v1|]; [|discriminate].
          rewrite result_bind_ok in Hstd.
          destruct (py_first v1) as [v2|]; [|discriminate].
          rewrite result_bind_ok in Hstd.
          destruct (py_item "message" v2) as [v3|]; [|discriminate].
          rewrite result_bind_ok in Hstd.
          destruct (py_item "content" v3) as [v4|]; [|discriminate].
          rewrite result_bind_ok in Hstd.
          injection Hstd as _ <-. reflexivity.
        * destruct (dict_has "message" d).
          -- destruct (py_item "message" (PDict d)) as [v1|]; [|discriminate].
             rewrite result_bind_ok in Hstd.
             destruct (py_item "content" v1) as [v2|]; [|discriminate].
             rewrite result_bind_ok in Hstd.
             destruct (py_add _ _) as [total|] eqn:Eadd; [|discriminate].
             rewrite result_bind_ok in Hstd.
             injection Hstd as _ <-. exists total. auto.
          -- injection Hstd as _ <-. reflexivity. }
  split; [exact Hshape|]. split.
  - intros Hd Hobj. destruct resp as [ch u|d]; [destruct (Hobj ch u eq_refl)|].
    destruct (is_image_batch d) eqn:Eimg.
    + rewrite Hshape. exists (PNum 0), (PNum 10), (PNum 10). auto.
    + destruct (Hd d eq_refl) as [?|Hch]; [congruence|].
      rewrite Hch in Hshape. destruct (dict_has "message" d).
      * destruct Hshape as (total & Hadd & ->).
        eexists _, _, _. split; [reflexivity|exact Hadd].
      * rewrite Hshape. exists (PNum 0), (PNum 0), (PNum 0). auto.
  - intros Hnot Hno. destruct resp as [ch u|d]; simpl in Hno.
    + destruct u as [uo|]; [discriminate|].
      destruct ch as [[|c0 ch']|]; exact Hshape.
    + rewrite (Hnot d eq_refl) in Hshape.
      apply andb_true_iff in Hno as [Hno He].
      apply andb_true_iff in Hno as [Hu Hp].
      apply negb_true_iff in Hu, Hp, He.
      destruct (dict_has "choices" d).
      * rewrite Hshape. apply dict_get_default_absent. exact Hu.
      * destruct (dict_has "message" d); [|exact Hshape].
        destruct Hshape as (total & Hadd & ->).
        rewrite (dict_get_default_absent _ _ _ Hp) in *.
        rewrite (dict_get_default_absent _ _ _ He) in *.
        simpl in Hadd. injection Hadd as <-. reflexivity.
Qed.

Lemma normalized_usage_witness :
  exists c w',
    format_openai_response sample_env
      (RDict [("message", PDict [("content", PStr "hi")]);
              ("prompt_eval_count", PNum 12); ("eval_count", PNum 30)])
      "fast-chat" sample_world = (Ok (Canonical c), w')
    /\ cc_usage c = usage_dict (PNum 12) (PNum 30) (PNum 42)
    /\ usage_total_is_sum (cc_usage c).
Proof.
  eexists. eexists. split; [vm_compute; reflexivity|].
  split; [reflexivity|].
  eapply (normalized_usage sample_env
            (RDict [("message", PDict [("content", PStr "hi")]);
                    ("prompt_eval_count", PNum 12); ("eval_count", PNum 30)])
            "fast-chat" sample_world).
  - vm_compute. reflexivity.
  - intros d Hd. injection Hd as <-. right. reflexivity.
  - intros ch u Hd. discriminate.
Defined.

(** C9, counterexample.  An image-batch reply reports no usage, yet its
    normalized usage is (0, 10, 10) and not all zero; and a
    chat-completion-like reply whose backend reports a total that is not
    the sum of its counts keeps that total. *)
Lemma usage_is_fixed_or_copied :
  (exists c w',
      format_openai_response sample_env (RDict image_batch_reply) "deep-chat"
        sample_world = (Ok (Canonical c), w')
      /\ reports_no_usage (RDict image_batch_reply) = true
      /\ cc_usage c = usage_dict (PNum 0) (PNum 10) (PNum 10)
      /\ cc_usage c <> zero_usage)
  /\ (exists c w',
         format_openai_response sample_env (chat_reply "done" uneven_usage)
           "deep-chat" sample_world = (Ok (Canonical c), w')
         /\ cc_usage c = usage_dict (PNum 5) (PNum 7) (PNum 13)
         /\ ~ usage_total_is_sum (cc_usage c)).
Proof.
  split.
  - eexists. eexists. split; [vm_compute; reflexivity|].
    split; [reflexivity|]. split; [reflexivity|]. simpl. discriminate.
  - eexists. eexists. split; [vm_compute; reflexivity|].
    split; [reflexivity|]. simpl.
    intros (p & c & t & Heq & Hadd).
    unfold uneven_usage, usage_dict in Heq.
    injection Heq as <- <- <-. simpl in Hadd. discriminate.
Qed.

(** ** A trace logic for the router *)

Lemma router_calls_app e1 e2 :
  router_calls (e1 ++ e2) = (router_calls e1 ++ router_calls e2)%list.
Proof.
  induction e1 as [|ev e1 IH]; simpl; [reflexivity|].
  destruct ev as [n|[|] c mid ms t ap sp]; simpl; rewrite IH; reflexivity.
Qed.

Lemma records_weaken {A : Type} (m : M A) (Q R : result A -> list Event -> Prop) :
  records m Q -> (forall r evs, Q r evs -> R r evs) -> records m R.
Proof.
  intros Hm HQR w. destruct (Hm w) as (Hh & Hg & evs & Ht & HQ).
  split; [exact Hh|]. split; [exact Hg|]. exists evs. auto.
Qed.

Lemma records_ret {A : Type} (a : A) (Q : result A -> list Event -> Prop) :
  Q (Ok a) [] -> records (mret a) Q.
Proof.
  intros HQ w. simpl. repeat split. exists []. rewrite app_nil_r. auto.
Qed.

Lemma records_lift {A : Type} (r : result A) (Q : result A -> list Event -> Prop) :
  Q r [] -> records (lift r) Q.
Proof.
  intros HQ w. simpl. repeat split. exists []. rewrite app_nil_r. auto.
Qed.

Lemma records_raise {A : Type} (e : exn) (Q : result A -> list Event -> Prop) :
  Q (Raise e) [] -> records (raise e) Q.
Proof.
  intros HQ w. simpl. repeat split. exists []. rewrite app_nil_r. auto.
Qed.

Lemma records_emit (ev : Event) (Q : result unit -> list Event -> Prop) :
  Q (Ok tt) [ev] -> records (emit ev) Q.
Proof. intros HQ w. simpl. repeat split. exists [ev]. auto. Qed.

Lemma records_time env (Q : result Z -> list Event -> Prop) :
  (forall t, Q (Ok t) []) -> records (time_time env) Q.
Proof.
  intros HQ w. simpl. repeat split. exists []. rewrite app_nil_r. auto.
Qed.

Lemma records_uuid env (Q : result string -> list Event -> Prop) :
  (forall u, Q (Ok u) []) -> records (uuid_uuid4 env) Q.
Proof.
  intros HQ w. simpl. repeat split. exists []. rewrite app_nil_r. auto.
Qed.

Lemma records_bind {A B : Type} (m : M A) (k : A -> M B)
  (Q1 : result A -> list Event -> Prop) (Q : result B -> list Event -> Prop) :
  records m Q1 ->
  (forall a e1, Q1 (Ok a) e1 ->
                records (k a) (fun r e2 => Q r (e1 ++ e2)%list)) ->
  (forall e e1, Q1 (Raise e) e1 -> Q (Raise e) e1) ->
  records (m ≫= k) Q.
Proof.
  intros Hm Hk Hraise w.
  destruct (Hm w) as (Hh & Hg & e1 & Ht & HQ1).
  unfold mbind, M_bind. destruct (m w) as [[a|e] w1]; simpl in *.
  - destruct (Hk a e1 HQ1 w1) as (Hh2 & Hg2 & e2 & Ht2 & HQ2).
    split; [congruence|]. split; [congruence|].
    exists (e1 ++ e2)%list. split; [|exact HQ2].
    rewrite Ht2, Ht, app_assoc. reflexivity.
  - split; [exact Hh|]. split; [exact Hg|]. exists e1. auto.
Qed.

Lemma records_try_except {A : Type} (m : M A) (h : exn -> M A)
  (Q1 Q : result A -> list Event -> Prop) :
  records m Q1 ->
  (forall a e1, Q1 (Ok a) e1 -> Q (Ok a) e1) ->
  (forall e e1, Q1 (Raise e) e1 ->
                records (h e) (fun r e2 => Q r (e1 ++ e2)%list)) ->
  records (try_except m h) Q.
Proof.
  intros Hm Hok Hh w.
  destruct (Hm w) as (Hheap & Hg & e1 & Ht & HQ1).
  unfold try_except. destruct (m w) as [[a|e] w1]; simpl in *.
  - split; [exact Hheap|]. split; [exact Hg|]. exists e1. auto.
  - destruct (Hh e e1 HQ1 w1) as (Hh2 & Hg2 & e2 & Ht2 & HQ2).
    split; [congruence|]. split; [congruence|].
    exists (e1 ++ e2)%list. split; [|exact HQ2].
    rewrite Ht2, Ht, app_assoc. reflexivity.
Qed.

Lemma get_llm_records env name :
  records (get_llm_client_and_model_details env name)
    (fun r evs => evs = [EvResolve name] /\ r = lookup_model_details env name).
Proof.
  intros w. simpl. repeat split. exists [EvResolve name]. auto.
Qed.

Lemma call_generate_records env site r msgs temp ap sp :
  records (call_generate env site r msgs temp ap sp)
    (fun _ evs =>
       evs = [EvGenerate site (res_client r) (res_model_id r) msgs temp ap sp]).
Proof.
  intros w. simpl. repeat split. eexists. split; reflexivity.
Qed.

Lemma lift_records {A : Type} (r : result A) :
  records (lift r) (fun r' evs => evs = [] /\ r' = r).
Proof. apply records_lift. auto. Qed.

(** ** The classifier *)

Lemma first_valid_category_in cats category c :
  first_valid_category cats category = Ok c ->
  In c cats \/ c = default_category.
Proof.
  induction cats as [|x cats IH]; simpl.
  - intros H. injection H as <-. auto.
  - destruct (py_in x category) as [[|]|e]; simpl.
    + intros H. injection H as <-. auto.
    + intros H. destruct (IH H); auto.
    + discriminate.
Qed.

Lemma normalize_category_valid env category c :
  normalize_category env category = Ok c -> In c valid_categories.
Proof.
  unfold normalize_category.
  assert (Hdef : In default_category valid_categories) by (simpl; auto).
  assert (Hfirst : forall v, first_valid_category valid_categories v = Ok c ->
                             In c valid_categories).
  { intros v Hv. destruct (first_valid_category_in _ _ _ Hv) as [?| ->]; auto. }
  destruct (Text.startswith "{" _).
  - destruct (json_loads env _) as [data|e].
    + destruct data; try discriminate. apply Hfirst.
    + destruct e; try discriminate. intros H. injection H as <-. exact Hdef.
  - apply Hfirst.
Qed.

(** The outcome of [classify_message]: it makes no router-site call,
    leaves the state store alone, returns only canonical labels, and
    raises only what the text extraction of the last message or the
    registry lookup of the classifier model raise. *)
Lemma classify_message_records env msgs :
  records (classify_message env msgs)
    (fun r evs =>
       no_router_call evs
       /\ match r with
          | Ok c => In c valid_categories
          | Raise e =>
              (exists m, last msgs = Some m
                         /\ get_text_from_content (content m) = Raise e)
              \/ lookup_model_details env (classifier_model (settings env))
                 = Raise e
          end).
Proof.
  assert (Hdef : In default_category valid_categories) by (simpl; auto).
  unfold classify_message. destruct (last msgs) as [m|] eqn:Hlast.
  - eapply records_bind; [apply lift_records| |].
    + intros user_content e1 [-> Htext]. simpl.
      eapply records_bind; [apply get_llm_records| |].
      * intros res e1 [-> Hres]. destruct res as [r|].
        -- eapply records_try_except
             with (Q1 := fun r evs =>
                           no_router_call evs
                           /\ forall c, r = Ok c -> In c valid_categories).
           ++ eapply records_bind; [apply call_generate_records| |].
              ** intros response e1 ->.
                 eapply records_bind; [apply lift_records| |].
                 --- intros category e1 [-> Hcat].
                     apply records_lift. split; [reflexivity|].
                     intros c Hc. eapply normalize_category_valid. exact Hc.
                 --- intros e e1 [-> _]. split; [reflexivity|].
                     intros c Hc. discriminate.
              ** intros e e1 ->. split; [reflexivity|]. intros c Hc.
                 discriminate.
           ++ intros a e1 [Hno Hin]. split; [exact Hno|].
              exact (Hin a eq_refl).
           ++ intros e e1 [Hno _]. apply records_ret.
              split; [|exact Hdef].
              unfold no_router_call in *. rewrite app_nil_r.
              simpl. exact Hno.
        -- apply records_ret. split; [reflexivity|exact Hdef].
      * intros e e1 [-> Hres]. split; [reflexivity|]. right. auto.
    + intros e e1 [-> Htext]. split; [reflexivity|]. left. eauto.
  - apply records_ret. split; [reflexivity|exact Hdef].
Qed.

(** C6, at the failing input.  A last message whose text part carries a
    number makes [classify_message] raise [TypeError] to its caller,
    before the guarded backend call is reached, in every environment;
    and a classifier entry of the models file that is not an object
    makes the registry lookup, also outside the guard, raise
    [AttributeError]. *)
Theorem classify_message_can_raise env w :
  classify_message env [numeric_text_turn] w = (Raise TypeError, w)
  /\ classify_message misconfigured_env [user_says "hello"] w
     = (Raise AttributeError, add_events w [EvResolve "router-classifier"]).
Proof. split; reflexivity. Qed.

(** What remains of the claim: whenever [classify_message] returns it
    returns one of the four canonical labels, and it returns whenever
    the text of the last message can be read and the registry lookup of
    the classifier model does not raise; transport errors, unreadable
    replies and parse failures all give a label. *)
Lemma classify_message_labels env msgs w :
  (forall m, last msgs = Some m ->
             exists text, get_text_from_content (content m) = Ok text) ->
  (exists res, lookup_model_details env (classifier_model (settings env))
               = Ok res) ->
  exists c, fst (classify_message env msgs w) = Ok c
            /\ In c valid_categories.
Proof.
  intros Htext [res Hres].
  destruct (classify_message_records env msgs w) as (_ & _ & evs & _ & _ & H).
  destruct (fst (classify_message env msgs w)) as [c|e].
  - eauto.
  - destruct H as [(m & Hlast & Hraise)|Hraise].
    + destruct (Htext m Hlast) as [text Hok]. congruence.
    + congruence.
Qed.

(** ** The steps of [route_and_process] *)

Lemma select_target_records env msgs text nv nh :
  records (select_target env msgs text nv nh) (fun _ evs => no_router_call evs).
Proof.
  unfold select_target.
  destruct nv; [apply records_ret; reflexivity|].
  destruct nh; [apply records_ret; reflexivity|].
  eapply records_bind; [apply lift_records| |].
  - intros title e1 [-> _]. simpl.
    destruct title; [apply records_ret; reflexivity|].
    destruct (is_escalation_request text); [apply records_ret; reflexivity|].
    destruct (is_research_request text); [apply records_ret; reflexivity|].
    eapply records_bind; [apply classify_message_records| |].
    + intros category e1 [Hno _]. apply records_ret.
      unfold no_router_call in *. rewrite app_nil_r. exact Hno.
    + intros e e1 [Hno _]. exact Hno.
  - intros e e1 [-> _]. reflexivity.
Qed.

Lemma resolve_with_fallback_records env target :
  records (resolve_with_fallback env target) (fun _ evs => no_router_call evs).
Proof.
  unfold resolve_with_fallback.
  eapply records_bind; [apply get_llm_records| |].
  - intros res e1 [-> _]. destruct res as [r|].
    + apply records_ret. reflexivity.
    + eapply records_bind; [apply get_llm_records| |].
      * intros res e1 [-> _]. destruct res as [r|].
        -- apply records_ret. reflexivity.
        -- apply records_raise. reflexivity.
      * intros e e1 [-> _]. reflexivity.
  - intros e e1 [-> _]. reflexivity.
Qed.

Lemma vision_override_records env nv rt :
  records (vision_override env nv rt)
    (fun r evs =>
       no_router_call evs
       /\ (nv = true -> forall rt', r = Ok rt' ->
                                    is_gemini (res_client (fst rt')))).
Proof.
  unfold vision_override.
  destruct (nv && negb (String.eqb (provider_name (res_client (fst rt)))
                          "gemini")) eqn:E.
  - eapply records_bind; [apply get_llm_records| |].
    + intros res e1 [-> _]. destruct res as [r|].
      * destruct (String.eqb (provider_name (res_client r)) "gemini") eqn:Eg.
        -- apply records_ret. split; [reflexivity|].
           intros _ rt' Hrt. injection Hrt as <-. simpl.
           apply String.eqb_eq. exact Eg.
        -- apply records_raise. split; [reflexivity|]. intros _ rt' H.
           discriminate.
      * apply records_raise. split; [reflexivity|]. intros _ rt' H.
        discriminate.
    + intros e e1 [-> _]. split; [reflexivity|]. intros _ rt' H.
      discriminate.
  - apply records_ret. split; [reflexivity|].
    intros -> rt' Hrt. injection Hrt as <-. simpl in E.
    apply negb_false_iff in E. apply String.eqb_eq. exact E.
Qed.

Lemma standard_completion_records env resp name :
  records (standard_completion env resp name) (fun _ evs => evs = []).
Proof.
  unfold standard_completion.
  eapply records_bind; [apply lift_records| |].
  - intros [content usage] e1 [-> _]. simpl.
    eapply records_bind; [apply lift_records| |].
    + intros content' e1 [-> _]. simpl.
      eapply records_bind;
        [apply records_uuid with (Q := fun _ evs => evs = []); reflexivity| |].
      * intros u e1 ->. simpl.
        eapply records_bind;
          [apply records_time with (Q := fun _ evs => evs = []); reflexivity| |].
        -- intros now e1 ->. simpl. apply records_ret. reflexivity.
        -- intros e e1 ->. reflexivity.
      * intros e e1 ->. reflexivity.
    + intros e e1 [-> _]. reflexivity.
  - intros e e1 [-> _]. reflexivity.
Qed.

Lemma format_openai_response_records env resp name :
  records (format_openai_response env resp name) (fun _ evs => evs = []).
Proof.
  unfold format_openai_response. destruct resp as [ch u|d].
  - apply standard_completion_records.
  - destruct (is_image_batch d).
    + eapply records_bind; [apply lift_records| |].
      * intros _ e1 [-> _]. simpl.
        eapply records_bind;
          [apply records_uuid with (Q := fun _ evs => evs = []); reflexivity| |].
        -- intros u e1 ->. simpl.
           eapply records_bind;
             [apply records_time with (Q := fun _ evs => evs = []);
              reflexivity| |].
           ++ intros now e1 ->. simpl. apply records_ret. reflexivity.
           ++ intros e e1 ->. reflexivity.
        -- intros e e1 ->. reflexivity.
      * intros e e1 [-> _]. reflexivity.
    + destruct (dict_has "error" d).
      * apply records_ret. reflexivity.
      * apply standard_completion_records.
Qed.

Lemma generate_and_format_records env req rt :
  records (generate_and_format env req rt)
    (fun _ evs => router_calls evs = [res_client (fst rt)]).
Proof.
  unfold generate_and_format.
  eapply records_try_except
    with (Q1 := fun _ evs => router_calls evs = [res_client (fst rt)]).
  - eapply records_bind; [apply call_generate_records| |].
    + intros response e1 ->.
      eapply records_bind; [apply lift_records| |].
      * intros _ e1 [-> _]. simpl.
        eapply records_weaken; [apply format_openai_response_records|].
        intros r evs ->. reflexivity.
      * intros e e1 [-> _]. reflexivity.
    + intros e e1 ->. reflexivity.
  - intros a e1 H. exact H.
  - intros e e1 H. apply records_raise. rewrite app_nil_r. exact H.
Qed.

(** The whole of [route_and_process]: the state store is left alone;
    a request that is answered was sent to exactly one backend; and
    when vision is needed that backend, answered or not, is Gemini. *)
Lemma route_and_process_records env req :
  records (route_and_process env req)
    (fun r evs =>
       (should_use_vision_model (messages req) = Ok true ->
        Forall is_gemini (router_calls evs))
       /\ (forall f, r = Ok f -> exists c, router_calls evs = [c])).
Proof.
  unfold route_and_process. destruct (last (messages req)) as [lm|].
  2:{ apply records_raise. split; [constructor|]. intros f H. discriminate. }
  eapply records_bind; [apply lift_records| |].
  2:{ intros e e1 [-> _]. split; [constructor|]. intros f H. discriminate. }
  intros text e1 [-> _]. simpl.
  eapply records_bind; [apply lift_records| |].
  2:{ intros e e1 [-> _]. split; [constructor|]. intros f H. discriminate. }
  intros nv e1 [-> Hnv]. simpl.
  eapply records_bind; [apply lift_records| |].
  2:{ intros e e1 [-> _]. split; [constructor|]. intros f H. discriminate. }
  intros nh e1 [-> _]. simpl.
  eapply records_bind; [apply select_target_records| |].
  2:{ intros e e1 He. unfold no_router_call in He. rewrite He.
      split; [constructor|]. intros f H. discriminate. }
  intros [target tier] e1 He1.
  eapply records_bind; [apply resolve_with_fallback_records| |].
  2:{ intros e e2 He2. unfold no_router_call in *.
      rewrite router_calls_app, He1, He2.
      split; [constructor|]. intros f H. discriminate. }
  intros rt e2 He2.
  eapply records_bind; [apply vision_override_records| |].
  2:{ intros e e3 [He3 _]. unfold no_router_call in *.
      rewrite !router_calls_app, He1, He2, He3.
      split; [constructor|]. intros f H. discriminate. }
  intros rt' e3 [He3 Hgem].
  eapply records_weaken; [apply generate_and_format_records|].
  intros r e4 He4. unfold no_router_call in *.
  rewrite !router_calls_app, He1, He2, He3, He4. simpl. split.
  - intros Hvis. constructor; [|constructor].
    apply (Hgem ltac:(congruence) rt' eq_refl).
  - intros f _. eauto.
Qed.

(** ** Claims about the routing decision engine *)

(** C1, what the code does instead.  [route_and_process] never touches
    the conversation state store: for every request and outcome the
    state table and every state object are as before, so neither
    [get_or_create_state] nor [update_state_after_routing] has acted.
    In particular a vision request routed successfully on a fresh
    process leaves the table empty. *)
Theorem routing_leaves_store_untouched env req w :
  heap (snd (route_and_process env req w)) = heap w
  /\ mgr (snd (route_and_process env req w)) = mgr w
  /\ exists f w',
      route_and_process sample_env (mkRequest [picture_turn] None) sample_world
      = (Ok f, w')
      /\ heap w' = [] /\ states (mgr w') = [].
Proof.
  destruct (route_and_process_records env req w) as (Hh & Hm & _).
  split; [exact Hh|]. split; [exact Hm|].
  eexists. eexists. split; [vm_compute; reflexivity|]. split; reflexivity.
Qed.

(** [route_and_process] once the target has been selected. *)
Lemma route_and_process_after_selection env req lm text nv nh w target tier w1 :
  last (messages req) = Some lm ->
  get_text_from_content (content lm) = Ok text ->
  should_use_vision_model (messages req) = Ok nv ->
  detect_heavy_context env (messages req) = Ok nh ->
  select_target env (messages req) text nv nh w = (Ok (target, tier), w1) ->
  route_and_process env req w
  = (resolve_with_fallback env target ≫= fun rt =>
     vision_override env nv rt ≫= fun rt =>
     generate_and_format env req rt) w1.
Proof.
  intros Hlast Htext Hnv Hnh Hsel. unfold route_and_process.
  rewrite Hlast.
  erewrite lift_bind_ok by exact Htext.
  erewrite lift_bind_ok by exact Hnv.
  erewrite lift_bind_ok by exact Hnh.
  erewrite bind_ok by exact Hsel. reflexivity.
Qed.

Lemma add_events_app w e1 e2 :
  add_events (add_events w e1) e2 = add_events w (e1 ++ e2).
Proof. unfold add_events. simpl. rewrite app_assoc. reflexivity. Qed.

Lemma get_llm_at env name w :
  get_llm_client_and_model_details env name w
  = (lookup_model_details env name, add_events w [EvResolve name]).
Proof. reflexivity. Qed.

(** C5.  When the registry resolution of the selected target model
    returns no client and model id, the engine resolves exactly once
    more, with the configured fallback model; if that resolution
    returns none either, the request fails with the server error
    "No valid LLM client available" and no backend generate call has
    been made for it. *)
Theorem fallback_is_tried_once env req lm text nv nh w target tier w1 :
  last (messages req) = Some lm ->
  get_text_from_content (content lm) = Ok text ->
  should_use_vision_model (messages req) = Ok nv ->
  detect_heavy_context env (messages req) = Ok nh ->
  select_target env (messages req) text nv nh w = (Ok (target, tier), w1) ->
  lookup_model_details env target = Ok None ->
  let fb := fallback_model (settings env) in
  snd (resolve_with_fallback env target w1)
  = add_events w1 [EvResolve target; EvResolve fb]
  /\ (forall r, lookup_model_details env fb = Ok (Some r) ->
                fst (resolve_with_fallback env target w1) = Ok (r, fb))
  /\ (lookup_model_details env fb = Ok None ->
      route_and_process env req w
      = (Raise (HTTPException 500 "No valid LLM client available"),
         add_events w1 [EvResolve target; EvResolve fb])
      /\ router_calls (trace (snd (route_and_process env req w)))
         = router_calls (trace w)).
Proof.
  intros Hlast Htext Hnv Hnh Hsel Hmiss fb.
  assert (Hres : resolve_with_fallback env target w1
                 = match lookup_model_details env fb with
                   | Ok (Some r) =>
                       (Ok (r, fb),
                        add_events w1 [EvResolve target; EvResolve fb])
                   | Ok None =>
                       (Raise (HTTPException 500
                                 "No valid LLM client available"),
                        add_events w1 [EvResolve target; EvResolve fb])
                   | Raise e =>
                       (Raise e,
                        add_events w1 [EvResolve target; EvResolve fb])
                   end).
  { unfold resolve_with_fallback.
    erewrite bind_ok by (rewrite get_llm_at, Hmiss; reflexivity).
    fold fb. unfold mbind, M_bind. rewrite get_llm_at, add_events_app. simpl.
    destruct (lookup_model_details env fb) as [[r|]|e]; reflexivity. }
  split; [|split].
  - rewrite Hres. destruct (lookup_model_details env fb) as [[r|]|e];
      reflexivity.
  - intros r Hr. rewrite Hres, Hr. reflexivity.
  - intros Hfb.
    assert (Hroute : route_and_process env req w
                     = (Raise (HTTPException 500
                                 "No valid LLM client available"),
                        add_events w1 [EvResolve target; EvResolve fb])).
    { erewrite route_and_process_after_selection by eassumption.
      erewrite bind_raise; [reflexivity|].
      rewrite Hres, Hfb. reflexivity. }
    split; [exact Hroute|].
    rewrite Hroute. simpl.
    destruct (select_target_records env (messages req) text nv nh w)
      as (_ & _ & evs & Htr & Hno).
    rewrite Hsel in Htr. simpl in Htr. rewrite Htr.
    unfold no_router_call in Hno.
    rewrite !router_calls_app, Hno. simpl. rewrite !app_nil_r. reflexivity.
Qed.

Lemma fallback_is_tried_once_witness :
  route_and_process bare_env (mkRequest [user_says "hello"] None) sample_world
  = (Raise (HTTPException 500 "No valid LLM client available"),
     add_events sample_world
       [EvResolve "router-classifier"; EvResolve "fast-chat";
        EvResolve "spare-chat"]).
Proof.
  pose proof (fallback_is_tried_once bare_env
                (mkRequest [user_says "hello"] None)
                (user_says "hello") "hello" false false sample_world
                "fast-chat" "simple"
                (add_events sample_world [EvResolve "router-classifier"])
                eq_refl eq_refl eq_refl eq_refl eq_refl eq_refl) as H.
  destruct H as (_ & _ & H). destruct (H eq_refl) as [Hroute _].
  exact Hroute.
Defined.

(** A request with vision need, up to the resolution of step 5: the
    target is the hard non-research model, selected without any call. *)
Lemma route_and_process_vision env req lm text nh w :
  should_use_vision_model (messages req) = Ok true ->
  last (messages req) = Some lm ->
  get_text_from_content (content lm) = Ok text ->
  detect_heavy_context env (messages req) = Ok nh ->
  route_and_process env req w
  = (resolve_with_fallback env (hard_no_research_model (settings env))
       ≫= fun rt =>
     vision_override env true rt ≫= fun rt =>
     generate_and_format env req rt) w.
Proof.
  intros Hvis Hlast Htext Hheavy.
  apply (route_and_process_after_selection env req lm text true nh w
           (hard_no_research_model (settings env)) "hard" w
           Hlast Htext Hvis Hheavy).
  reflexivity.
Qed.

(** The override on a resolution of another provider: one lookup of the
    escalation model, kept only when it is Gemini. *)
Lemma vision_override_other env rt w :
  provider_name (res_client (fst rt)) <> "gemini" ->
  let esc := escalation_model (settings env) in
  vision_override env true rt w
  = (match lookup_model_details env esc with
     | Ok (Some r) =>
         if String.eqb (provider_name (res_client r)) "gemini"
         then Ok (r, esc)
         else Raise (HTTPException 500
                       "Cannot find Gemini model for vision task!")
     | Ok None =>
         Raise (HTTPException 500 "Cannot find Gemini model for vision task!")
     | Raise e => Raise e
     end,
     add_events w [EvResolve esc]).
Proof.
  intros Hne esc. unfold vision_override.
  apply String.eqb_neq in Hne. rewrite Hne. simpl.
  fold esc. unfold mbind, M_bind. rewrite get_llm_at.
  destruct (lookup_model_details env esc) as [[r|]|e]; simpl;
    try reflexivity.
  destruct (String.eqb (provider_name (res_client r)) "gemini"); reflexivity.
Qed.

Lemma generate_and_format_unfold env req rt w :
  generate_and_format env req rt w
  = match generate_response env (res_client (fst rt)) (res_model_id (fst rt))
            (messages req) (request_temperature req)
            (res_api_parameters (fst rt)) (res_system_prompt (fst rt)) with
    | Raise e =>
        (Raise (HTTPException 500
                  ("Failed to generate response: " ++ exn_text e)),
         add_events w [router_call req (fst rt)])
    | Ok response =>
        match log_response_preview response with
        | Raise e =>
            (Raise (HTTPException 500
                      ("Failed to generate response: " ++ exn_text e)),
             add_events w [router_call req (fst rt)])
        | Ok _ =>
            match format_openai_response env response (snd rt)
                    (add_events w [router_call req (fst rt)]) with
            | (Ok f, w') => (Ok f, w')
            | (Raise e, w') =>
                (Raise (HTTPException 500
                          ("Failed to generate response: " ++ exn_text e)),
                 w')
            end
        end
    end.
Proof.
  unfold generate_and_format, try_except, call_generate, router_call,
    request_temperature.
  munfold. unfold emit. simpl.
  destruct (generate_response env _ _ _ _ _ _) as [response|e]; simpl;
    [|reflexivity].
  destruct (log_response_preview response) as [[]|e]; simpl; [|reflexivity].
  destruct (format_openai_response env response (snd rt) _) as [[f|e] w'];
    reflexivity.
Qed.

(** C4.  Take a request for which vision need was established and that
    reaches step 5, where the hard non-research model (or the fallback)
    resolved to [rt].  When the provider of [rt] is Gemini the request
    goes on with it.  When it is another provider, [route_and_process]
    resolves the configured escalation model, once, and goes on with
    that resolution when its provider is Gemini: the backend call is
    then made to that Gemini client under the name of the escalation
    model, and a reply that the router can read is the answer of the
    request.  When the escalation model yields no client or another
    provider, the request fails with the server error "Cannot find
    Gemini model for vision task!" before any backend call (and with the
    exception of the registry lookup when that lookup itself raises).
    Hence every backend such a request is sent to is Gemini, and a
    request that is answered is answered by Gemini. *)
Theorem vision_request_goes_to_gemini env req lm text nh w rt w1 :
  should_use_vision_model (messages req) = Ok true ->
  last (messages req) = Some lm ->
  get_text_from_content (content lm) = Ok text ->
  detect_heavy_context env (messages req) = Ok nh ->
  resolve_with_fallback env (hard_no_research_model (settings env)) w
  = (Ok rt, w1) ->
  let esc := escalation_model (settings env) in
  let w2 := add_events w1 [EvResolve esc] in
  (provider_name (res_client (fst rt)) = "gemini" ->
   route_and_process env req w = generate_and_format env req rt w1)
  /\ (provider_name (res_client (fst rt)) <> "gemini" ->
      route_and_process env req w
      = match lookup_model_details env esc with
        | Ok (Some r) =>
            if String.eqb (provider_name (res_client r)) "gemini"
            then generate_and_format env req (r, esc) w2
            else (Raise (HTTPException 500
                           "Cannot find Gemini model for vision task!"), w2)
        | Ok None =>
            (Raise (HTTPException 500
                      "Cannot find Gemini model for vision task!"), w2)
        | Raise e => (Raise e, w2)
        end)
  /\ (forall r response f w3,
        provider_name (res_client (fst rt)) <> "gemini" ->
        lookup_model_details env esc = Ok (Some r) ->
        provider_name (res_client r) = "gemini" ->
        generate_response env (res_client r) (res_model_id r) (messages req)
          (request_temperature req) (res_api_parameters r)
          (res_system_prompt r)
        = Ok response ->
        log_response_preview response = Ok tt ->
        format_openai_response env response esc
          (add_events w2 [router_call req r])
        = (Ok f, w3) ->
        route_and_process env req w = (Ok f, w3)
        /\ router_calls (trace w3)
           = (router_calls (trace w) ++ [res_client r])%list)
  /\ (provider_name (res_client (fst rt)) <> "gemini" ->
      lookup_model_details env esc = Ok None
      \/ (exists r, lookup_model_details env esc = Ok (Some r)
                    /\ provider_name (res_client r) <> "gemini") ->
      route_and_process env req w
      = (Raise (HTTPException 500
                  "Cannot find Gemini model for vision task!"), w2)
      /\ router_calls (trace w2) = router_calls (trace w))
  /\ (exists evs,
        trace (snd (route_and_process env req w)) = (trace w ++ evs)%list
        /\ Forall is_gemini (router_calls evs)
        /\ (forall f, fst (route_and_process env req w) = Ok f ->
                      exists c, router_calls evs = [c] /\ is_gemini c)).
Proof.
  intros Hvis Hlast Htext Hheavy Hres esc w2.
  pose proof (route_and_process_vision env req lm text nh w
                Hvis Hlast Htext Hheavy) as Hroute.
  erewrite bind_ok in Hroute by exact Hres.
  assert (Hother : provider_name (res_client (fst rt)) <> "gemini" ->
            route_and_process env req w
            = match lookup_model_details env esc with
              | Ok (Some r) =>
                  if String.eqb (provider_name (res_client r)) "gemini"
                  then generate_and_format env req (r, esc) w2
                  else (Raise (HTTPException 500
                                 "Cannot find Gemini model for vision task!"),
                        w2)
              | Ok None =>
                  (Raise (HTTPException 500
                            "Cannot find Gemini model for vision task!"), w2)
              | Raise e => (Raise e, w2)
              end).
  { intros Hne. rewrite Hroute. unfold mbind, M_bind.
    rewrite (vision_override_other env rt w1 Hne). fold esc. fold w2.
    destruct (lookup_model_details env esc) as [[r|]|e]; try reflexivity.
    destruct (String.eqb (provider_name (res_client r)) "gemini");
      reflexivity. }
  assert (Hquiet : router_calls (trace w1) = router_calls (trace w)).
  { destruct (resolve_with_fallback_records env
                (hard_no_research_model (settings env)) w)
      as (_ & _ & evs & Htr & Hno).
    rewrite Hres in Htr. simpl in Htr. rewrite Htr.
    unfold no_router_call in Hno.
    rewrite router_calls_app, Hno. apply app_nil_r. }
  split; [|split; [exact Hother|split; [|split]]].
  - intros Heq. rewrite Hroute. unfold mbind, M_bind, vision_override.
    apply String.eqb_eq in Heq. rewrite Heq. reflexivity.
  - intros r response f w3 Hne Hesc Hgem Hgen Hlog Hfmt.
    assert (Hrun : route_and_process env req w = (Ok f, w3)).
    { rewrite (Hother Hne), Hesc.
      apply String.eqb_eq in Hgem. rewrite Hgem.
      rewrite generate_and_format_unfold. simpl fst. simpl snd.
      rewrite Hgen, Hlog, Hfmt. reflexivity. }
    split; [exact Hrun|].
    destruct (format_openai_response_records env response esc
                (add_events w2 [router_call req r]))
      as (_ & _ & evs & Htr & ->).
    rewrite Hfmt in Htr. simpl in Htr. rewrite Htr.
    rewrite app_nil_r, !router_calls_app, Hquiet. simpl.
    rewrite app_nil_r. reflexivity.
  - intros Hne Hlook.
    split.
    + rewrite (Hother Hne).
      destruct Hlook as [Hlook|(r & Hlook & Hbad)]; rewrite Hlook;
        [reflexivity|].
      apply String.eqb_neq in Hbad. rewrite Hbad. reflexivity.
    + unfold w2. simpl. rewrite router_calls_app, Hquiet. simpl.
      apply app_nil_r.
  - destruct (route_and_process_records env req w)
      as (_ & _ & evs & Htr & Hgem & Hone).
    exists evs. split; [exact Htr|]. split; [exact (Hgem Hvis)|].
    intros f Hf. destruct (Hone f Hf) as [c Hc]. exists c.
    split; [exact Hc|].
    specialize (Hgem Hvis). rewrite Hc in Hgem.
    inversion Hgem; assumption.
Qed.

Lemma vision_request_goes_to_gemini_witness :
  exists f w3,
    route_and_process sample_env (mkRequest [picture_turn] None) sample_world
    = (Ok f, w3)
    /\ router_calls (trace w3)
       = (router_calls (trace sample_world) ++ [mkClient "gemini"])%list.
Proof.
  destruct (vision_request_goes_to_gemini sample_env
              (mkRequest [picture_turn] None) picture_turn "look at this"
              false sample_world
              (mkResolution (mkClient "openai") (PStr "gpt-4o") (PStr "chat")
                 (PDict []) (PStr "You are a helpful AI assistant."),
               "deep-chat")
              (add_events sample_world [EvResolve "deep-chat"])
              eq_refl eq_refl eq_refl eq_refl eq_refl)
    as (_ & _ & Hanswered & _).
  do 2 eexists.
  apply (Hanswered
           (mkResolution (mkClient "gemini") (PStr "gemini-2.5-pro")
              (PStr "chat") (PDict [])
              (PStr "You are a helpful AI assistant."))
           (chat_reply "done" zero_usage)).
  - simpl. discriminate.
  - reflexivity.
  - reflexivity.
  - reflexivity.
  - reflexivity.
  - reflexivity.
Defined.



(** * Further properties of the code *)

(** ** Reading the text of a message *)

Lemma join_values_ok l :
  Forall (fun v => exists s, v = PStr s) l ->
  exists texts, join_values l = Ok texts.
Proof.
  induction 1 as [|v l [s ->] _ [texts IH]]; simpl.
  - eauto.
  - rewrite IH. simpl. eauto.
Qed.

Lemma join_values_raise l :
  Exists (fun v => forall s, v <> PStr s) l -> join_values l = Raise TypeError.
Proof.
  induction l as [|v l IH]; intros H.
  - inversion H.
  - destruct v; try reflexivity.
    simpl. apply Exists_cons in H as [H|H]; [destruct (H s eq_refl)|].
    rewrite (IH H). reflexivity.
Qed.

(** X1.  [_get_text_from_content] returns a string content as it is.
    On a list of parts it reads the text parts only: it returns when
    the text of every part of type "text" is a string, and it raises
    [TypeError] when some text part carries a text that is not one;
    parts of any other type never matter. *)
Theorem get_text_reads_text_parts parts :
  (forall s, get_text_from_content (CStr s) = Ok s)
  /\ (Forall (fun p => part_is "text" p = true ->
                       exists s, dict_get_default "text" (PStr "") p = PStr s)
             parts ->
      exists text, get_text_from_content (CParts parts) = Ok text)
  /\ (Exists (fun p => part_is "text" p = true
                       /\ forall s, dict_get_default "text" (PStr "") p
                                    <> PStr s)
             parts ->
      get_text_from_content (CParts parts) = Raise TypeError)
  /\ get_text_from_content (CParts parts)
     = get_text_from_content (CParts (List.filter (part_is "text") parts)).
Proof.
  split; [reflexivity|]. split; [|split].
  - intros H. unfold get_text_from_content.
    destruct (join_values_ok
                (map (dict_get_default "text" (PStr ""))
                     (List.filter (part_is "text") parts))) as [texts Ht].
    + induction H as [|p ps Hp _ IH]; simpl; [constructor|].
      destruct (part_is "text" p) eqn:E; simpl; auto.
    + rewrite Ht. simpl. eauto.
  - intros H. unfold get_text_from_content.
    rewrite join_values_raise; [reflexivity|].
    induction H as [p ps [Hp Hbad]|p ps _ IH]; simpl.
    + rewrite Hp. simpl. apply Exists_cons_hd. exact Hbad.
    + destruct (part_is "text" p); simpl; auto using Exists_cons_tl.
  - unfold get_text_from_content. f_equal. f_equal. f_equal.
    induction parts as [|p ps IH]; simpl; [reflexivity|].
    destruct (part_is "text" p) eqn:E; simpl; rewrite ?E; congruence.
Qed.

(** ** Vision need *)

Lemma existsb_elem {A : Type} (f : A -> bool) (l : list A) x :
  x ∈ l -> f x = true -> existsb f l = true.
Proof.
  intros Hx Hf. apply existsb_exists. exists x. split; [|exact Hf].
  apply list_elem_of_In. exact Hx.
Qed.

(** X2.  Vision need is never established without an image somewhere in
    the conversation, and is always established, without the text being
    read, when the last message itself carries an image; a conversation
    without any image never needs vision and the test never raises
    then. *)
Theorem vision_need_and_images msgs :
  (should_use_vision_model msgs = Ok true ->
   has_image_in_conversation msgs = true)
  /\ (forall m, last msgs = Some m ->
                has_image_in_current_message m = true ->
                should_use_vision_model msgs = Ok true)
  /\ (has_image_in_conversation msgs = false ->
      should_use_vision_model msgs = Ok false).
Proof.
  unfold should_use_vision_model. split; [|split].
  - destruct (last msgs) as [m|] eqn:Hlast; [|discriminate].
    destruct (has_image_in_current_message m) eqn:Him.
    + intros _. eapply existsb_elem; [|exact Him].
      eapply last_Some_elem_of. exact Hlast.
    + destruct (has_image_in_conversation msgs); [reflexivity|discriminate].
  - intros m -> ->. reflexivity.
  - intros Hno. destruct (last msgs) as [m|] eqn:Hlast; [|reflexivity].
    destruct (has_image_in_current_message m) eqn:Him.
    + assert (has_image_in_conversation msgs = true); [|congruence].
      eapply existsb_elem; [|exact Him].
      eapply last_Some_elem_of. exact Hlast.
    + rewrite Hno. reflexivity.
Qed.

(** ** What a selection can name *)

Lemma determine_model_tier_plain category :
  In category valid_categories ->
  determine_model_tier category false false = "hard"
  \/ determine_model_tier category false false = "simple".
Proof.
  simpl. intros [<-|[<-|[<-|[<-|[]]]]]; vm_compute; auto.
Qed.

Lemma model_for_category_configured env category :
  In category valid_categories ->
  In (model_for_category env category) (selectable_models (settings env)).
Proof.
  unfold selectable_models.
  simpl. intros [<-|[<-|[<-|[<-|[]]]]]; unfold model_for_category; simpl; auto.
Qed.

(** X3.  Whatever the request and the classifier's reply, a selection
    that returns names one of the four tiers of the data model and one
    of the six selectable logical models (the four tier models, the
    escalation model, "Perplexity-Research"): the fallback default of
    the category mapping is never what a selection returns, since the
    classifier only returns canonical labels. *)
Theorem selection_outputs env msgs text nv nh w target tier w' :
  select_target env msgs text nv nh w = (Ok (target, tier), w') ->
  In tier tiers /\ In target (selectable_models (settings env)).
Proof.
  unfold select_target, tiers, selectable_models.
  destruct nv.
  { intros H. injection H as <- <- _. simpl. auto 10. }
  destruct nh.
  { intros H. injection H as <- <- _. simpl. auto 10. }
  unfold mbind at 1. unfold M_bind, lift.
  destruct (is_title_generation_request msgs) as [[|]|e]; [| |discriminate].
  { intros H. injection H as <- <- _. simpl. auto 10. }
  destruct (is_escalation_request text).
  { intros H. injection H as <- <- _. simpl. auto 10. }
  destruct (is_research_request text).
  { intros H. injection H as <- <- _. simpl. auto 10. }
  destruct (classify_message_records env msgs w) as (_ & _ & evs & _ & _ & Hc).
  unfold mbind, M_bind.
  destruct (classify_message env msgs w) as [[category|e] w1]; [|discriminate].
  simpl in Hc. intros H. injection H as <- <- _. split.
  - destruct (determine_model_tier_plain category Hc) as [-> | ->];
      simpl; auto.
  - apply (model_for_category_configured env category Hc).
Qed.

Lemma selection_outputs_witness :
  In "simple" tiers /\ In "fast-chat" (selectable_models sample_settings).
Proof.
  apply (selection_outputs sample_env [user_says "hello"] "hello" false false
           sample_world "fast-chat" "simple"
           (add_events sample_world [EvResolve "router-classifier"])).
  reflexivity.
Defined.

(** ** The backend call *)

Lemma standard_completion_canonical env resp name w f w' :
  standard_completion env resp name w = (Ok f, w') ->
  exists c, f = Canonical c /\ cc_model c = name.
Proof.
  unfold standard_completion. munfold.
  destruct (standard_content_usage resp) as [[content usage]|e];
    [|discriminate].
  destruct (debug_prefix env name content) as [content'|e]; [|discriminate].
  simpl. intros H. injection H as <- _. eexists. split; reflexivity.
Qed.

Lemma format_openai_response_model env resp name w c w' :
  format_openai_response env resp name w = (Ok (Canonical c), w') ->
  cc_model c = name.
Proof.
  unfold format_openai_response. destruct resp as [ch u|d].
  - intros H. apply standard_completion_canonical in H as (c' & Hc & Hm).
    congruence.
  - destruct (is_image_batch d).
    + munfold. destruct (py_sized _); [|discriminate]. simpl.
      intros H. injection H as <- _. reflexivity.
    + destruct (dict_has "error" d); [munfold; discriminate|].
      intros H. apply standard_completion_canonical in H as (c' & Hc & Hm).
      congruence.
Qed.


(** X4.  The guarded part of [route_and_process] makes exactly one
    backend call, with the resolved client and model id, the full
    message list, the request's temperature or 0.7, and the resolved
    parameters and system prompt.  Whatever goes wrong from there (the
    backend raising, the reply being unreadable) reaches the caller as
    an HTTP 500 whose detail starts with "Failed to generate response: ";
    a backend exception with message [msg] gives exactly that prefix
    followed by [msg]; and a canonical reply names the logical model
    that was resolved. *)
Theorem backend_call_and_failures env req rt w :
  trace (snd (generate_and_format env req rt w))
  = (trace w ++ [router_call req (fst rt)])%list
  /\ (forall e, fst (generate_and_format env req rt w) = Raise e ->
                exists cause,
                  e = HTTPException 500
                        ("Failed to generate response: " ++ cause))
  /\ (forall msg,
        generate_response env (res_client (fst rt)) (res_model_id (fst rt))
          (messages req) (request_temperature req)
          (res_api_parameters (fst rt)) (res_system_prompt (fst rt))
        = Raise (ProviderError msg) ->
        generate_and_format env req rt w
        = (Raise (HTTPException 500 ("Failed to generate response: " ++ msg)),
           add_events w [router_call req (fst rt)]))
  /\ (forall c, fst (generate_and_format env req rt w) = Ok (Canonical c) ->
                cc_model c = snd rt).
Proof.
  rewrite generate_and_format_unfold.
  destruct (generate_response env _ _ _ _ _ _) as [response|e0] eqn:Egen.
  2:{ simpl. split; [reflexivity|]. split; [intros e H; injection H as <-; eauto|].
      split; [|discriminate].
      intros msg H. injection H as ->. reflexivity. }
  destruct (log_response_preview response) as [[]|e0].
  2:{ simpl. split; [reflexivity|]. split; [intros e H; injection H as <-; eauto|].
      split; [|discriminate]. intros msg H. discriminate. }
  destruct (format_openai_response_records env response (snd rt)
              (add_events w [router_call req (fst rt)]))
    as (_ & _ & evs & Htr & ->).
  destruct (format_openai_response env response (snd rt) _)
    as [[f|e0] w'] eqn:Efmt; simpl in *.
  - split; [rewrite Htr, app_nil_r; reflexivity|].
    split; [discriminate|]. split; [discriminate|].
    intros c H. injection H as ->.
    eapply format_openai_response_model. exact Efmt.
  - split; [rewrite Htr, app_nil_r; reflexivity|].
    split; [intros e H; injection H as <-; eauto|].
    split; [discriminate|discriminate].
Qed.

(** ** Shapes of the normalized reply *)

(** X5.  [_format_openai_response] hands a reply back unchanged exactly
    when it is a dict with an "error" key that is not an image batch;
    nothing is drawn from the clock or the uuid source then. *)
Theorem error_replies_pass_through env resp name w d w' :
  format_openai_response env resp name w = (Ok (Passthrough d), w')
  <-> resp = RDict d /\ is_image_batch d = false
      /\ dict_has "error" d = true /\ w' = w.
Proof.
  split.
  - unfold format_openai_response. destruct resp as [ch u|d0].
    + intros H. apply standard_completion_canonical in H as (c & Hc & _).
      discriminate.
    + destruct (is_image_batch d0) eqn:Eimg.
      * munfold. destruct (py_sized _); [|discriminate]. simpl. discriminate.
      * destruct (dict_has "error" d0) eqn:Eerr.
        -- munfold. intros H. injection H as <- <-. auto.
        -- intros H. apply standard_completion_canonical in H as (c & Hc & _).
           discriminate.
  - intros (-> & Himg & Herr & ->). unfold format_openai_response.
    rewrite Himg, Herr. reflexivity.
Qed.

Lemma startswith_app p s : Text.startswith p (p ++ s) = true.
Proof.
  induction p as [|c p IH]; simpl; [reflexivity|].
  rewrite Ascii.eqb_refl. exact IH.
Qed.

Lemma string_append_assoc (a b c : string) : (a ++ b) ++ c = a ++ b ++ c.
Proof.
  induction a as [|x a IH]; [reflexivity|].
  change (String x ((a ++ b) ++ c) = String x (a ++ b ++ c)).
  f_equal. exact IH.
Qed.

(** X6.  The model-name prefix of debug mode is added at most once: a
    content that went through [_format_openai_response]'s prefixing is
    left as it is by a second pass; outside debug mode the content is
    never touched, whatever its type. *)
Theorem debug_prefix_once env name content :
  (forall content', debug_prefix env name content = Ok content' ->
                    debug_prefix env name content' = Ok content')
  /\ (String.eqb (Text.upper (log_level (settings env))) "DEBUG" = false ->
      debug_prefix env name content = Ok content).
Proof.
  unfold debug_prefix.
  destruct (String.eqb (Text.upper (log_level (settings env))) "DEBUG").
  - split; [|discriminate]. intros content'.
    destruct content as [| | |c| |]; try discriminate.
    destruct (Text.startswith (name ++ " - ") c) eqn:E; simpl;
      intros H; injection H as <-.
    + rewrite E. reflexivity.
    + rewrite <- (string_append_assoc name " - " c), startswith_app.
      reflexivity.
  - split; [|reflexivity]. intros content' H. injection H as <-. reflexivity.
Qed.

(** X7.  A reply object whose first choice has no content cannot be
    answered: the normalization alone would accept it outside debug
    mode (the content of the reply is then [None]), but the log line
    that previews the reply slices the content first, so the request
    fails with an HTTP 500 after the backend call. *)
Theorem empty_content_fails_request env req rt w rest u :
  generate_response env (res_client (fst rt)) (res_model_id (fst rt))
    (messages req) (request_temperature req)
    (res_api_parameters (fst rt)) (res_system_prompt (fst rt))
  = Ok (RObject (Some (mkChoice None :: rest)) u) ->
  (exists detail,
      generate_and_format env req rt w
      = (Raise (HTTPException 500 detail),
         add_events w [router_call req (fst rt)]))
  /\ (String.eqb (Text.upper (log_level (settings env))) "DEBUG" = false ->
      exists c w',
        format_openai_response env (RObject (Some (mkChoice None :: rest)) u)
          (snd rt) w = (Ok (Canonical c), w')
        /\ cc_content c = PNone).
Proof.
  intros Hgen. split.
  - rewrite generate_and_format_unfold, Hgen. simpl. eauto.
  - intros Hdbg. unfold format_openai_response, standard_completion.
    munfold. unfold debug_prefix. rewrite Hdbg.
    destruct u as [uo|]; simpl; eexists _, _; split; reflexivity.
Qed.

Lemma empty_content_fails_request_witness :
  exists detail,
    generate_and_format silent_env (mkRequest [user_says "hello"] None)
      (ollama_resolution, "fast-chat") sample_world
    = (Raise (HTTPException 500 detail),
       add_events sample_world
         [router_call (mkRequest [user_says "hello"] None) ollama_resolution]).
Proof.
  exact (proj1 (empty_content_fails_request silent_env
                  (mkRequest [user_says "hello"] None)
                  (ollama_resolution, "fast-chat") sample_world [] None
                  eq_refl)).
Defined.

(** ** What a failed request raises *)

Lemma should_use_vision_model_readable msgs m text :
  last msgs = Some m ->
  get_text_from_content (content m) = Ok text ->
  exists b, should_use_vision_model msgs = Ok b.
Proof.
  intros Hlast Htext. unfold should_use_vision_model. rewrite Hlast, Htext.
  destruct (has_image_in_current_message m); [eauto|].
  destruct (has_image_in_conversation msgs); [|eauto].
  rewrite result_bind_ok.
  destruct (references_image_content text); [eauto|].
  destruct (_ <? _)%nat; eauto.
Qed.

Lemma is_title_generation_request_readable msgs m text :
  last msgs = Some m ->
  get_text_from_content (content m) = Ok text ->
  exists b, is_title_generation_request msgs = Ok b.
Proof.
  intros Hlast Htext. unfold is_title_generation_request.
  rewrite Hlast, Htext. rewrite result_bind_ok. eauto.
Qed.

Lemma select_target_returns env msgs m text nv nh w :
  (forall name, exists res, lookup_model_details env name = Ok res) ->
  last msgs = Some m ->
  get_text_from_content (content m) = Ok text ->
  exists sel, fst (select_target env msgs text nv nh w) = Ok sel.
Proof.
  intros Hreg Hlast Htext. unfold select_target.
  destruct nv; [eexists; reflexivity|].
  destruct nh; [eexists; reflexivity|].
  destruct (is_title_generation_request_readable msgs m text Hlast Htext)
    as [title Htitle].
  erewrite lift_bind_ok by exact Htitle.
  destruct title; [eexists; reflexivity|].
  destruct (is_escalation_request text); [eexists; reflexivity|].
  destruct (is_research_request text); [eexists; reflexivity|].
  destruct (classify_message_records env msgs w) as (_ & _ & evs & _ & _ & Hc).
  unfold mbind, M_bind.
  destruct (classify_message env msgs w) as [[category|e] w1]; simpl in *.
  - eexists; reflexivity.
  - destruct Hc as [(m' & Hm' & Hraise)|Hraise].
    + congruence.
    + destruct (Hreg (classifier_model (settings env))) as [res Hres].
      congruence.
Qed.

Lemma resolve_with_fallback_raises env target w e :
  (forall name, exists res, lookup_model_details env name = Ok res) ->
  fst (resolve_with_fallback env target w) = Raise e -> is_server_error e.
Proof.
  intros Hreg. unfold resolve_with_fallback, mbind, M_bind.
  rewrite get_llm_at.
  destruct (Hreg target) as [res ->]. destruct res as [r|]; [discriminate|].
  rewrite get_llm_at.
  destruct (Hreg (fallback_model (settings env))) as [res ->].
  destruct res as [r|]; [discriminate|].
  simpl. intros H. injection H as <-. eexists. reflexivity.
Qed.

Lemma vision_override_raises env nv rt w e :
  (forall name, exists res, lookup_model_details env name = Ok res) ->
  fst (vision_override env nv rt w) = Raise e -> is_server_error e.
Proof.
  intros Hreg. unfold vision_override.
  destruct (nv && _); [|discriminate].
  unfold mbind, M_bind. rewrite get_llm_at.
  destruct (Hreg (escalation_model (settings env))) as [res ->].
  destruct res as [r|].
  - destruct (String.eqb _ _); [discriminate|].
    simpl. intros H. injection H as <-. eexists. reflexivity.
  - simpl. intros H. injection H as <-. eexists. reflexivity.
Qed.

Lemma generate_and_format_raises env req rt w e :
  fst (generate_and_format env req rt w) = Raise e -> is_server_error e.
Proof.
  rewrite generate_and_format_unfold.
  destruct (generate_response env _ _ _ _ _ _) as [response|e0].
  2:{ simpl. intros H. injection H as <-. eexists. reflexivity. }
  destruct (log_response_preview response) as [[]|e0].
  2:{ simpl. intros H. injection H as <-. eexists. reflexivity. }
  destruct (format_openai_response env response (snd rt) _) as [[f|e0] w'];
    simpl; [discriminate|].
  intros H. injection H as <-. eexists. reflexivity.
Qed.

(** X8.  With a registry whose lookups do not raise, messages whose
    text can be read and a token count that can be taken, a request
    fails in two ways only: an empty message list is rejected with the
    HTTP 400 "No messages provided.", and everything else that goes
    wrong (no client for target and fallback, no Gemini for a vision
    request, a failing backend, an unreadable reply) is an HTTP 500. *)
Theorem route_failures_are_http_errors env req w e w' :
  (forall name, exists res, lookup_model_details env name = Ok res) ->
  (forall m, m ∈ messages req ->
             exists text, get_text_from_content (content m) = Ok text) ->
  (exists nh, detect_heavy_context env (messages req) = Ok nh) ->
  route_and_process env req w = (Raise e, w') ->
  (messages req = [] /\ e = HTTPException 400 "No messages provided.")
  \/ (messages req <> [] /\ is_server_error e).
Proof.
  intros Hreg Hread [nh Hheavy]. unfold route_and_process.
  destruct (last (messages req)) as [lm|] eqn:Hlast.
  2:{ intros H. injection H as <- _. left. split; [|reflexivity].
      apply last_None. exact Hlast. }
  intros H. right. split.
  { intros Hnil. rewrite Hnil in Hlast. discriminate. }
  destruct (Hread lm (last_Some_elem_of _ _ Hlast)) as [text Htext].
  erewrite lift_bind_ok in H by exact Htext.
  destruct (should_use_vision_model_readable _ _ _ Hlast Htext) as [nv Hnv].
  erewrite lift_bind_ok in H by exact Hnv.
  erewrite lift_bind_ok in H by exact Hheavy.
  destruct (select_target_returns env (messages req) lm text nv nh w
              Hreg Hlast Htext) as [[target tier] Hsel].
  unfold mbind at 1 in H. unfold M_bind at 1 in H.
  destruct (select_target env (messages req) text nv nh w) as [sel w1].
  simpl in Hsel. subst sel.
  unfold mbind at 1 in H. unfold M_bind at 1 in H.
  destruct (resolve_with_fallback env target w1) as [[rt|e1] w2] eqn:Eres.
  2:{ injection H as <- _.
      apply (resolve_with_fallback_raises env target w1 e1 Hreg).
      rewrite Eres. reflexivity. }
  unfold mbind at 1 in H. unfold M_bind at 1 in H.
  destruct (vision_override env nv rt w2) as [[rt'|e1] w3] eqn:Eov.
  2:{ injection H as <- _.
      apply (vision_override_raises env nv rt w2 e1 Hreg).
      rewrite Eov. reflexivity. }
  apply (generate_and_format_raises env req rt' w3 e).
  rewrite H. reflexivity.
Qed.

Lemma route_failures_are_http_errors_witness :
  ([user_says "hello"] = []
   /\ HTTPException 500 "No valid LLM client available"
      = HTTPException 400 "No messages provided.")
  \/ ([user_says "hello"] <> []
      /\ is_server_error (HTTPException 500 "No valid LLM client available")).
Proof.
  apply (route_failures_are_http_errors bare_env
           (mkRequest [user_says "hello"] None) sample_world
           (HTTPException 500 "No valid LLM client available")
           (add_events sample_world
              [EvResolve "router-classifier"; EvResolve "fast-chat";
               EvResolve "spare-chat"])).
  - intros name. eexists. reflexivity.
  - intros m Hm. apply list_elem_of_singleton in Hm as ->.
    eexists. reflexivity.
  - eexists. reflexivity.
  - reflexivity.
Defined.

(** ** The registry lookup *)

Lemma lookup_model_details_some env name r :
  lookup_model_details env name = Ok (Some r) ->
  truthy (res_model_id r) = true
  /\ truthy (res_system_prompt r) = true
  /\ exists d p,
      dict_get name (model_configs (settings env)) = Some (PDict d)
      /\ dict_get "provider" d = Some (PStr p)
      /\ initialize_client env p = true
      /\ client_for env (PStr p) = Some (res_client r)
      /\ dict_get "model_id" d = Some (res_model_id r).
Proof.
  unfold lookup_model_details, dict_get_default.
  destruct (dict_get name (model_configs (settings env))) as [details|];
    [|discriminate].
  destruct (truthy details) eqn:Etruthy; [|discriminate]. simpl.
  destruct details as [| | | | |d]; try discriminate.
  unfold py_get, dict_get_default. rewrite !result_bind_ok.
  set (prompt0 := match dict_get "system_prompt" d with
                  | Some v => v
                  | None => PNone
                  end).
  set (file := match dict_get "system_prompt_file" d with
               | Some v => v
               | None => PNone
               end).
  destruct (if truthy file
            then read_prompt_file env file ≫= _
            else Ok prompt0) as [prompt|e]; [|discriminate].
  rewrite result_bind_ok.
  destruct (dict_get "provider" d) as [provider|] eqn:Eprov; [|discriminate].
  destruct (truthy provider) eqn:Etp; [|discriminate].
  destruct (dict_get "model_id" d) as [mid|] eqn:Emid; [|discriminate].
  destruct (truthy mid) eqn:Etm; [|discriminate]. simpl.
  destruct (client_for env provider) as [client|] eqn:Eclient; [|discriminate].
  destruct provider as [| | |p| |]; try discriminate.
  destruct (initialize_client env p) eqn:Einit; [|discriminate].
  intros H. injection H as <-. simpl.
  split; [exact Etm|]. split.
  - destruct (truthy prompt) eqn:Ep; [exact Ep|reflexivity].
  - exists d, p. auto.
Qed.

(** X9.  A registry lookup that yields a client yields a complete
    resolution: the entry of the models file is an object whose
    provider is one of the supported names and whose client
    initialised, the model id is the entry's and is not empty, and the
    system prompt is never empty (the standard prompt stands in for a
    missing one).  A name without an entry, or with an empty one,
    yields no client and raises nothing. *)
Theorem resolution_is_complete env name :
  (forall r,
      lookup_model_details env name = Ok (Some r) ->
      truthy (res_model_id r) = true
      /\ truthy (res_system_prompt r) = true
      /\ exists d p,
          dict_get name (model_configs (settings env)) = Some (PDict d)
          /\ dict_get "provider" d = Some (PStr p)
          /\ In p ["openai"; "ollama"; "gemini"; "anthropic"; "perplexity";
                   "gemini_image"]
          /\ initialize_client env p = true
          /\ dict_get "model_id" d = Some (res_model_id r)
          /\ (p <> "gemini_image" -> provider_name (res_client r) = p))
  /\ (dict_get name (model_configs (settings env)) = None ->
      lookup_model_details env name = Ok None)
  /\ (dict_get name (model_configs (settings env)) = Some (PDict []) ->
      lookup_model_details env name = Ok None).
Proof.
  split; [|split].
  - intros r H.
    destruct (lookup_model_details_some env name r H)
      as (Hid & Hprompt & d & p & Hd & Hp & Hinit & Hclient & Hmid).
    split; [exact Hid|]. split; [exact Hprompt|].
    exists d, p. split; [exact Hd|]. split; [exact Hp|].
    unfold client_for in Hclient.
    destruct (String.eqb p "openai") eqn:E1.
    { apply String.eqb_eq in E1 as ->. injection Hclient as <-.
      simpl. auto 10. }
    destruct (String.eqb p "ollama") eqn:E2.
    { apply String.eqb_eq in E2 as ->. injection Hclient as <-.
      simpl. auto 10. }
    destruct (String.eqb p "gemini") eqn:E3.
    { apply String.eqb_eq in E3 as ->. injection Hclient as <-.
      simpl. auto 10. }
    destruct (String.eqb p "anthropic") eqn:E4.
    { apply String.eqb_eq in E4 as ->. injection Hclient as <-.
      simpl. auto 10. }
    destruct (String.eqb p "perplexity") eqn:E5.
    { apply String.eqb_eq in E5 as ->. injection Hclient as <-.
      simpl. auto 10. }
    destruct (String.eqb p "gemini_image") eqn:E6; [|discriminate].
    apply String.eqb_eq in E6 as ->. simpl. split; [auto 10|].
    split; [exact Hinit|]. split; [exact Hmid|]. congruence.
  - intros H. unfold lookup_model_details, dict_get_default. rewrite H.
    reflexivity.
  - intros H. unfold lookup_model_details, dict_get_default. rewrite H.
    reflexivity.
Qed.

(** ** The classifier call *)

(** X10.  When the text of the last message can be read and the
    registry lookup of the classifier model does not raise,
    [classify_message] always returns one of the four canonical labels,
    whatever the backend does.  It makes one registry lookup and, when
    that yields a client, one backend call: a single user message
    holding the text, temperature 0, [max_tokens] 25 and the resolved
    system prompt (the built-in classification instruction is never
    what is sent, a resolution always carrying a prompt).  Without
    messages or without a client it returns the default label. *)
Theorem classifier_outcome env msgs w :
  (forall m, last msgs = Some m ->
             exists text, get_text_from_content (content m) = Ok text) ->
  (exists res, lookup_model_details env (classifier_model (settings env))
               = Ok res) ->
  let cls := classifier_model (settings env) in
  (exists c, fst (classify_message env msgs w) = Ok c
             /\ In c valid_categories)
  /\ (msgs = [] -> classify_message env msgs w = (Ok default_category, w))
  /\ (msgs <> [] -> lookup_model_details env cls = Ok None ->
      classify_message env msgs w
      = (Ok default_category, add_events w [EvResolve cls]))
  /\ (forall m text r,
        last msgs = Some m ->
        get_text_from_content (content m) = Ok text ->
        lookup_model_details env cls = Ok (Some r) ->
        snd (classify_message env msgs w)
        = add_events w
            [EvResolve cls;
             EvGenerate FromClassifier (res_client r) (res_model_id r)
               [mkMessage "user" (CStr text)] 0
               (PDict [("max_tokens", PNum 25)]) (res_system_prompt r)]).
Proof.
  intros Htext Hreg cls. split; [|split; [|split]].
  - apply classify_message_labels; assumption.
  - intros ->. reflexivity.
  - intros Hne Hnone. unfold classify_message.
    destruct (last msgs) as [m|] eqn:Hlast;
      [|apply last_None in Hlast; congruence].
    destruct (Htext m eq_refl) as [text Ht].
    erewrite lift_bind_ok by exact Ht.
    unfold mbind, M_bind. rewrite get_llm_at. fold cls. rewrite Hnone.
    reflexivity.
  - intros m text r Hlast Ht Hsome. unfold classify_message.
    rewrite Hlast. erewrite lift_bind_ok by exact Ht.
    unfold mbind at 1. unfold M_bind at 1. rewrite get_llm_at. fold cls.
    rewrite Hsome.
    destruct (lookup_model_details_some env cls r Hsome) as (_ & Hp & _).
    rewrite Hp.
    unfold try_except, call_generate, emit. munfold. simpl.
    destruct (generate_response env _ _ _ _ _ _) as [response|e]; simpl.
    + destruct (reply_category response) as [category|e]; simpl.
      * destruct (normalize_category env category) as [c|e]; simpl;
          unfold add_events; simpl; rewrite <- app_assoc; reflexivity.
      * unfold add_events; simpl; rewrite <- app_assoc; reflexivity.
    + unfold add_events; simpl; rewrite <- app_assoc; reflexivity.
Qed.

Lemma classifier_outcome_witness :
  exists c, fst (classify_message sample_env [user_says "hello"] sample_world)
            = Ok c
            /\ In c valid_categories.
Proof.
  refine (proj1 (classifier_outcome sample_env [user_says "hello"]
                   sample_world _ _)).
  - intros m Hm. injection Hm as <-. eexists. reflexivity.
  - eexists. reflexivity.
Defined.

(** ** Letter case and white space *)

Lemma lower_ascii_idem c : Text.lower_ascii (Text.lower_ascii c) = Text.lower_ascii c.
Proof.
  destruct c as [[|] [|] [|] [|] [|] [|] [|] [|]]; vm_compute; reflexivity.
Qed.

Lemma is_space_lower_ascii c : Text.is_space (Text.lower_ascii c) = Text.is_space c.
Proof.
  destruct c as [[|] [|] [|] [|] [|] [|] [|] [|]]; vm_compute; reflexivity.
Qed.

Lemma lower_idem s : Text.lower (Text.lower s) = Text.lower s.
Proof.
  induction s as [|c s IH]; simpl; [reflexivity|].
  rewrite lower_ascii_idem, IH. reflexivity.
Qed.

Lemma lstrip_lower s :
  Text.lstrip_by Text.is_space (Text.lower s)
  = Text.lower (Text.lstrip_by Text.is_space s).
Proof.
  induction s as [|c s IH]; simpl; [reflexivity|].
  rewrite is_space_lower_ascii. destruct (Text.is_space c); [exact IH|].
  reflexivity.
Qed.

Lemma rstrip_lower s :
  Text.rstrip_by Text.is_space (Text.lower s)
  = Text.lower (Text.rstrip_by Text.is_space s).
Proof.
  induction s as [|c s IH]; simpl; [reflexivity|].
  rewrite IH, is_space_lower_ascii.
  destruct (Text.rstrip_by Text.is_space s); simpl.
  - destruct (Text.is_space c); reflexivity.
  - reflexivity.
Qed.

Lemma strip_lower s : Text.strip (Text.lower s) = Text.lower (Text.strip s).
Proof.
  unfold Text.strip, Text.strip_by. rewrite lstrip_lower, rstrip_lower.
  reflexivity.
Qed.

(** X11.  [_normalize_category] does not depend on the letter case of
    the reply, and each of the four canonical labels, in lower or in
    upper case as the classification instruction spells them, is
    normalized to itself. *)
Theorem normalize_category_ignores_case env category :
  normalize_category env (Text.lower category) = normalize_category env category
  /\ (In category valid_categories ->
      normalize_category env category = Ok category
      /\ normalize_category env (Text.upper category) = Ok category).
Proof.
  split.
  - unfold normalize_category. rewrite strip_lower, lower_idem. reflexivity.
  - simpl. intros [<-|[<-|[<-|[<-|[]]]]]; split; reflexivity.
Qed.

(** X12.  An escalation request is never also an explicit research
    request: the order of the two tests in the selection does not
    matter. *)
Theorem escalation_is_not_research text :
  is_escalation_request text = true -> is_research_request text = false.
Proof.
  unfold is_escalation_request, is_research_request.
  set (cleaned := Text.lower (Text.strip text)).
  unfold Text.mem. simpl. rewrite !orb_true_iff.
  intros [H|[H|[H|H]]]; try discriminate;
    apply String.eqb_eq in H; rewrite H; reflexivity.
Qed.

Lemma escalation_is_not_research_witness :
  is_research_request "  Escalate This " = false.
Proof.
  apply escalation_is_not_research. reflexivity.
Defined.

(** ** The research topic *)

Lemma split_once_none sep s :
  split_once sep s = None <-> Text.contains sep s = false.
Proof.
  induction s as [|c s IH].
  - simpl. destruct (Text.startswith sep ""); simpl; split; congruence.
  - simpl. destruct (Text.startswith sep (String c s)); simpl.
    + split; discriminate.
    + rewrite <- IH. destruct (split_once sep s) as [[a b]|]; split;
        congruence.
Qed.

Lemma startswith_app_r p s t :
  Text.startswith p s = true -> Text.startswith p (s ++ t) = true.
Proof.
  revert s. induction p as [|a p IH]; intros s; simpl; [reflexivity|].
  destruct s as [|b s]; simpl; [discriminate|].
  intros H. apply andb_true_iff in H as [Hab Hp].
  rewrite Hab. simpl. apply IH. exact Hp.
Qed.

Lemma contains_app_r p s t :
  Text.contains p s = true -> Text.contains p (s ++ t) = true.
Proof.
  induction s as [|c s IH]; simpl.
  - rewrite orb_false_r. intros H.
    destruct p as [|a p]; [|discriminate].
    destruct t; reflexivity.
  - intros H. apply orb_true_iff in H as [H|H].
    + change (String c (s ++ t)) with (String c s ++ t).
      rewrite (startswith_app_r _ _ t H). reflexivity.
    + rewrite (IH H). apply orb_true_r.
Qed.

Lemma contains_lstrip f p s :
  Text.contains p (Text.lstrip_by f s) = true -> Text.contains p s = true.
Proof.
  induction s as [|c s IH]; simpl; [auto|].
  destruct (f c); [|auto].
  intros H. rewrite (IH H). apply orb_true_r.
Qed.

Lemma rstrip_prefix f s : exists t, s = Text.rstrip_by f s ++ t.
Proof.
  induction s as [|c s [t IH]]; simpl.
  - exists "". reflexivity.
  - destruct (Text.rstrip_by f s) as [|d r] eqn:E.
    + destruct (f c).
      * exists (String c s). reflexivity.
      * exists t. change (String c s = String c t). f_equal. exact IH.
    + exists t. change (String c s = String c (String d r ++ t)).
      f_equal. exact IH.
Qed.

Lemma contains_strip p s :
  Text.contains p (Text.strip s) = true -> Text.contains p s = true.
Proof.
  unfold Text.strip, Text.strip_by. intros H.
  apply (contains_lstrip Text.is_space).
  destruct (rstrip_prefix Text.is_space (Text.lstrip_by Text.is_space s))
    as [t Ht].
  rewrite Ht. apply contains_app_r. exact H.
Qed.

Lemma after_phrase_found phrase prompt :
  Text.contains phrase prompt = true ->
  exists topic, after_phrase phrase prompt = Ok topic.
Proof.
  intros H. unfold after_phrase.
  destruct (split_once phrase prompt) as [[a b]|] eqn:E; [eauto|].
  apply split_once_none in E. congruence.
Qed.

Lemma after_phrase_missing phrase prompt :
  Text.contains phrase prompt = false ->
  after_phrase phrase prompt = Raise IndexError.
Proof.
  intros H. unfold after_phrase.
  apply split_once_none in H. rewrite H. reflexivity.
Qed.

Lemma extract_research_topic_phrase prompt context phrase :
  Text.contains_any context_triggers (Text.lower (Text.strip prompt)) = false ->
  first_topic_phrase (Text.lower (Text.strip prompt)) = Some phrase ->
  extract_research_topic prompt context = after_phrase phrase prompt.
Proof.
  intros Hctx Hfirst. unfold extract_research_topic. rewrite Hctx.
  unfold first_topic_phrase, topic_phrases in Hfirst. simpl in Hfirst.
  destruct (Text.contains "research about" _).
  { injection Hfirst as <-. reflexivity. }
  destruct (Text.contains "find information about" _).
  { injection Hfirst as <-. reflexivity. }
  destruct (Text.contains "what's the latest on" _); [|discriminate].
  injection Hfirst as <-. reflexivity.
Qed.

Lemma after_phrase_raises phrase prompt e :
  after_phrase phrase prompt = Raise e ->
  e = IndexError /\ Text.contains phrase prompt = false.
Proof.
  unfold after_phrase.
  destruct (split_once phrase prompt) as [[a b]|] eqn:E; [discriminate|].
  intros H. injection H as <-. split; [reflexivity|].
  apply split_once_none. exact E.
Qed.

(** X13.  [extract_research_topic] looks for its three explicit topic
    phrases ("research about", "find information about", "what's the
    latest on", in this order) in the trimmed, lower-cased prompt, but
    splits the prompt as it was written at the first phrase found.  When
    no context trigger is present and a phrase is found, the result is
    the trimmed text after the first occurrence of that phrase in the
    prompt as written, and [IndexError] when the phrase does not occur
    there (as in "Research About cats").  This is the only way the
    function raises, so on a prompt without upper-case letters it always
    returns a topic. *)
Theorem research_topic_letter_case prompt context :
  let prompt_lower := Text.lower (Text.strip prompt) in
  (forall e, extract_research_topic prompt context = Raise e -> e = IndexError)
  /\ (Text.lower prompt = prompt ->
      exists topic, extract_research_topic prompt context = Ok topic)
  /\ (forall phrase,
        Text.contains_any context_triggers prompt_lower = false ->
        first_topic_phrase prompt_lower = Some phrase ->
        (Text.contains phrase prompt = false ->
         extract_research_topic prompt context = Raise IndexError)
        /\ (forall before rest,
              split_once phrase prompt = Some (before, rest) ->
              extract_research_topic prompt context = Ok (Text.strip rest)))
  /\ (extract_research_topic prompt context = Raise IndexError
      <-> Text.contains_any context_triggers prompt_lower = false
          /\ exists phrase,
               first_topic_phrase prompt_lower = Some phrase
               /\ Text.contains phrase prompt = false).
Proof.
  intros prompt_lower.
  assert (Hraise : forall e,
             extract_research_topic prompt context = Raise e ->
             e = IndexError).
  { intros e. unfold extract_research_topic, after_phrase.
    repeat match goal with
           | |- context [if ?b then _ else _] => destruct b
           | |- context [match split_once ?a ?b with _ => _ end] =>
               destruct (split_once a b) as [[? ?]|]
           end; intros H; congruence. }
  split; [exact Hraise|]. split; [|split].
  - intros Hlow. unfold extract_research_topic.
    rewrite <- strip_lower, Hlow.
    destruct (Text.contains_any context_triggers _); [eauto|].
    destruct (Text.contains "research about" _) eqn:E1.
    { apply after_phrase_found, contains_strip, E1. }
    destruct (Text.contains "find information about" _) eqn:E2.
    { apply after_phrase_found, contains_strip, E2. }
    destruct (Text.contains "what's the latest on" _) eqn:E3.
    { apply after_phrase_found, contains_strip, E3. }
    destruct (_ && _); eauto.
  - intros phrase Hctx Hfirst.
    rewrite (extract_research_topic_phrase prompt context phrase Hctx Hfirst).
    split.
    + apply after_phrase_missing.
    + intros before rest Hsplit. unfold after_phrase. rewrite Hsplit.
      reflexivity.
  - split.
    + intros H. fold prompt_lower.
      destruct (Text.contains_any context_triggers prompt_lower) eqn:Hctx.
      { unfold extract_research_topic in H. fold prompt_lower in H.
        rewrite Hctx in H. discriminate. }
      split; [reflexivity|].
      destruct (first_topic_phrase prompt_lower) as [phrase|] eqn:Hfirst.
      * exists phrase. split; [reflexivity|].
        rewrite (extract_research_topic_phrase prompt context phrase
                   Hctx Hfirst) in H.
        apply after_phrase_raises in H as [_ H]. exact H.
      * exfalso. unfold extract_research_topic in H.
        fold prompt_lower in H. rewrite Hctx in H.
        unfold first_topic_phrase, topic_phrases in Hfirst.
        simpl in Hfirst.
        destruct (Text.contains "research about" prompt_lower);
          [discriminate|].
        destruct (Text.contains "find information about" prompt_lower);
          [discriminate|].
        destruct (Text.contains "what's the latest on" prompt_lower);
          [discriminate|].
        destruct (_ && _); discriminate.
    + intros (Hctx & phrase & Hfirst & Hout).
      rewrite (extract_research_topic_phrase prompt context phrase Hctx Hfirst).
      apply after_phrase_missing. exact Hout.
Qed.

(** ** The sticky windows *)

Lemma routing_update_vision now model tier hv hh s :
  vision_sticky_count (routing_update now model tier hv hh s)
  = vision_sticky_count (vision_update hv s)
  /\ has_vision_content (routing_update now model tier hv hh s)
     = has_vision_content (vision_update hv s).
Proof.
  unfold routing_update, tier_update, heavy_context_update, vision_update.
  destruct hv, hh; simpl; split_ifs; simpl; auto.
Qed.

Lemma heavy_context_update_fields hh a b :
  heavy_context_sticky_count a = heavy_context_sticky_count b ->
  heavy_context_active a = heavy_context_active b ->
  heavy_context_sticky_count (heavy_context_update hh a)
  = heavy_context_sticky_count (heavy_context_update hh b)
  /\ heavy_context_active (heavy_context_update hh a)
     = heavy_context_active (heavy_context_update hh b).
Proof.
  intros Hc Hf. unfold heavy_context_update. rewrite Hc.
  destruct hh; simpl; [auto|].
  destruct (0 <? heavy_context_sticky_count b)%Z; simpl; [|auto].
  rewrite ?Hc. destruct (_ =? 0)%Z; simpl; auto.
Qed.

Lemma routing_update_heavy now model tier hv hh s :
  heavy_context_sticky_count (routing_update now model tier hv hh s)
  = heavy_context_sticky_count (heavy_context_update hh s)
  /\ heavy_context_active (routing_update now model tier hv hh s)
     = heavy_context_active (heavy_context_update hh s).
Proof.
  unfold routing_update.
  set (a := vision_update hv _).
  assert (Ha : heavy_context_sticky_count a = heavy_context_sticky_count s
               /\ heavy_context_active a = heavy_context_active s).
  { unfold a, vision_update. destruct hv; simpl; split_ifs; simpl; auto. }
  destruct Ha as [Hc Hf].
  destruct (heavy_context_update_fields hh a s Hc Hf) as [<- <-].
  unfold tier_update. split_ifs; simpl; auto.
Qed.

Lemma vision_window_from calls :
  forall s,
    Forall (fun nc => rc_had_vision (snd nc) = false) calls ->
    (0 <= vision_sticky_count s)%Z ->
    (if (0 <? vision_sticky_count s)%Z then has_vision_content s = true
     else has_vision_content s = false) ->
    vision_sticky_count (apply_calls s calls)
    = Z.max 0 (vision_sticky_count s - Z.of_nat (length calls))
    /\ has_vision_content (apply_calls s calls)
       = (Z.of_nat (length calls) <? vision_sticky_count s)%Z.
Proof.
  induction calls as [|[now c] calls IH]; intros s Hq Hc Hf.
  - simpl. rewrite Z.sub_0_r. split; [lia|].
    change (Z.of_nat 0) with 0%Z.
    destruct (0 <? vision_sticky_count s)%Z; exact Hf.
  - apply Forall_cons in Hq as [Hq0 Hq]. simpl in Hq0.
    change (apply_calls s ((now, c) :: calls))
      with (apply_calls (apply_call s (now, c)) calls).
    set (s1 := apply_call s (now, c)).
    assert (H1 : vision_sticky_count s1
                 = Z.max 0 (vision_sticky_count s - 1)
                 /\ has_vision_content s1
                    = (1 <? vision_sticky_count s)%Z).
    { unfold s1, apply_call. simpl.
      destruct (routing_update_vision now (rc_selected_model c)
                  (rc_model_tier c) (rc_had_vision c)
                  (rc_had_heavy_context c) s) as [-> ->].
      rewrite Hq0. unfold vision_update.
      destruct (0 <? vision_sticky_count s)%Z eqn:E; simpl.
      - destruct (vision_sticky_count s - 1 =? 0)%Z eqn:E1; simpl; zbool.
        + split; [lia|]. symmetry. apply Z.ltb_ge. lia.
        + split; [lia|]. rewrite Hf. symmetry. apply Z.ltb_lt. lia.
      - zbool. split; [lia|]. rewrite Hf. symmetry. apply Z.ltb_ge. lia. }
    destruct H1 as [Hc1 Hf1].
    destruct (IH s1 Hq) as [IHc IHf].
    + lia.
    + rewrite Hc1, Hf1.
      destruct (0 <? Z.max 0 (vision_sticky_count s - 1))%Z eqn:E; zbool.
      * apply Z.ltb_lt. lia.
      * apply Z.ltb_ge. lia.
    + rewrite IHc, IHf, Hc1. simpl length. split; [lia|].
      destruct (Z.ltb_spec (Z.of_nat (length calls))
                  (Z.max 0 (vision_sticky_count s - 1)));
        symmetry; [apply Z.ltb_lt|apply Z.ltb_ge]; lia.
Qed.

Lemma heavy_window_from calls :
  forall s,
    Forall (fun nc => rc_had_heavy_context (snd nc) = false) calls ->
    (0 <= heavy_context_sticky_count s)%Z ->
    (if (0 <? heavy_context_sticky_count s)%Z then heavy_context_active s = true
     else heavy_context_active s = false) ->
    heavy_context_sticky_count (apply_calls s calls)
    = Z.max 0 (heavy_context_sticky_count s - Z.of_nat (length calls))
    /\ heavy_context_active (apply_calls s calls)
       = (Z.of_nat (length calls) <? heavy_context_sticky_count s)%Z.
Proof.
  induction calls as [|[now c] calls IH]; intros s Hq Hc Hf.
  - simpl. rewrite Z.sub_0_r. split; [lia|].
    change (Z.of_nat 0) with 0%Z.
    destruct (0 <? heavy_context_sticky_count s)%Z; exact Hf.
  - apply Forall_cons in Hq as [Hq0 Hq]. simpl in Hq0.
    change (apply_calls s ((now, c) :: calls))
      with (apply_calls (apply_call s (now, c)) calls).
    set (s1 := apply_call s (now, c)).
    assert (H1 : heavy_context_sticky_count s1
                 = Z.max 0 (heavy_context_sticky_count s - 1)
                 /\ heavy_context_active s1
                    = (1 <? heavy_context_sticky_count s)%Z).
    { unfold s1, apply_call. simpl.
      destruct (routing_update_heavy now (rc_selected_model c)
                  (rc_model_tier c) (rc_had_vision c)
                  (rc_had_heavy_context c) s) as [-> ->].
      rewrite Hq0. unfold heavy_context_update.
      destruct (0 <? heavy_context_sticky_count s)%Z eqn:E; simpl.
      - destruct (heavy_context_sticky_count s - 1 =? 0)%Z eqn:E1; simpl; zbool.
        + split; [lia|]. symmetry. apply Z.ltb_ge. lia.
        + split; [lia|]. rewrite Hf. symmetry. apply Z.ltb_lt. lia.
      - zbool. split; [lia|]. rewrite Hf. symmetry. apply Z.ltb_ge. lia. }
    destruct H1 as [Hc1 Hf1].
    destruct (IH s1 Hq) as [IHc IHf].
    + lia.
    + rewrite Hc1, Hf1.
      destruct (0 <? Z.max 0 (heavy_context_sticky_count s - 1))%Z eqn:E; zbool.
      * apply Z.ltb_lt. lia.
      * apply Z.ltb_ge. lia.
    + rewrite IHc, IHf, Hc1. simpl length. split; [lia|].
      destruct (Z.ltb_spec (Z.of_nat (length calls))
                  (Z.max 0 (heavy_context_sticky_count s - 1)));
        symmetry; [apply Z.ltb_lt|apply Z.ltb_ge]; lia.
Qed.

(** X14.  The sticky windows close on their own.  After a routing
    update that saw an image, [k] further updates without one leave
    [vision_sticky_count] at 3 - k (0 from the third on), and the
    conversation sticks to the vision model exactly while k < 3, the
    flag being cleared by the third; likewise a heavy-context update
    followed by [k] updates without heavy context leaves the counter
    at 2 - k and the flag set exactly while k < 2.  The other
    arguments of the updates do not matter. *)
Theorem sticky_windows_close s now model tier calls :
  (forall hh,
      Forall (fun nc => rc_had_vision (snd nc) = false) calls ->
      let s' := apply_calls (routing_update now model tier true hh s) calls in
      vision_sticky_count s' = Z.max 0 (3 - Z.of_nat (length calls))
      /\ has_vision_content s' = (length calls <? 3)%nat
      /\ should_stick_to_vision_model s' = (length calls <? 3)%nat
      /\ (should_stick_to_vision_model s' = true ->
          should_stick_to_heavy_model s' = true))
  /\ (forall hv,
        Forall (fun nc => rc_had_heavy_context (snd nc) = false) calls ->
        let s' := apply_calls (routing_update now model tier hv true s) calls in
        heavy_context_sticky_count s' = Z.max 0 (2 - Z.of_nat (length calls))
        /\ heavy_context_active s' = (length calls <? 2)%nat).
Proof.
  split.
  - intros hh Hq s'.
    destruct (routing_update_vision now model tier true hh s) as [Hc Hf].
    simpl in Hc, Hf.
    destruct (vision_window_from calls (routing_update now model tier true hh s)
                Hq) as [Hc' Hf'].
    + rewrite Hc. lia.
    + rewrite Hc, Hf. reflexivity.
    + fold s' in Hc', Hf'. rewrite Hc in Hc', Hf'.
      assert (Hb : (Z.of_nat (length calls) <? 3)%Z = (length calls <? 3)%nat).
      { destruct (Nat.ltb_spec (length calls) 3);
          [apply Z.ltb_lt|apply Z.ltb_ge]; lia. }
      rewrite Hb in Hf'.
      split; [exact Hc'|]. split; [exact Hf'|].
      unfold should_stick_to_heavy_model, should_stick_to_vision_model.
      rewrite Hc', Hf'. split.
      * destruct (Nat.ltb_spec (length calls) 3); simpl; [|reflexivity].
        apply Z.ltb_lt. lia.
      * intros ->. apply orb_true_r.
  - intros hv Hq s'.
    destruct (routing_update_heavy now model tier hv true s) as [Hc Hf].
    simpl in Hc, Hf.
    destruct (heavy_window_from calls (routing_update now model tier hv true s)
                Hq) as [Hc' Hf'].
    + rewrite Hc. lia.
    + rewrite Hc, Hf. reflexivity.
    + fold s' in Hc', Hf'. rewrite Hc in Hc', Hf'.
      assert (Hb : (Z.of_nat (length calls) <? 2)%Z = (length calls <? 2)%nat).
      { destruct (Nat.ltb_spec (length calls) 2);
          [apply Z.ltb_lt|apply Z.ltb_ge]; lia. }
      rewrite Hb in Hf'. auto.
Qed.

(** X15.  After [update_state_after_routing] the stored tier is always
    the tier that was passed, also on a vision or heavy-context turn
    (the "hard" they force is overwritten by the final tier step and
    only makes the message count restart when the passed tier is not
    "hard"); the model passed is recorded as the last one used, the
    clock reading as the last activity, and the count of messages since
    the last upgrade either restarts at 0 or grows by one, so it is
    never negative once it is not. *)
Theorem routing_update_records_tier now model tier hv hh s :
  let s' := routing_update now model tier hv hh s in
  active_model_tier s' = tier
  /\ last_model_used s' = Some model
  /\ last_activity s' = now
  /\ conversation_id s' = conversation_id s
  /\ topic_keywords s' = topic_keywords s
  /\ (message_count_since_upgrade s' = 0%Z
      \/ message_count_since_upgrade s'
         = (message_count_since_upgrade s + 1)%Z)
  /\ (hv || hh = true -> tier <> "hard" ->
      message_count_since_upgrade s' = 0%Z)
  /\ (hv || hh = false -> tier = active_model_tier s ->
      message_count_since_upgrade s'
      = (message_count_since_upgrade s + 1)%Z).
Proof.
  unfold routing_update, tier_update, heavy_context_update, vision_update.
  destruct hv, hh; simpl;
    repeat match goal with
           | |- context [String.eqb ?a ?b] =>
               destruct (String.eqb_spec a b)
           | |- context [if ?b then _ else _] => destruct b eqn:?
           end; simpl in *; repeat split; intros; auto; try congruence.
Qed.

(** ** The eviction pass *)

Lemma elem_of_list_filter_b {A : Type} (f : A -> bool) (l : list A) x :
  x ∈ List.filter f l <-> x ∈ l /\ f x = true.
Proof.
  rewrite !list_elem_of_In. apply List.filter_In.
Qed.

Lemma without_keys_filter ks :
  forall d,
    without_keys ks d
    = List.filter (fun e => negb (Text.mem (fst e) ks)) d.
Proof.
  induction ks as [|k ks IH]; intros d.
  - simpl. induction d as [|e d IHd]; simpl; [reflexivity|].
    rewrite <- IHd. reflexivity.
  - change (without_keys (k :: ks) d) with (without_keys ks (states_del k d)).
    rewrite IH. unfold states_del.
    induction d as [|e d IHd]; simpl; [reflexivity|].
    destruct (String.eqb (fst e) k); simpl.
    + exact IHd.
    + destruct (Text.mem (fst e) ks); simpl; [exact IHd|].
      rewrite IHd. reflexivity.
Qed.

Lemma elem_of_without_keys ks d e :
  e ∈ without_keys ks d <-> e ∈ d /\ Text.mem (fst e) ks = false.
Proof.
  rewrite without_keys_filter, elem_of_list_filter_b, negb_true_iff.
  reflexivity.
Qed.

Lemma mem_elem_of k ks : Text.mem k ks = true <-> k ∈ ks.
Proof.
  unfold Text.mem. rewrite existsb_exists. split.
  - intros (x & Hx & Heq). apply String.eqb_eq in Heq as ->.
    apply list_elem_of_In. exact Hx.
  - intros H. exists k. split; [apply list_elem_of_In; exact H|].
    apply String.eqb_refl.
Qed.

Lemma NoDup_keys_filter (f : string * nat -> bool) d :
  NoDup (map fst d) -> NoDup (map fst (List.filter f d)).
Proof.
  induction d as [|e d IH]; simpl; [auto|].
  intros H. apply NoDup_cons in H as [Hnot Hd].
  destruct (f e); simpl; [|auto].
  apply NoDup_cons. split; [|auto].
  intros Hin. apply Hnot.
  apply list_elem_of_fmap in Hin as (x & Hx & Hin).
  apply elem_of_list_filter_b in Hin as [Hin _].
  apply list_elem_of_fmap. eauto.
Qed.

Lemma states_del_absent k d : k ∉ map fst d -> states_del k d = d.
Proof.
  unfold states_del. induction d as [|e d IH]; simpl; [reflexivity|].
  intros H. apply not_elem_of_cons in H as [Hne Hd].
  destruct (String.eqb_spec (fst e) k); [congruence|]. simpl.
  rewrite IH by exact Hd. reflexivity.
Qed.

Lemma states_del_length k d :
  NoDup (map fst d) -> k ∈ map fst d ->
  S (length (states_del k d)) = length d.
Proof.
  induction d as [|e d IH]; simpl.
  - intros _ H. inversion H.
  - intros Hnd Hin. apply NoDup_cons in Hnd as [Hnot Hd].
    destruct (String.eqb_spec (fst e) k) as [Heq|Hne]; simpl.
    + fold (states_del k d). rewrite states_del_absent; [reflexivity|].
      congruence.
    + fold (states_del k d). f_equal. apply IH; [exact Hd|].
      apply elem_of_cons in Hin as [Hin|Hin]; [congruence|exact Hin].
Qed.

Lemma without_keys_length ks :
  forall d,
    NoDup (map fst d) -> NoDup ks -> (forall k, k ∈ ks -> k ∈ map fst d) ->
    (length (without_keys ks d) + length ks = length d)%nat.
Proof.
  induction ks as [|k ks IH]; intros d Hd Hks Hsub.
  - simpl. lia.
  - change (without_keys (k :: ks) d) with (without_keys ks (states_del k d)).
    apply NoDup_cons in Hks as [Hk Hks].
    pose proof (states_del_length k d Hd (Hsub k (list_elem_of_here _ _)))
      as Hlen.
    rewrite <- Hlen. simpl. rewrite <- (IH (states_del k d)); [lia| |exact Hks|].
    + apply NoDup_keys_filter. exact Hd.
    + intros k' Hk'.
      pose proof (Hsub k' (list_elem_of_further _ _ _ Hk')) as Hin.
      apply list_elem_of_fmap in Hin as (e & -> & He).
      apply list_elem_of_fmap. exists e. split; [reflexivity|].
      apply elem_of_list_filter_b. split; [exact He|].
      apply negb_true_iff. apply String.eqb_neq. congruence.
Qed.

Lemma insert_by_activity_perm x l : insert_by_activity x l ≡ₚ x :: l.
Proof.
  induction l as [|y l IH]; simpl; [reflexivity|].
  destruct (snd x <? snd y)%Z; [reflexivity|].
  rewrite IH. apply Permutation_swap.
Qed.

Lemma sort_by_activity_perm l : sort_by_activity l ≡ₚ l.
Proof.
  unfold sort_by_activity.
  assert (H : forall acc,
             fold_left (fun acc x => insert_by_activity x acc) l acc
             ≡ₚ l ++ acc).
  { induction l as [|x l IH]; intros acc; simpl; [reflexivity|].
    rewrite IH, insert_by_activity_perm.
    symmetry. apply Permutation_middle. }
  rewrite H, app_nil_r. reflexivity.
Qed.

Lemma with_activity_keys h d entries :
  with_activity h d = Ok entries -> map fst entries = map fst d.
Proof.
  revert entries. induction d as [|[k r] d IH]; simpl; intros entries.
  - intros H. injection H as <-. reflexivity.
  - destruct (h !! r) as [s|]; [|discriminate].
    destruct (with_activity h d) as [l|e]; [|discriminate].
    simpl. intros H. injection H as <-. simpl. f_equal. apply IH. reflexivity.
Qed.

Lemma with_activity_elem h d entries e s :
  with_activity h d = Ok entries ->
  e ∈ d -> h !! snd e = Some s -> (fst e, last_activity s) ∈ entries.
Proof.
  revert entries. induction d as [|[k r] d IH]; simpl; intros entries.
  - intros _ H. inversion H.
  - destruct (h !! r) as [s0|] eqn:Er; [|discriminate].
    destruct (with_activity h d) as [l|e0]; [|discriminate].
    simpl. intros H. injection H as <-.
    intros Hin Hs. apply elem_of_cons in Hin as [->|Hin].
    + simpl in Hs. rewrite Er in Hs. injection Hs as <-.
      apply list_elem_of_here.
    + apply list_elem_of_further. apply IH; auto.
Qed.

Lemma with_activity_filter h d entries f :
  with_activity h d = Ok entries ->
  exists entries1, with_activity h (List.filter f d) = Ok entries1.
Proof.
  revert entries. induction d as [|[k r] d IH]; simpl; intros entries.
  - eauto.
  - destruct (h !! r) as [s|] eqn:Er; [|discriminate].
    destruct (with_activity h d) as [l|e0]; [|discriminate].
    intros _. destruct (IH l eq_refl) as [l1 Hl1].
    destruct (f (k, r)); simpl; [|eauto].
    rewrite Er, Hl1. simpl. eauto.
Qed.

Lemma map_take_keys {A B : Type} (f : A -> B) n (l : list A) :
  map f (take n l) = take n (map f l).
Proof.
  revert n. induction l as [|x l IH]; intros [|n]; simpl; try reflexivity.
  rewrite IH. reflexivity.
Qed.

Lemma with_activity_live h d :
  Forall (entry_live h) d -> exists entries, with_activity h d = Ok entries.
Proof.
  induction 1 as [|[k r] d (s & Hs & _) _ [l IH]]; simpl; [eauto|].
  simpl in Hs. rewrite Hs, IH. simpl. eauto.
Qed.

Lemma cleanup_skipped env w :
  (clock env (ticks w) - last_cleanup (mgr w) <? 3600)%Z = true ->
  cleanup_old_conversations env w
  = (Ok tt, mkWorld (S (ticks w)) (heap w) (mgr w) (trace w)).
Proof.
  intros H. unfold cleanup_old_conversations, time_time, get_mgr.
  munfold. simpl. rewrite H. reflexivity.
Qed.

Lemma cleanup_ran env w entries entries1 :
  (clock env (ticks w) - last_cleanup (mgr w) <? 3600)%Z = false ->
  let now := clock env (S (ticks w)) in
  let m := mgr w in
  let states1 :=
    without_keys
      (map fst (List.filter (fun e => (cleanup_after_seconds m <? now - snd e)%Z)
                  entries))
      (states m) in
  with_activity (heap w) (states m) = Ok entries ->
  with_activity (heap w) states1 = Ok entries1 ->
  cleanup_old_conversations env w
  = (Ok tt,
     mkWorld (S (S (ticks w))) (heap w)
       (mkManager
          (if (max_conversations m <? Z.of_nat (length states1))%Z
           then without_keys
                  (map fst
                     (take (Z.to_nat (Z.of_nat (length states1)
                                      - max_conversations m))
                        (sort_by_activity entries1)))
                  states1
           else states1)
          (max_conversations m) (cleanup_after_seconds m) now)
       (trace w)).
Proof.
  intros H now m states1 He He1.
  unfold cleanup_old_conversations, time_time, get_mgr, get_heap, put_mgr.
  munfold. simpl. rewrite H. simpl. fold m. rewrite He. simpl.
  fold now. unfold without_keys in states1. fold states1. rewrite He1.
  reflexivity.
Qed.

Lemma store_wf_filter w f d :
  store_wf w -> d = List.filter f (states (mgr w)) ->
  NoDup (map fst d) /\ Forall (entry_live (heap w)) d.
Proof.
  intros [Hnd Hlive] ->. split; [apply NoDup_keys_filter; exact Hnd|].
  apply Forall_forall. intros e He.
  apply elem_of_list_filter_b in He as [He _].
  rewrite Forall_forall in Hlive. auto.
Qed.

(** X16.  The eviction pass on a well-formed table.  It never fails,
    never touches a state object and never adds an entry.  Less than an
    hour after the last pass it changes nothing.  Otherwise it records
    the time of the pass, leaves only entries whose object was active
    within the retention window, and leaves at most
    [max_conversations] entries (for a limit that is not negative);
    the table stays well formed. *)
Theorem eviction_pass env w :
  store_wf w ->
  let w' := snd (cleanup_old_conversations env w) in
  let now := clock env (S (ticks w)) in
  fst (cleanup_old_conversations env w) = Ok tt
  /\ heap w' = heap w /\ trace w' = trace w
  /\ store_wf w'
  /\ (forall e, e ∈ states (mgr w') -> e ∈ states (mgr w))
  /\ (~ cleanup_due env w -> mgr w' = mgr w)
  /\ (cleanup_due env w ->
      last_cleanup (mgr w') = now
      /\ Forall (fresh_enough (heap w) (cleanup_after_seconds (mgr w)) now)
           (states (mgr w'))
      /\ ((0 <= max_conversations (mgr w))%Z ->
          (Z.of_nat (length (states (mgr w'))) <= max_conversations (mgr w))%Z)).
Proof.
  intros Hwf w' now. unfold cleanup_due.
  destruct (clock env (ticks w) - last_cleanup (mgr w) <? 3600)%Z eqn:Edue.
  { subst w'. rewrite (cleanup_skipped env w Edue). simpl. zbool.
    repeat split; try (apply Hwf); auto; lia. }
  zbool.
  destruct Hwf as [Hnd Hlive].
  destruct (with_activity_live _ _ Hlive) as [entries He].
  set (expired := map fst (List.filter
                   (fun e => (cleanup_after_seconds (mgr w) <? now - snd e)%Z)
                   entries)).
  set (states1 := without_keys expired (states (mgr w))).
  assert (Hs1 : states1 = List.filter
                            (fun e => negb (Text.mem (fst e) expired))
                            (states (mgr w))).
  { apply without_keys_filter. }
  destruct (with_activity_filter (heap w) (states (mgr w)) entries
              (fun e => negb (Text.mem (fst e) expired)) He) as [entries1 He1].
  rewrite <- Hs1 in He1.
  pose proof (cleanup_ran env w entries entries1
                ltac:(apply Z.ltb_ge; lia) He He1) as Hrun.
  fold now in Hrun. fold expired in Hrun. fold states1 in Hrun.
  subst w'. rewrite Hrun. simpl. clear Hrun.
  destruct (store_wf_filter w _ states1 (conj Hnd Hlive) Hs1) as [Hnd1 Hlive1].
  set (victims := map fst
                    (take (Z.to_nat (Z.of_nat (length states1)
                                     - max_conversations (mgr w)))
                       (sort_by_activity entries1))).
  assert (Hfresh1 : Forall (fresh_enough (heap w)
                              (cleanup_after_seconds (mgr w)) now) states1).
  { apply Forall_forall. intros e He0 s Hs.
    apply elem_of_without_keys in He0 as [Hin Hmem].
    pose proof (with_activity_elem _ _ _ e s He Hin Hs) as Hentry.
    destruct (Z.ltb_spec (cleanup_after_seconds (mgr w))
                (now - last_activity s)) as [Hlt|Hge]; [|lia].
    assert (Text.mem (fst e) expired = true); [|congruence].
    apply mem_elem_of. unfold expired.
    apply list_elem_of_fmap. exists (fst e, last_activity s).
    split; [reflexivity|].
    apply elem_of_list_filter_b. split; [exact Hentry|].
    simpl. apply Z.ltb_lt. exact Hlt. }
  assert (Hvf : without_keys victims states1
                = List.filter (fun e => negb (Text.mem (fst e) victims))
                    states1) by apply without_keys_filter.
  split; [reflexivity|]. split; [reflexivity|]. split; [reflexivity|].
  split.
  { unfold store_wf. simpl.
    destruct (_ <? _)%Z; [|split; assumption].
    rewrite Hvf. split; [apply NoDup_keys_filter; exact Hnd1|].
    apply Forall_forall. intros e Hin.
    apply elem_of_list_filter_b in Hin as [Hin _].
    rewrite Forall_forall in Hlive1. auto. }
  split.
  { intros e Hin.
    assert (He1' : e ∈ states1).
    { destruct (_ <? _)%Z; [|exact Hin].
      apply elem_of_without_keys in Hin as [Hin _]. exact Hin. }
    apply elem_of_without_keys in He1' as [H _]. exact H. }
  split; [intros Hnot; lia|].
  intros _. split; [reflexivity|]. split.
  { destruct (_ <? _)%Z; [|exact Hfresh1].
    apply Forall_forall. intros e Hin.
    apply elem_of_without_keys in Hin as [Hin _].
    rewrite Forall_forall in Hfresh1. auto. }
  intros Hmax.
  destruct (Z.ltb_spec (max_conversations (mgr w))
              (Z.of_nat (length states1))) as [Hover|Hok]; [|lia].
  pose proof (with_activity_keys _ _ _ He1) as Hkeys.
  pose proof (sort_by_activity_perm entries1) as Hperm.
  assert (Hlen : length (sort_by_activity entries1) = length states1).
  { rewrite (Permutation_length Hperm).
    rewrite <- (length_map fst entries1), Hkeys, length_map. reflexivity. }
  assert (Hndv : NoDup victims).
  { unfold victims. rewrite map_take_keys.
    assert (Hsorted : NoDup (map fst (sort_by_activity entries1))).
    { rewrite (Permutation_map fst Hperm), Hkeys. exact Hnd1. }
    exact (sublist_NoDup _ _ Hsorted (sublist_take _ _)). }
  assert (Hsubv : forall k, k ∈ victims -> k ∈ map fst states1).
  { intros k Hk. unfold victims in Hk.
    apply list_elem_of_fmap in Hk as (x & -> & Hx).
    apply (elem_of_sublist _ (sort_by_activity entries1)) in Hx;
      [|apply sublist_take].
    rewrite Hperm in Hx. rewrite <- Hkeys.
    apply list_elem_of_fmap. eauto. }
  pose proof (without_keys_length victims states1 Hnd1 Hndv Hsubv) as Hcount.
  assert (Hlv : length victims
                = Z.to_nat (Z.of_nat (length states1)
                            - max_conversations (mgr w))).
  { unfold victims. rewrite length_map, length_take, Hlen. lia. }
  lia.
Qed.

Lemma eviction_pass_witness :
  states (mgr (snd (cleanup_old_conversations late_env crowded_world)))
  = [("c", 2%nat)]
  /\ store_wf (snd (cleanup_old_conversations late_env crowded_world)).
Proof.
  assert (Hwf : store_wf crowded_world).
  { split.
    - apply (bool_decide_unpack _). vm_compute. exact I.
    - simpl. repeat constructor; eexists; split; reflexivity. }
  split; [reflexivity|].
  exact (proj1 (proj2 (proj2 (proj2 (eviction_pass late_env crowded_world Hwf))))).
Defined.

(** ** Looking a conversation up *)

Lemma get_or_create_split env msgs w :
  get_or_create_state env msgs w
  = (cleanup_old_conversations env ≫= fun _ => lookup_or_create env msgs) w.
Proof. reflexivity. Qed.

Lemma insert_at_end {A : Type} (h : list A) (x y : A) :
  <[length h := y]> (h ++ [x])%list = (h ++ [y])%list.
Proof.
  rewrite <- (Nat.add_0_r (length h)) at 1.
  rewrite insert_app_r. reflexivity.
Qed.

Lemma lookup_at_end {A : Type} (h : list A) (x : A) :
  (h ++ [x])%list !! length h = Some x.
Proof. apply list_lookup_middle. reflexivity. Qed.

Lemma lookup_or_create_hit env msgs w cid r st :
  generate_conversation_id env msgs = Ok cid ->
  states_get cid (states (mgr w)) = Some r ->
  heap w !! r = Some st ->
  let st1 := set_last_activity (clock env (ticks w)) st in
  lookup_or_create env msgs w
  = match detect_topic_change msgs st1 with
    | Raise e =>
        (Raise e,
         mkWorld (S (ticks w)) (<[r := st1]> (heap w)) (mgr w) (trace w))
    | Ok changed =>
        let st2 := if changed : bool then reset_sticky st1 else st1 in
        match extract_topic_keywords msgs with
        | Raise e =>
            (Raise e,
             mkWorld (S (ticks w)) (<[r := st2]> (heap w)) (mgr w) (trace w))
        | Ok kws =>
            (Ok r,
             mkWorld (S (ticks w)) (<[r := set_topic_keywords kws st2]> (heap w))
               (mgr w) (trace w))
        end
    end.
Proof.
  intros Hid Hget Hst st1.
  assert (Hlt : (r < length (heap w))%nat) by (eapply lookup_lt_Some; eauto).
  unfold lookup_or_create.
  erewrite lift_bind_ok by exact Hid.
  unfold mbind at 1. unfold M_bind at 1. unfold get_mgr at 1.
  rewrite Hget.
  unfold mbind, M_bind, deref, time_time, assign, lift, mret, M_ret.
  simpl. rewrite Hst. fold st1.
  destruct (detect_topic_change msgs st1) as [[|]|e]; simpl;
    [| |reflexivity].
  - destruct (extract_topic_keywords msgs) as [kws|e]; simpl.
    + rewrite list_insert_insert_eq.
      rewrite list_lookup_insert_eq by exact Hlt. simpl.
      rewrite list_insert_insert_eq. reflexivity.
    + rewrite list_insert_insert_eq. reflexivity.
  - destruct (extract_topic_keywords msgs) as [kws|e]; simpl.
    + rewrite list_lookup_insert_eq by exact Hlt. simpl.
      rewrite list_insert_insert_eq. reflexivity.
    + reflexivity.
Qed.

Lemma lookup_or_create_miss env msgs w cid :
  generate_conversation_id env msgs = Ok cid ->
  states_get cid (states (mgr w)) = None ->
  lookup_or_create env msgs w
  = match extract_topic_keywords msgs with
    | Raise e => (Raise e, w)
    | Ok kws =>
        (Ok (length (heap w)),
         next_world w
           (heap w ++ [new_state cid kws (clock env (ticks w))])
           (states (mgr w) ++ [(cid, length (heap w))]))
    end.
Proof.
  intros Hid Hget. unfold lookup_or_create.
  erewrite lift_bind_ok by exact Hid.
  unfold mbind at 1. unfold M_bind at 1. unfold get_mgr at 1.
  rewrite Hget.
  unfold mbind, M_bind, deref, time_time, assign, alloc, put_mgr, lift,
    mret, M_ret.
  simpl.
  destruct (extract_topic_keywords msgs) as [kws|e]; simpl.
  - rewrite lookup_at_end. simpl. rewrite insert_at_end. reflexivity.
  - reflexivity.
Qed.

Lemma lookup_or_create_no_id env msgs w e :
  generate_conversation_id env msgs = Raise e ->
  lookup_or_create env msgs w = (Raise e, w).
Proof.
  intros Hid. unfold lookup_or_create.
  erewrite lift_bind_raise by exact Hid. reflexivity.
Qed.

Lemma states_get_elem k d r : states_get k d = Some r -> (k, r) ∈ d.
Proof.
  induction d as [|[k' r'] d IH]; simpl; [discriminate|].
  destruct (String.eqb_spec k k') as [->|Hne].
  - intros H. injection H as ->. apply list_elem_of_here.
  - intros H. apply list_elem_of_further. auto.
Qed.

Lemma states_get_none k d : states_get k d = None -> k ∉ map fst d.
Proof.
  induction d as [|[k' r'] d IH]; simpl.
  - intros _ H. inversion H.
  - destruct (String.eqb_spec k k') as [->|Hne]; [discriminate|].
    intros H Hin. apply elem_of_cons in Hin as [Hin|Hin]; [congruence|].
    exact (IH H Hin).
Qed.

Lemma states_get_snoc k d r :
  states_get k d = None -> states_get k (d ++ [(k, r)]) = Some r.
Proof.
  induction d as [|[k' r'] d IH]; simpl.
  - rewrite String.eqb_refl. reflexivity.
  - destruct (String.eqb k k'); [discriminate|]. exact IH.
Qed.

Lemma entry_live_insert h r s s' e :
  h !! r = Some s -> conversation_id s' = conversation_id s ->
  entry_live h e -> entry_live (<[r := s']> h) e.
Proof.
  intros Hr Hid (x & Hx & Hk). unfold entry_live.
  destruct (decide (snd e = r)) as [Heq|Hne].
  - exists s'. split.
    + rewrite Heq. apply list_lookup_insert_eq. eapply lookup_lt_Some. eauto.
    + rewrite Hid. rewrite Heq in Hx. congruence.
  - exists x. split; [|exact Hk].
    rewrite list_lookup_insert_ne by congruence. exact Hx.
Qed.

Lemma entry_live_app h l e : entry_live h e -> entry_live (h ++ l) e.
Proof.
  intros (x & Hx & Hk). exists x. split; [|exact Hk].
  rewrite lookup_app_l; [exact Hx|]. eapply lookup_lt_Some. eauto.
Qed.

Lemma list_filter_true {A : Type} (l : list A) :
  List.filter (fun _ => true) l = l.
Proof. induction l as [|x l IH]; simpl; congruence. Qed.

Lemma list_filter_twice {A : Type} (f g : A -> bool) (l : list A) :
  List.filter g (List.filter f l) = List.filter (fun x => f x && g x) l.
Proof.
  induction l as [|x l IH]; simpl; [reflexivity|].
  destruct (f x); simpl; [|exact IH].
  destruct (g x); simpl; congruence.
Qed.

(** The pass on a well-formed table never fails and only filters the
    table. *)
Lemma cleanup_filters env w :
  store_wf w ->
  exists f w0,
    cleanup_old_conversations env w = (Ok tt, w0)
    /\ heap w0 = heap w /\ trace w0 = trace w
    /\ states (mgr w0) = List.filter f (states (mgr w))
    /\ store_wf w0.
Proof.
  intros Hwf.
  destruct (clock env (ticks w) - last_cleanup (mgr w) <? 3600)%Z eqn:Edue.
  { exists (fun _ => true). eexists. split; [apply cleanup_skipped; exact Edue|].
    simpl. rewrite list_filter_true. repeat split; apply Hwf. }
  destruct Hwf as [Hnd Hlive].
  destruct (with_activity_live _ _ Hlive) as [entries He].
  set (now := clock env (S (ticks w))).
  set (expired := map fst (List.filter
                   (fun e => (cleanup_after_seconds (mgr w) <? now - snd e)%Z)
                   entries)).
  destruct (with_activity_filter (heap w) (states (mgr w)) entries
              (fun e => negb (Text.mem (fst e) expired)) He) as [entries1 He1].
  rewrite <- without_keys_filter in He1.
  pose proof (cleanup_ran env w entries entries1 Edue He He1) as Hrun.
  fold now in Hrun. fold expired in Hrun.
  set (states1 := without_keys expired (states (mgr w))) in *.
  set (victims := map fst (take _ (sort_by_activity entries1))) in Hrun.
  exists (fun e => negb (Text.mem (fst e) expired)
                   && (if (max_conversations (mgr w)
                           <? Z.of_nat (length states1))%Z
                       then negb (Text.mem (fst e) victims) else true)).
  eexists. split; [exact Hrun|]. simpl.
  assert (Heq : (if (max_conversations (mgr w) <? Z.of_nat (length states1))%Z
                 then without_keys victims states1 else states1)
                = List.filter
                    (fun e => negb (Text.mem (fst e) expired)
                              && (if (max_conversations (mgr w)
                                      <? Z.of_nat (length states1))%Z
                                  then negb (Text.mem (fst e) victims)
                                  else true))
                    (states (mgr w))).
  { destruct (max_conversations (mgr w) <? Z.of_nat (length states1))%Z.
    - rewrite <- list_filter_twice. rewrite without_keys_filter.
      unfold states1. rewrite without_keys_filter. reflexivity.
    - rewrite <- list_filter_twice, list_filter_true. unfold states1.
      apply without_keys_filter. }
  split; [reflexivity|]. split; [reflexivity|]. split; [exact Heq|].
  unfold store_wf. simpl. rewrite Heq. split.
  - apply NoDup_keys_filter. exact Hnd.
  - apply Forall_forall. intros e Hin.
    apply elem_of_list_filter_b in Hin as [Hin _].
    rewrite Forall_forall in Hlive. auto.
Qed.

Lemma set_fields_keep_id now kws s (changed : bool) :
  conversation_id
    (set_topic_keywords kws
       (if changed then reset_sticky (set_last_activity now s)
        else set_last_activity now s))
  = conversation_id s.
Proof. destruct changed; reflexivity. Qed.

Lemma store_wf_insert w r s s' :
  store_wf w -> heap w !! r = Some s ->
  conversation_id s' = conversation_id s ->
  forall n,
    store_wf (mkWorld n (<[r := s']> (heap w)) (mgr w) (trace w)).
Proof.
  intros [Hnd Hlive] Hr Hid n. split; [exact Hnd|]. simpl.
  eapply Forall_impl; [exact Hlive|].
  intros e He. eapply entry_live_insert; eauto.
Qed.

(** [lookup_or_create] on a well-formed table. *)
Lemma lookup_or_create_wf env msgs w :
  store_wf w -> store_wf (snd (lookup_or_create env msgs w)).
Proof.
  intros Hwf.
  destruct (generate_conversation_id env msgs) as [cid|e] eqn:Hid.
  2:{ rewrite (lookup_or_create_no_id env msgs w e Hid). exact Hwf. }
  destruct (states_get cid (states (mgr w))) as [r|] eqn:Hget.
  - pose proof (states_get_elem _ _ _ Hget) as Hin.
    destruct Hwf as [Hnd Hlive].
    pose proof Hlive as Hlive'. rewrite Forall_forall in Hlive'.
    destruct (Hlive' _ Hin) as (st & Hst & Hk). simpl in Hst, Hk.
    rewrite (lookup_or_create_hit env msgs w cid r st Hid Hget Hst).
    destruct (detect_topic_change msgs _) as [changed|e]; simpl.
    + destruct (extract_topic_keywords msgs) as [kws|e]; simpl.
      * apply (store_wf_insert w r st); [split; assumption|exact Hst|].
        apply set_fields_keep_id.
      * apply (store_wf_insert w r st); [split; assumption|exact Hst|].
        destruct changed; reflexivity.
    + apply (store_wf_insert w r st); [split; assumption|exact Hst|].
      reflexivity.
  - rewrite (lookup_or_create_miss env msgs w cid Hid Hget).
    destruct (extract_topic_keywords msgs) as [kws|e]; simpl; [|exact Hwf].
    destruct Hwf as [Hnd Hlive]. split; simpl.
    + rewrite map_app. apply NoDup_app. split; [exact Hnd|]. split.
      * intros k Hk Hk'. simpl in Hk'.
        apply list_elem_of_singleton in Hk' as ->.
        exact (states_get_none _ _ Hget Hk).
      * simpl. apply NoDup_singleton.
    + apply Forall_app. split.
      * eapply Forall_impl; [exact Hlive|].
        intros e He. apply entry_live_app. exact He.
      * constructor; [|constructor].
        eexists. split; [apply lookup_at_end|reflexivity].
Qed.

Lemma run_op_wf env op w : store_wf w -> store_wf (run_op env op w).
Proof.
  intros Hwf. destruct op as [msgs|r c]; simpl.
  - rewrite get_or_create_split.
    destruct (cleanup_filters env w Hwf) as (f & w0 & Hc & _ & _ & _ & Hwf0).
    erewrite bind_ok by exact Hc. apply lookup_or_create_wf. exact Hwf0.
  - destruct (heap w !! r) as [s|] eqn:Hr.
    + erewrite update_state_after_routing_at by exact Hr. simpl.
      apply (store_wf_insert w r s); [exact Hwf|exact Hr|].
      unfold routing_update, tier_update, heavy_context_update, vision_update.
      split_ifs; reflexivity.
    + unfold update_state_after_routing, mbind, M_bind, deref.
      rewrite Hr. exact Hwf.
Qed.

(** X17.  The state table stays a proper dict of live objects: after
    any sequence of [get_or_create_state] and
    [update_state_after_routing] calls on a process started with an
    empty table, no two entries share a conversation id, every entry
    refers to a state object, and that object carries the id it is
    filed under. *)
Theorem store_stays_well_formed env ops max_conv retention started :
  store_wf (run_ops env ops (initial_world max_conv retention started)).
Proof.
  assert (H : forall w, store_wf w -> store_wf (run_ops env ops w)).
  { induction ops as [|op ops IH]; intros w Hw; simpl; [exact Hw|].
    apply IH, run_op_wf, Hw. }
  apply H. split; simpl; constructor.
Qed.

(** A call of [get_or_create_state] that returns, on a well-formed
    table: the eviction pass ran to [w0], the fingerprint and the
    keywords could be computed, and the call either found the
    fingerprint in the table or filed a new object under it. *)
Lemma get_or_create_state_ok env msgs w r w' :
  store_wf w ->
  get_or_create_state env msgs w = (Ok r, w') ->
  exists w0 cid kws,
    cleanup_old_conversations env w = (Ok tt, w0)
    /\ store_wf w0 /\ heap w0 = heap w /\ trace w0 = trace w
    /\ generate_conversation_id env msgs = Ok cid
    /\ extract_topic_keywords msgs = Ok kws
    /\ ((exists st changed,
           states_get cid (states (mgr w0)) = Some r
           /\ heap w0 !! r = Some st /\ conversation_id st = cid
           /\ detect_topic_change msgs
                (set_last_activity (clock env (ticks w0)) st) = Ok changed
           /\ w' = mkWorld (S (ticks w0))
                     (<[r := set_topic_keywords kws
                               (if changed : bool
                                then reset_sticky
                                       (set_last_activity (clock env (ticks w0)) st)
                                else set_last_activity (clock env (ticks w0)) st)]>
                        (heap w0))
                     (mgr w0) (trace w0))
        \/ (states_get cid (states (mgr w0)) = None
            /\ r = length (heap w0)
            /\ w' = next_world w0
                      (heap w0 ++ [new_state cid kws (clock env (ticks w0))])
                      (states (mgr w0) ++ [(cid, r)]))).
Proof.
  intros Hwf Hrun. rewrite get_or_create_split in Hrun.
  destruct (cleanup_filters env w Hwf)
    as (f & w0 & Hc & Hheap & Htrace & _ & Hwf0).
  erewrite bind_ok in Hrun by exact Hc.
  exists w0.
  destruct (generate_conversation_id env msgs) as [cid|e] eqn:Hid.
  2:{ rewrite (lookup_or_create_no_id env msgs w0 e Hid) in Hrun.
      discriminate. }
  exists cid.
  destruct (states_get cid (states (mgr w0))) as [r0|] eqn:Hget.
  - pose proof (states_get_elem _ _ _ Hget) as Hin.
    pose proof Hwf0 as [Hnd Hlive]. rewrite Forall_forall in Hlive.
    destruct (Hlive _ Hin) as (st & Hst & Hk). simpl in Hst, Hk.
    rewrite (lookup_or_create_hit env msgs w0 cid r0 st Hid Hget Hst) in Hrun.
    destruct (detect_topic_change msgs _) as [changed|e] eqn:Hd; [|discriminate].
    destruct (extract_topic_keywords msgs) as [kws|e]; [|discriminate].
    simpl in Hrun. injection Hrun as <- <-.
    exists kws. repeat (split; [first [assumption|reflexivity]|]).
    left. exists st, changed. auto.
  - rewrite (lookup_or_create_miss env msgs w0 cid Hid Hget) in Hrun.
    destruct (extract_topic_keywords msgs) as [kws|e]; [|discriminate].
    injection Hrun as <- <-.
    exists kws. repeat (split; [first [assumption|reflexivity]|]).
    right. auto.
Qed.

(** X18.  What [get_or_create_state] hands out.  On a well-formed table
    a call that returns gives a reference that the table files under the
    fingerprint of the conversation; the object behind it carries that
    fingerprint as its id and the keywords just extracted from the
    messages.  The object is either one that was there before the call,
    or a new one with the default fields, added at the end of the heap;
    no other state object is touched and nothing is logged to the
    routing trace. *)
Theorem get_or_create_state_returns env msgs w r w' :
  store_wf w ->
  get_or_create_state env msgs w = (Ok r, w') ->
  exists cid kws s,
    generate_conversation_id env msgs = Ok cid
    /\ extract_topic_keywords msgs = Ok kws
    /\ states_get cid (states (mgr w')) = Some r
    /\ heap w' !! r = Some s
    /\ conversation_id s = cid
    /\ topic_keywords s = kws
    /\ trace w' = trace w
    /\ (forall r', r' <> r -> heap w' !! r' = heap w !! r')
    /\ ((exists s0, heap w !! r = Some s0 /\ conversation_id s0 = cid
                    /\ length (heap w') = length (heap w))
        \/ (r = length (heap w)
            /\ exists now, heap w' = (heap w ++ [new_state cid kws now])%list)).
Proof.
  intros Hwf Hrun.
  destruct (get_or_create_state_ok env msgs w r w' Hwf Hrun)
    as (w0 & cid & kws & _ & _ & Hheap & Htrace & Hid & Hkws & Hcase).
  rewrite <- Hheap, <- Htrace. exists cid, kws.
  destruct Hcase as [(st & changed & Hget & Hst & Hk & _ & ->)
                    |(Hget & -> & ->)]; simpl.
  - pose proof (lookup_lt_Some _ _ _ Hst) as Hlt.
    eexists.
    split; [exact Hid|]. split; [exact Hkws|]. split; [exact Hget|].
    split; [apply list_lookup_insert_eq; exact Hlt|].
    split; [rewrite set_fields_keep_id; exact Hk|].
    split; [reflexivity|]. split; [reflexivity|]. split.
    + intros r' Hne. apply list_lookup_insert_ne. congruence.
    + left. exists st. rewrite length_insert. auto.
  - eexists.
    split; [exact Hid|]. split; [exact Hkws|].
    split; [apply states_get_snoc; exact Hget|].
    split; [apply lookup_at_end|].
    split; [reflexivity|]. split; [reflexivity|]. split; [reflexivity|]. split.
    + intros r' Hne.
      destruct (decide (r' < length (heap w0))%nat) as [Hlt|Hge].
      * apply lookup_app_l. exact Hlt.
      * rewrite (lookup_ge_None_2 (heap w0)) by lia.
        apply lookup_ge_None_2. rewrite length_app. simpl. lia.
    + right. split; [reflexivity|]. eexists. reflexivity.
Qed.

Lemma get_or_create_state_returns_witness :
  exists cid kws s,
    generate_conversation_id sample_env [user_says "rust borrow checker"] = Ok cid
    /\ extract_topic_keywords [user_says "rust borrow checker"] = Ok kws
    /\ states_get cid
         (states (mgr (snd (get_or_create_state sample_env
                              [user_says "rust borrow checker"] sample_world))))
       = Some 0%nat
    /\ heap (snd (get_or_create_state sample_env
                    [user_says "rust borrow checker"] sample_world)) !! 0%nat
       = Some s
    /\ conversation_id s = cid
    /\ topic_keywords s = kws
    /\ trace (snd (get_or_create_state sample_env
                     [user_says "rust borrow checker"] sample_world))
       = trace sample_world
    /\ (forall r', r' <> 0%nat ->
          heap (snd (get_or_create_state sample_env
                       [user_says "rust borrow checker"] sample_world)) !! r'
          = heap sample_world !! r')
    /\ ((exists s0, heap sample_world !! 0%nat = Some s0
                    /\ conversation_id s0 = cid
                    /\ length (heap (snd (get_or_create_state sample_env
                                 [user_says "rust borrow checker"] sample_world)))
                       = length (heap sample_world))
        \/ (0%nat = length (heap sample_world)
            /\ exists now,
                 heap (snd (get_or_create_state sample_env
                              [user_says "rust borrow checker"] sample_world))
                 = (heap sample_world ++ [new_state cid kws now])%list)).
Proof.
  apply (get_or_create_state_returns sample_env
           [user_says "rust borrow checker"] sample_world).
  - split; simpl; constructor.
  - vm_compute. reflexivity.
Defined.

(** ** The same conversation looked up again *)

Lemma remove_dups_app_absorb (a b : list string) :
  (forall x, x ∈ a -> x ∈ b) -> remove_dups (a ++ b)%list = remove_dups b.
Proof.
  induction a as [|x a IH]; intros Hsub; [reflexivity|].
  simpl. destruct (decide_rel elem_of x (a ++ b)%list) as [_|Hn].
  - apply IH. intros y Hy. apply Hsub. apply list_elem_of_further. exact Hy.
  - exfalso. apply Hn. apply elem_of_app. right. apply Hsub.
    apply list_elem_of_here.
Qed.

Lemma list_filter_all {A : Type} (f : A -> bool) (l : list A) :
  (forall x, x ∈ l -> f x = true) -> List.filter f l = l.
Proof.
  induction l as [|x l IH]; intros H; simpl; [reflexivity|].
  rewrite (H x) by apply list_elem_of_here. f_equal. apply IH.
  intros y Hy. apply H. apply list_elem_of_further. exact Hy.
Qed.

Lemma overlap_count_self l : overlap_count l l = length (remove_dups l).
Proof.
  unfold overlap_count. rewrite list_filter_all; [reflexivity|].
  intros x Hx. apply mem_elem_of. apply elem_of_remove_dups. exact Hx.
Qed.

Lemma union_count_self l : union_count l l = length (remove_dups l).
Proof.
  unfold union_count. rewrite remove_dups_app_absorb; auto.
Qed.

(** Keywords compared with themselves never count as drift. *)
Lemma detect_topic_change_same msgs st m text kws :
  last msgs = Some m ->
  get_text_from_content (content m) = Ok text ->
  Text.contains_any topic_change_indicators (Text.lower text) = false ->
  extract_topic_keywords msgs = Ok kws ->
  topic_keywords st = kws ->
  detect_topic_change msgs st = Ok false.
Proof.
  intros Hlast Htext Hmark Hkws Hst. unfold detect_topic_change.
  rewrite Hlast, Htext. rewrite result_bind_ok. rewrite Hmark, Hkws.
  rewrite result_bind_ok. rewrite Hst.
  destruct kws as [|k kws']; [reflexivity|].
  rewrite overlap_count_self, union_count_self.
  pose proof (extract_topic_keywords_length _ _ Hkws) as Hlen.
  pose proof (length_remove_dups (k :: kws')) as Hle.
  assert (Hpos : (1 <= length (remove_dups (k :: kws')))%nat).
  { assert (H : k ∈ remove_dups (k :: kws')).
    { apply elem_of_remove_dups. apply list_elem_of_here. }
    destruct (remove_dups (k :: kws')); [inversion H|simpl; lia]. }
  set (n := length (remove_dups (k :: kws'))) in *.
  destruct (0 <? n)%nat; [|reflexivity].
  rewrite overlap_ratio_exact by lia.
  unfold ratio_below_30_percent. f_equal. apply Z.ltb_ge. lia.
Qed.

Lemma detect_topic_change_marker msgs st m text :
  last msgs = Some m ->
  get_text_from_content (content m) = Ok text ->
  Text.contains_any topic_change_indicators (Text.lower text) = true ->
  detect_topic_change msgs st = Ok true.
Proof.
  intros Hlast Htext Hmark. unfold detect_topic_change.
  rewrite Hlast, Htext. rewrite result_bind_ok. rewrite Hmark. reflexivity.
Qed.

(** After a call that returned [r], the table files [r] under the
    fingerprint and the object has the extracted keywords. *)
Lemma get_or_create_state_filed env msgs w r w1 :
  store_wf w ->
  get_or_create_state env msgs w = (Ok r, w1) ->
  exists cid kws s1,
    generate_conversation_id env msgs = Ok cid
    /\ extract_topic_keywords msgs = Ok kws
    /\ states_get cid (states (mgr w1)) = Some r
    /\ heap w1 !! r = Some s1
    /\ topic_keywords s1 = kws.
Proof.
  intros Hwf Hrun.
  destruct (get_or_create_state_ok env msgs w r w1 Hwf Hrun)
    as (w0 & cid & kws & _ & _ & _ & _ & Hid & Hkws & Hcase).
  exists cid, kws.
  destruct Hcase as [(st & changed & Hget & Hst & Hk & _ & ->)
                    |(Hget & -> & ->)]; simpl.
  - eexists. split; [exact Hid|]. split; [exact Hkws|]. split; [exact Hget|].
    split; [apply list_lookup_insert_eq; eapply lookup_lt_Some; exact Hst|].
    destruct changed; reflexivity.
  - eexists. split; [exact Hid|]. split; [exact Hkws|].
    split; [apply states_get_snoc; exact Hget|].
    split; [apply lookup_at_end|]. reflexivity.
Qed.

(** A lookup of a fingerprint that is in the table, when no eviction
    pass is due. *)
Lemma get_or_create_state_hit env msgs w cid r st :
  ~ cleanup_due env w ->
  generate_conversation_id env msgs = Ok cid ->
  states_get cid (states (mgr w)) = Some r ->
  heap w !! r = Some st ->
  let st1 := set_last_activity (clock env (S (ticks w))) st in
  get_or_create_state env msgs w
  = match detect_topic_change msgs st1 with
    | Raise e => (Raise e, mkWorld (S (S (ticks w))) (<[r := st1]> (heap w))
                             (mgr w) (trace w))
    | Ok changed =>
        let st2 := if changed : bool then reset_sticky st1 else st1 in
        match extract_topic_keywords msgs with
        | Raise e => (Raise e, mkWorld (S (S (ticks w))) (<[r := st2]> (heap w))
                                 (mgr w) (trace w))
        | Ok kws => (Ok r, mkWorld (S (S (ticks w)))
                             (<[r := set_topic_keywords kws st2]> (heap w))
                             (mgr w) (trace w))
        end
    end.
Proof.
  intros Hdue Hid Hget Hst st1. rewrite get_or_create_split.
  assert (Hskip : (clock env (ticks w) - last_cleanup (mgr w) <? 3600)%Z = true).
  { apply Z.ltb_lt. unfold cleanup_due in Hdue. lia. }
  erewrite bind_ok by (apply cleanup_skipped; exact Hskip).
  cbv beta.
  rewrite (lookup_or_create_hit env msgs
             (mkWorld (S (ticks w)) (heap w) (mgr w) (trace w))
             cid r st Hid Hget Hst).
  reflexivity.
Qed.

(** X19.  A request repeated with the same messages.  When the first
    call of [get_or_create_state] returned, the last message can be read
    and no eviction pass is due, the second call returns the same state
    object and leaves the table and every other object alone.  Comparing
    the keywords with themselves never counts as drift, so the object is
    left as it was, its time stamp apart, unless the last message holds a
    topic-change marker; with a marker the sticky state is reset on every
    repetition. *)
Theorem repeated_lookup env msgs w r w1 m text :
  store_wf w ->
  get_or_create_state env msgs w = (Ok r, w1) ->
  ~ cleanup_due env w1 ->
  last msgs = Some m ->
  get_text_from_content (content m) = Ok text ->
  exists w2 s1 s2,
    get_or_create_state env msgs w1 = (Ok r, w2)
    /\ heap w1 !! r = Some s1 /\ heap w2 !! r = Some s2
    /\ same_but_activity s2
         (if has_topic_marker msgs then reset_sticky s1 else s1)
    /\ last_activity s2 = clock env (S (ticks w1))
    /\ mgr w2 = mgr w1 /\ trace w2 = trace w1
    /\ (forall r', r' <> r -> heap w2 !! r' = heap w1 !! r').
Proof.
  intros Hwf Hrun Hdue Hlast Htext.
  destruct (get_or_create_state_filed env msgs w r w1 Hwf Hrun)
    as (cid & kws & s1 & Hid & Hkws & Hget & Hs1 & Hk).
  pose proof (get_or_create_state_hit env msgs w1 cid r s1 Hdue Hid Hget Hs1)
    as Hsecond.
  simpl in Hsecond. rewrite Hkws in Hsecond.
  pose proof (lookup_lt_Some _ _ _ Hs1) as Hlt.
  assert (Hmarker : has_topic_marker msgs
                    = Text.contains_any topic_change_indicators (Text.lower text)).
  { unfold has_topic_marker. rewrite Hlast, Htext. reflexivity. }
  rewrite Hmarker.
  destruct (Text.contains_any topic_change_indicators (Text.lower text))
    eqn:Hmark.
  - rewrite (detect_topic_change_marker msgs _ m text Hlast Htext Hmark)
      in Hsecond.
    eexists. exists s1. eexists. split; [exact Hsecond|]. simpl.
    split; [exact Hs1|].
    split; [apply list_lookup_insert_eq; exact Hlt|].
    split; [|split; [reflexivity|split; [reflexivity|split; [reflexivity|]]]].
    + unfold same_but_activity. destruct s1. simpl in Hk. subst. reflexivity.
    + intros r' Hne. apply list_lookup_insert_ne. congruence.
  - rewrite (detect_topic_change_same msgs _ m text kws Hlast Htext Hmark Hkws)
      in Hsecond by exact Hk.
    eexists. exists s1. eexists. split; [exact Hsecond|]. simpl.
    split; [exact Hs1|].
    split; [apply list_lookup_insert_eq; exact Hlt|].
    split; [|split; [reflexivity|split; [reflexivity|split; [reflexivity|]]]].
    + unfold same_but_activity. destruct s1. simpl in Hk. subst. reflexivity.
    + intros r' Hne. apply list_lookup_insert_ne. congruence.
Qed.

Lemma repeated_lookup_witness :
  exists w2 s1 s2,
    get_or_create_state sample_env rust_question (after_lookup rust_question)
    = (Ok 0%nat, w2)
    /\ heap (after_lookup rust_question) !! 0%nat = Some s1
    /\ heap w2 !! 0%nat = Some s2
    /\ same_but_activity s2
         (if has_topic_marker rust_question then reset_sticky s1 else s1)
    /\ last_activity s2
       = clock sample_env (S (ticks (after_lookup rust_question)))
    /\ mgr w2 = mgr (after_lookup rust_question)
    /\ trace w2 = trace (after_lookup rust_question)
    /\ (forall r', r' <> 0%nat ->
          heap w2 !! r' = heap (after_lookup rust_question) !! r').
Proof.
  apply (repeated_lookup sample_env rust_question sample_world 0
           (after_lookup rust_question)
           (user_says "rust borrow checker") "rust borrow checker").
  - split; simpl; constructor.
  - vm_compute. reflexivity.
  - unfold cleanup_due. vm_compute. intros H. apply H. reflexivity.
  - reflexivity.
  - reflexivity.
Defined.

(** ** Conversations with the same opening *)

Lemma generate_conversation_id_opening env m1 rest1 m2 rest2 t1 t2 :
  get_text_from_content (content m1) = Ok t1 ->
  get_text_from_content (content m2) = Ok t2 ->
  Text.take 200 t1 = Text.take 200 t2 ->
  length rest1 = length rest2 ->
  generate_conversation_id env (m1 :: rest1)
  = generate_conversation_id env (m2 :: rest2).
Proof.
  intros H1 H2 Ht Hl. unfold generate_conversation_id.
  rewrite H1, H2. rewrite !result_bind_ok. simpl length.
  rewrite Ht, Hl. reflexivity.
Qed.

(** X20.  The fingerprint of a conversation reads only the first 200
    characters of its first message and the number of messages.  Two
    conversations that agree on these get the same id, so the second
    one is served the state object of the first (when no eviction pass
    is due in between): no object is created for it, and it inherits the
    first conversation's [has_vision_content] flag and
    [last_model_used]. *)
Theorem same_opening_shares_state
  env m1 rest1 m2 rest2 t1 t2 w r1 w1 r2 w2 :
  store_wf w ->
  get_text_from_content (content m1) = Ok t1 ->
  get_text_from_content (content m2) = Ok t2 ->
  Text.take 200 t1 = Text.take 200 t2 ->
  length rest1 = length rest2 ->
  get_or_create_state env (m1 :: rest1) w = (Ok r1, w1) ->
  ~ cleanup_due env w1 ->
  get_or_create_state env (m2 :: rest2) w1 = (Ok r2, w2) ->
  generate_conversation_id env (m1 :: rest1)
  = generate_conversation_id env (m2 :: rest2)
  /\ r2 = r1
  /\ mgr w2 = mgr w1
  /\ length (heap w2) = length (heap w1)
  /\ exists s1 s2,
       heap w1 !! r1 = Some s1 /\ heap w2 !! r1 = Some s2
       /\ has_vision_content s2 = has_vision_content s1
       /\ last_model_used s2 = last_model_used s1.
Proof.
  intros Hwf H1 H2 Ht Hl Hfirst Hdue Hsecond.
  pose proof (generate_conversation_id_opening env m1 rest1 m2 rest2 t1 t2
                H1 H2 Ht Hl) as Hsame.
  split; [exact Hsame|].
  destruct (get_or_create_state_filed env _ w r1 w1 Hwf Hfirst)
    as (cid & kws & s1 & Hid & _ & Hget & Hs1 & _).
  rewrite Hsame in Hid.
  rewrite (get_or_create_state_hit env _ w1 cid r1 s1 Hdue Hid Hget Hs1)
    in Hsecond.
  pose proof (lookup_lt_Some _ _ _ Hs1) as Hlt.
  cbv zeta in Hsecond.
  destruct (detect_topic_change _ _) as [changed|e]; [|discriminate].
  destruct (extract_topic_keywords (m2 :: rest2)) as [kws2|e]; [|discriminate].
  injection Hsecond as <- <-. simpl.
  split; [reflexivity|]. split; [reflexivity|].
  split; [apply length_insert|].
  exists s1. eexists. split; [exact Hs1|].
  split; [apply list_lookup_insert_eq; exact Hlt|].
  destruct changed; split; reflexivity.
Qed.

Lemma same_opening_shares_state_witness :
  generate_conversation_id sample_env travel_chat
  = generate_conversation_id sample_env cooking_chat
  /\ 0%nat = 0%nat
  /\ mgr (snd (get_or_create_state sample_env cooking_chat
                 (after_lookup travel_chat)))
     = mgr (after_lookup travel_chat)
  /\ length (heap (snd (get_or_create_state sample_env cooking_chat
                          (after_lookup travel_chat))))
     = length (heap (after_lookup travel_chat))
  /\ exists s1 s2,
       heap (after_lookup travel_chat) !! 0%nat = Some s1
       /\ heap (snd (get_or_create_state sample_env cooking_chat
                       (after_lookup travel_chat))) !! 0%nat = Some s2
       /\ has_vision_content s2 = has_vision_content s1
       /\ last_model_used s2 = last_model_used s1.
Proof.
  apply (same_opening_shares_state sample_env
           (user_says "hello there")
           [assistant_says "hi"; user_says "plan a trip to rome"]
           (user_says "hello there")
           [assistant_says "hey"; user_says "bake sourdough bread"]
           "hello there" "hello there" sample_world 0
           (after_lookup travel_chat) 0).
  - split; simpl; constructor.
  - reflexivity.
  - reflexivity.
  - reflexivity.
  - reflexivity.
  - vm_compute. reflexivity.
  - unfold cleanup_due. vm_compute. intros H. apply H. reflexivity.
  - vm_compute. reflexivity.
Defined.

(** ** The endpoints *)

Lemma startswith_drop p a :
  Text.startswith p a = true -> a = p ++ drop_str (String.length p) a.
Proof.
  revert a. induction p as [|c p IH]; intros a; simpl.
  - intros _. destruct a; reflexivity.
  - destruct a as [|b a]; [discriminate|].
    intros H. apply andb_true_iff in H as [Hc Hp].
    apply Ascii.eqb_eq in Hc as ->.
    change (String b a = String b (p ++ drop_str (String.length p) a)).
    f_equal. apply IH. exact Hp.
Qed.

Lemma validate_api_key_unauthorized authorization e :
  validate_api_key authorization = Raise e -> is_unauthorized e.
Proof.
  unfold validate_api_key.
  destruct authorization as [[|c a]|].
  - intros H. injection H as <-. eexists. reflexivity.
  - destruct (_ <? _)%nat; [|discriminate].
    intros H. injection H as <-. eexists. reflexivity.
  - intros H. injection H as <-. eexists. reflexivity.
Qed.

(** X21.  Which requests [validate_api_key] lets through.  A header is
    accepted exactly when, with one leading [Bearer ] removed, it is at
    least 10 characters long, and the key returned is that remainder;
    the key is compared with nothing.  Every refusal is an HTTP 401. *)
Theorem api_key_acceptance authorization :
  (forall k,
     validate_api_key authorization = Ok k <->
     (10 <= String.length k)%nat
     /\ (authorization = Some ("Bearer " ++ k)
         \/ (authorization = Some k /\ Text.startswith "Bearer " k = false)))
  /\ (forall e, validate_api_key authorization = Raise e -> is_unauthorized e).
Proof.
  split; [|intros e; apply validate_api_key_unauthorized].
  intros k. split.
  - unfold validate_api_key. destruct authorization as [[|c a]|];
      [discriminate| |discriminate].
    destruct (Text.startswith "Bearer " (String c a)) eqn:Hb.
    + destruct (_ <? _)%nat eqn:Hlen; [discriminate|].
      intros H. injection H as <-. apply Nat.ltb_ge in Hlen.
      split; [exact Hlen|]. left. f_equal.
      exact (startswith_drop "Bearer " _ Hb).
    + destruct (_ <? _)%nat eqn:Hlen; [discriminate|].
      intros H. injection H as <-. apply Nat.ltb_ge in Hlen.
      split; [exact Hlen|]. right. auto.
  - intros [Hlen [->|[-> Hb]]].
    + change (validate_api_key (Some ("Bearer " ++ k)))
        with (if (String.length k <? 10)%nat
              then Raise (HTTPException 401 "Invalid API key format")
              else Ok k).
      rewrite (proj2 (Nat.ltb_ge _ _) Hlen). reflexivity.
    + unfold validate_api_key. destruct k as [|c k]; [simpl in Hlen; lia|].
      rewrite Hb. rewrite (proj2 (Nat.ltb_ge _ _) Hlen). reflexivity.
Qed.

Lemma route_and_process_store env req w :
  heap (snd (route_and_process env req w)) = heap w
  /\ mgr (snd (route_and_process env req w)) = mgr w.
Proof.
  destruct (route_and_process_records env req w) as (Hh & Hm & _).
  auto.
Qed.

(** X22.  The chat endpoint always answers.  Whatever the header, the
    body and the backends do, [smart_route_chat_completions] returns a
    value and never raises: every exception comes back as an ordinary
    reply holding an error object whose message is the fixed prefix
    followed by the text of the exception.  For a refused key that text
    is "401: " and the detail, and the request stops before any registry
    lookup or backend call; for an empty message list it is "400: No
    messages provided."; for any other HTTP error of the router it is
    the status, a colon and the detail.  A canonical completion is only
    returned for an accepted key and a valid body, and it is the
    router's.  The state store is never touched. *)
Theorem chat_endpoint_always_answers env reload authorization body w :
  let out := smart_route_chat_completions env reload authorization body w in
  (exists f, fst out = Ok f)
  /\ heap (snd out) = heap w /\ mgr (snd out) = mgr w
  /\ (forall e,
        reload = Ok tt -> validate_api_key authorization = Raise e ->
        exists detail,
          e = HTTPException 401 detail
          /\ out = (Ok (Passthrough (critical_error ("401: " ++ detail))), w))
  /\ (forall k req,
        reload = Ok tt -> validate_api_key authorization = Ok k ->
        body = Ok req -> messages req = [] ->
        out = (Ok (Passthrough
                     (critical_error "400: No messages provided.")), w))
  /\ (forall k req e,
        reload = Ok tt -> validate_api_key authorization = Ok k ->
        body = Ok req ->
        fst (route_and_process env req w) = Raise e ->
        exists message,
          fst out = Ok (Passthrough (critical_error message))
          /\ forall status_code detail,
               e = HTTPException status_code detail ->
               message = pretty status_code ++ ": " ++ detail)
  /\ (forall c,
        fst out = Ok (Canonical c) ->
        exists k req,
          validate_api_key authorization = Ok k /\ body = Ok req
          /\ route_and_process env req w = (Ok (Canonical c), snd out)).
Proof.
  unfold smart_route_chat_completions, try_except. munfold.
  destruct reload as [[]|e0]; simpl.
  2:{ repeat split; eauto; try discriminate. }
  destruct (validate_api_key authorization) as [k|e1] eqn:Hkey; simpl.
  2:{ split; [eauto|]. split; [reflexivity|]. split; [reflexivity|].
      split.
      { intros e _ H. injection H as <-.
        destruct (validate_api_key_unauthorized _ _ Hkey) as [detail ->].
        exists detail. split; reflexivity. }
      split; [discriminate|]. split; discriminate. }
  destruct body as [req|e2]; simpl.
  2:{ split; [eauto|]. split; [reflexivity|]. split; [reflexivity|].
      split; [discriminate|]. split; [discriminate|]. split; discriminate. }
  pose proof (route_and_process_store env req w) as [Hheap Hmgr].
  assert (Hempty : messages req = [] ->
                   route_and_process env req w
                   = (Raise (HTTPException 400 "No messages provided."), w)).
  { intros Hm. unfold route_and_process. rewrite Hm. reflexivity. }
  destruct (route_and_process env req w) as [[f|e3] w'] eqn:Hroute;
    simpl in *.
  - split; [eauto|]. split; [exact Hheap|]. split; [exact Hmgr|].
    split; [discriminate|]. split.
    { intros k' req' _ _ H Hm. injection H as <-.
      specialize (Hempty Hm). discriminate. }
    split.
    + intros k' req' e _ _ H He. injection H as <-.
      rewrite Hroute in He. discriminate.
    + intros c H. injection H as ->. exists k, req. auto.
  - split; [eauto|]. split; [exact Hheap|]. split; [exact Hmgr|].
    split; [discriminate|]. split.
    { intros k' req' _ _ H Hm. injection H as <-.
      specialize (Hempty Hm). injection Hempty as -> ->. reflexivity. }
    split.
    + intros k' req' e _ _ H He. injection H as <-.
      rewrite Hroute in He. simpl in He. injection He as <-.
      exists (exn_text e3). split; [reflexivity|].
      intros status_code detail ->. reflexivity.
    + discriminate.
Qed.

(** ** The debug endpoints *)

Lemma states_get_some_key k d :
  k ∈ map fst d -> exists r, states_get k d = Some r.
Proof.
  induction d as [|[k' r'] d IH]; simpl.
  - intros H. inversion H.
  - intros H. destruct (String.eqb_spec k k') as [->|Hne]; [eauto|].
    apply elem_of_cons in H as [Heq|H]; [congruence|auto].
Qed.

Lemma states_get_live w k r :
  store_wf w -> states_get k (states (mgr w)) = Some r ->
  exists st, heap w !! r = Some st /\ conversation_id st = k.
Proof.
  intros [_ Hlive] Hget. rewrite Forall_forall in Hlive.
  exact (Hlive _ (states_get_elem _ _ _ Hget)).
Qed.

(** The summary of a conversation of a well-formed table. *)
Lemma get_state_summary_wf w cid :
  store_wf w ->
  exists d,
    get_state_summary cid w = (Ok d, w)
    /\ match states_get cid (states (mgr w)) with
       | None => d = [("status", PStr "not_found")]
       | Some r =>
           exists st,
             heap w !! r = Some st
             /\ dict_get "status" d = None
             /\ dict_get "conversation_id" d = Some (PStr cid)
             /\ dict_get "topic_keywords" d
                = Some (PList (map PStr (take 5 (topic_keywords st))))
             /\ dict_get "active_model_tier" d
                = Some (PStr (active_model_tier st))
             /\ dict_get "has_vision_content" d
                = Some (PBool (has_vision_content st))
             /\ dict_get "vision_sticky_count" d
                = Some (PNum (vision_sticky_count st))
             /\ dict_get "heavy_context_active" d
                = Some (PBool (heavy_context_active st))
             /\ dict_get "heavy_context_sticky_count" d
                = Some (PNum (heavy_context_sticky_count st))
             /\ dict_get "total_conversations_tracked" d
                = Some (PNum (Z.of_nat (length (states (mgr w)))))
       end.
Proof.
  intros Hwf. unfold get_state_summary, get_mgr, deref. munfold.
  destruct (states_get cid (states (mgr w))) as [r|] eqn:Hget.
  - destruct (states_get_live w cid r Hwf Hget) as (st & Hst & Hk).
    rewrite Hst. eexists. split; [reflexivity|].
    exists st. rewrite Hk. repeat split.
  - eexists. split; reflexivity.
Qed.

(** X23.  The conversation summary of the debug endpoint.  On a
    well-formed table [get_state_summary] never fails and changes
    nothing; it answers [not_found] exactly for an id that is not in the
    table, and otherwise reports, from the state object filed under the
    id, the id asked for, the first 5 of its stored keywords (all of
    them when there are fewer), its tier, flags and counters, and the
    size of the table.  The endpoint returns that summary for an
    accepted key and raises the HTTP 401 of a refused one. *)
Theorem state_summary_reports w cid authorization :
  store_wf w ->
  (exists d,
     get_state_summary cid w = (Ok d, w)
     /\ (dict_get "status" d = Some (PStr "not_found")
         <-> cid ∉ map fst (states (mgr w)))
     /\ (cid ∈ map fst (states (mgr w)) ->
         exists r st,
           states_get cid (states (mgr w)) = Some r
           /\ heap w !! r = Some st
           /\ dict_get "conversation_id" d = Some (PStr cid)
           /\ dict_get "topic_keywords" d
              = Some (PList (map PStr (take 5 (topic_keywords st))))
           /\ dict_get "active_model_tier" d
              = Some (PStr (active_model_tier st))
           /\ dict_get "has_vision_content" d
              = Some (PBool (has_vision_content st))
           /\ dict_get "vision_sticky_count" d
              = Some (PNum (vision_sticky_count st))
           /\ dict_get "heavy_context_active" d
              = Some (PBool (heavy_context_active st))
           /\ dict_get "heavy_context_sticky_count" d
              = Some (PNum (heavy_context_sticky_count st))
           /\ dict_get "total_conversations_tracked" d
              = Some (PNum (Z.of_nat (length (states (mgr w))))))
     /\ (forall k, validate_api_key authorization = Ok k ->
         debug_specific_conversation cid authorization w = (Ok d, w)))
  /\ (forall e, validate_api_key authorization = Raise e ->
      is_unauthorized e
      /\ debug_specific_conversation cid authorization w = (Raise e, w)).
Proof.
  intros Hwf. split.
  - destruct (get_state_summary_wf w cid Hwf) as (d & Hrun & Hd).
    exists d. split; [exact Hrun|].
    destruct (states_get cid (states (mgr w))) as [r|] eqn:Hget.
    + destruct Hd as (st & Hst & Hstatus & Hid & Hkws & Htier & Hvis & Hvc
                      & Hheavy & Hhc & Htotal).
      pose proof (states_get_elem _ _ _ Hget) as Hin.
      assert (Hkey : cid ∈ map fst (states (mgr w))).
      { apply list_elem_of_fmap. exists (cid, r). auto. }
      split.
      { rewrite Hstatus. split; [discriminate|]. intros H. destruct (H Hkey). }
      split.
      { intros _. exists r, st. repeat (split; [assumption || reflexivity|]).
        exact Htotal. }
      intros k Hk. unfold debug_specific_conversation.
      rewrite (lift_bind_ok _ _ w k Hk). exact Hrun.
    + subst d. split.
      { split; [intros _; exact (states_get_none _ _ Hget)|reflexivity]. }
      split.
      { intros Hin. destruct (states_get_none _ _ Hget Hin). }
      intros k Hk. unfold debug_specific_conversation.
      rewrite (lift_bind_ok _ _ w k Hk). exact Hrun.
  - intros e He. split; [exact (validate_api_key_unauthorized _ _ He)|].
    unfold debug_specific_conversation.
    apply (lift_bind_raise _ _ w e He).
Qed.

Lemma state_summary_reports_witness :
  (exists d,
     get_state_summary "b" crowded_world = (Ok d, crowded_world)
     /\ (dict_get "status" d = Some (PStr "not_found")
         <-> "b" ∉ map fst (states (mgr crowded_world)))
     /\ ("b" ∈ map fst (states (mgr crowded_world)) ->
         exists r st,
           states_get "b" (states (mgr crowded_world)) = Some r
           /\ heap crowded_world !! r = Some st
           /\ dict_get "conversation_id" d = Some (PStr "b")
           /\ dict_get "topic_keywords" d
              = Some (PList (map PStr (take 5 (topic_keywords st))))
           /\ dict_get "active_model_tier" d
              = Some (PStr (active_model_tier st))
           /\ dict_get "has_vision_content" d
              = Some (PBool (has_vision_content st))
           /\ dict_get "vision_sticky_count" d
              = Some (PNum (vision_sticky_count st))
           /\ dict_get "heavy_context_active" d
              = Some (PBool (heavy_context_active st))
           /\ dict_get "heavy_context_sticky_count" d
              = Some (PNum (heavy_context_sticky_count st))
           /\ dict_get "total_conversations_tracked" d
              = Some (PNum (Z.of_nat (length (states (mgr crowded_world))))))
     /\ (forall k, validate_api_key (Some "Bearer 0123456789") = Ok k ->
         debug_specific_conversation "b" (Some "Bearer 0123456789")
           crowded_world
         = (Ok d, crowded_world)))
  /\ (forall e, validate_api_key (Some "Bearer 0123456789") = Raise e ->
      is_unauthorized e
      /\ debug_specific_conversation "b" (Some "Bearer 0123456789")
           crowded_world
         = (Raise e, crowded_world)).
Proof.
  apply (state_summary_reports crowded_world "b" (Some "Bearer 0123456789")).
  split.
  - apply (bool_decide_unpack _). vm_compute. exact I.
  - repeat constructor; eexists; split; reflexivity.
Defined.

Lemma for_each_summaries w ks :
  store_wf w ->
  (forall k, k ∈ ks -> k ∈ map fst (states (mgr w))) ->
  exists ds,
    for_each get_state_summary ks w = (Ok ds, w)
    /\ map (dict_get "conversation_id") ds = map (fun k => Some (PStr k)) ks
    /\ Forall (fun d => dict_get "status" d = None) ds.
Proof.
  intros Hwf. induction ks as [|k ks IH]; intros Hin.
  - exists []. repeat split; constructor.
  - destruct IH as (ds & Hds & Hids & Hst).
    { intros k' Hk'. apply Hin. apply list_elem_of_further. exact Hk'. }
    destruct (get_state_summary_wf w k Hwf) as (d & Hrun & Hd).
    destruct (states_get_some_key k (states (mgr w))) as [r Hget].
    { apply Hin. apply list_elem_of_here. }
    rewrite Hget in Hd. destruct Hd as (st & _ & Hstatus & Hid & _).
    exists (d :: ds). split.
    + simpl. erewrite bind_ok by exact Hrun.
      erewrite bind_ok by exact Hds. reflexivity.
    + split; [simpl; rewrite Hid, Hids; reflexivity|].
      constructor; assumption.
Qed.

(** X24.  The listing of the debug endpoint.  On a well-formed table
    and with an accepted key [debug_conversations] never fails and
    changes nothing; it reports the size of the table and, when the
    table is not empty, the summaries of its first 10 conversations in
    the order of the table: [showing] is the smaller of 10 and the size,
    each summary carries the id of its entry and none is [not_found].  A
    refused key raises its HTTP 401. *)
Theorem debug_listing authorization w :
  store_wf w ->
  (forall k, validate_api_key authorization = Ok k ->
     exists d,
       debug_conversations authorization w = (Ok d, w)
       /\ dict_get "total_conversations" d
          = Some (PNum (Z.of_nat (length (states (mgr w)))))
       /\ (states (mgr w) = [] -> dict_get "conversations" d = Some (PList []))
       /\ (states (mgr w) <> [] ->
           exists ds,
             dict_get "conversations" d = Some (PList (map PDict ds))
             /\ dict_get "showing" d
                = Some (PNum (Z.of_nat (min 10 (length (states (mgr w))))))
             /\ map (dict_get "conversation_id") ds
                = map (fun k => Some (PStr k))
                    (take 10 (map fst (states (mgr w))))
             /\ Forall (fun d => dict_get "status" d = None) ds))
  /\ (forall e, validate_api_key authorization = Raise e ->
      is_unauthorized e
      /\ debug_conversations authorization w = (Raise e, w)).
Proof.
  intros Hwf. split.
  - intros k Hk. unfold debug_conversations.
    rewrite (lift_bind_ok _ _ w k Hk). unfold get_mgr. munfold.
    destruct (states (mgr w)) as [|e0 d0] eqn:Hstates.
    + eexists. split; [reflexivity|]. repeat split. intros H. destruct (H eq_refl).
    + rewrite <- Hstates.
      assert (Hnz : (length (states (mgr w)) =? 0)%nat = false).
      { rewrite Hstates. reflexivity. }
      rewrite Hnz.
      destruct (for_each_summaries w (take 10 (map fst (states (mgr w)))) Hwf)
        as (ds & Hds & Hids & Hst).
      { intros k' Hk'. exact (subseteq_take _ _ _ Hk'). }
      rewrite Hds. eexists. split; [reflexivity|].
      split; [reflexivity|]. split.
      { intros H. rewrite H in Hstates. discriminate. }
      intros _. exists ds. split; [reflexivity|]. split.
      { assert (Hlen : length ds = min 10 (length (states (mgr w)))).
        { rewrite <- (length_map (dict_get "conversation_id") ds), Hids.
          rewrite length_map, length_take, length_map. reflexivity. }
        rewrite <- Hlen. reflexivity. }
      split; assumption.
  - intros e He. split; [exact (validate_api_key_unauthorized _ _ He)|].
    unfold debug_conversations.
    apply (lift_bind_raise _ _ w e He).
Qed.

Lemma debug_listing_witness :
  (forall k, validate_api_key (Some "0123456789") = Ok k ->
     exists d,
       debug_conversations (Some "0123456789") crowded_world
       = (Ok d, crowded_world)
       /\ dict_get "total_conversations" d
          = Some (PNum (Z.of_nat (length (states (mgr crowded_world)))))
       /\ (states (mgr crowded_world) = [] ->
           dict_get "conversations" d = Some (PList []))
       /\ (states (mgr crowded_world) <> [] ->
           exists ds,
             dict_get "conversations" d = Some (PList (map PDict ds))
             /\ dict_get "showing" d
                = Some (PNum (Z.of_nat
                               (min 10 (length (states (mgr crowded_world))))))
             /\ map (dict_get "conversation_id") ds
                = map (fun k => Some (PStr k))
                    (take 10 (map fst (states (mgr crowded_world))))
             /\ Forall (fun d => dict_get "status" d = None) ds))
  /\ (forall e, validate_api_key (Some "0123456789") = Raise e ->
      is_unauthorized e
      /\ debug_conversations (Some "0123456789") crowded_world
         = (Raise e, crowded_world)).
Proof.
  apply (debug_listing (Some "0123456789") crowded_world).
  split.
  - apply (bool_decide_unpack _). vm_compute. exact I.
  - repeat constructor; eexists; split; reflexivity.
Defined.

(** ** The replies of the Perplexity client *)

Lemma py_len_truthy v n : truthy v = true -> py_len v = Ok n -> (0 <? n)%Z = true.
Proof.
  destruct v as [| | |s|l|d]; simpl; try discriminate.
  - destruct s; [discriminate|]. intros _ H. injection H as <-.
    apply Z.ltb_lt. simpl. lia.
  - destruct l; [discriminate|]. intros _ H. injection H as <-.
    apply Z.ltb_lt. simpl. lia.
  - destruct d; [discriminate|]. intros _ H. injection H as <-.
    apply Z.ltb_lt. simpl. lia.
Qed.

(** A reply built by the conversion goes through the router's
    formatting as a chat completion. *)
Lemma perplexity_completion_formats env id created model_id text usage name w :
  log_response_preview
    (RDict (perplexity_completion id created model_id text usage)) = Ok tt
  /\ exists c w',
       format_openai_response env
         (RDict (perplexity_completion id created model_id text usage)) name w
       = (Ok (Canonical c), w')
       /\ cc_model c = name /\ cc_usage c = usage
       /\ (cc_content c = PStr text
           \/ cc_content c = PStr (name ++ " - " ++ text)).
Proof.
  split; [reflexivity|].
  unfold format_openai_response.
  change (is_image_batch (perplexity_completion id created model_id text usage))
    with false.
  change (dict_has "error" (perplexity_completion id created model_id text usage))
    with false.
  cbv iota. unfold standard_completion.
  change (standard_content_usage
            (RDict (perplexity_completion id created model_id text usage)))
    with (Ok (A := pyval * pyval) (PStr text, usage)).
  munfold. unfold lift. cbv beta iota. unfold debug_prefix.
  destruct (String.eqb _ "DEBUG").
  - destruct (negb _); simpl; do 2 eexists;
      (split; [reflexivity|]); simpl; auto.
  - simpl. do 2 eexists. split; [reflexivity|]. simpl. auto.
Qed.

Lemma string_append_nil_r (s : string) : s ++ "" = s.
Proof.
  induction s as [|c s IH]; [reflexivity|].
  change (String c (s ++ "") = String c s). f_equal. exact IH.
Qed.

Lemma perplexity_content_text_spec acc content_item acc' :
  perplexity_content_text acc content_item = Ok acc' ->
  (exists d, content_item = PDict d)
  /\ acc' = acc ++ content_item_text content_item.
Proof.
  unfold perplexity_content_text, content_item_text.
  destruct content_item as [| | | | |d]; try discriminate.
  unfold py_get, part_is, dict_get_default. rewrite result_bind_ok.
  intros H. split; [eauto|]. revert H.
  destruct (dict_get "type" d) as [[| | |t| |]|]; simpl;
    try (intros H; injection H as <-; symmetry; apply string_append_nil_r).
  destruct (String.eqb t "text").
  - destruct (dict_get "text" d) as [[| | |x| |]|]; try discriminate;
      intros H; injection H as <-; reflexivity.
  - intros H. injection H as <-. symmetry. apply string_append_nil_r.
Qed.

Lemma perplexity_content_fold content_items :
  forall acc acc',
    result_fold perplexity_content_text content_items acc = Ok acc' ->
    Forall (fun v => exists d, v = PDict d) content_items
    /\ acc' = acc ++ concat_texts (map content_item_text content_items).
Proof.
  induction content_items as [|x l IH]; intros acc acc'.
  - simpl. intros H. injection H as <-. split; [constructor|].
    symmetry. apply string_append_nil_r.
  - simpl. destruct (perplexity_content_text acc x) as [a1|e] eqn:Hx;
      [|discriminate].
    rewrite result_bind_ok. intros H.
    apply perplexity_content_text_spec in Hx as [Hd ->].
    apply IH in H as [Hall ->]. split; [constructor; assumption|].
    apply string_append_assoc.
Qed.

(** The values over which the inner loop runs when it ends without an
    exception are the items of a list; a string or a dict must be
    empty. *)
Lemma perplexity_content_iter v content_items acc acc' :
  py_iter v = Ok content_items ->
  result_fold perplexity_content_text content_items acc = Ok acc' ->
  acc' = acc ++ match v with
                | PList l => concat_texts (map content_item_text l)
                | _ => ""
                end.
Proof.
  intros Hiter Hfold.
  destruct (perplexity_content_fold _ _ _ Hfold) as [Hall ->].
  destruct v as [| | |s|l|d]; try discriminate; simpl in Hiter;
    injection Hiter as <-.
  - destruct s as [|c s]; [reflexivity|].
    simpl in Hall. inversion Hall as [|? ? [d Hd] _]. discriminate.
  - reflexivity.
  - destruct d as [|[k x] d]; [reflexivity|].
    simpl in Hall. inversion Hall as [|? ? [d' Hd] _]. discriminate.
Qed.

Lemma perplexity_item_text_spec acc item acc' :
  perplexity_item_text acc item = Ok acc' ->
  (exists d, item = PDict d) /\ acc' = acc ++ output_item_text item.
Proof.
  unfold perplexity_item_text, output_item_text.
  destruct item as [| | | | |d]; try discriminate.
  unfold py_get, part_is, dict_get_default, py_in, py_item, dict_has.
  rewrite result_bind_ok. intros H. split; [eauto|]. revert H.
  destruct (dict_get "type" d) as [[| | |t| |]|]; simpl;
    try (intros H; injection H as <-; symmetry; apply string_append_nil_r).
  destruct (String.eqb t "message").
  - destruct (dict_get "content" d) as [v|].
    + rewrite result_bind_ok.
      destruct (py_iter v) as [content_items|e] eqn:Hiter; [|discriminate].
      rewrite result_bind_ok. intros H.
      rewrite (perplexity_content_iter v content_items acc acc' Hiter H).
      destruct v; reflexivity.
    + intros H. injection H as <-. symmetry. apply string_append_nil_r.
  - intros H. injection H as <-. symmetry. apply string_append_nil_r.
Qed.

Lemma perplexity_item_fold items :
  forall acc acc',
    result_fold perplexity_item_text items acc = Ok acc' ->
    Forall (fun v => exists d, v = PDict d) items
    /\ acc' = acc ++ concat_texts (map output_item_text items).
Proof.
  induction items as [|x l IH]; intros acc acc'.
  - simpl. intros H. injection H as <-. split; [constructor|].
    symmetry. apply string_append_nil_r.
  - simpl. destruct (perplexity_item_text acc x) as [a1|e] eqn:Hx;
      [|discriminate].
    rewrite result_bind_ok. intros H.
    apply perplexity_item_text_spec in Hx as [Hd ->].
    apply IH in H as [Hall ->]. split; [constructor; assumption|].
    apply string_append_assoc.
Qed.

Lemma perplexity_output_text output items text :
  truthy output = true ->
  py_iter output = Ok items ->
  result_fold perplexity_item_text items "" = Ok text ->
  text = output_text output.
Proof.
  intros Ht Hiter Hfold.
  destruct (perplexity_item_fold _ _ _ Hfold) as [Hall ->].
  destruct output as [| | |s|l|d]; try discriminate; simpl in Hiter;
    injection Hiter as <-.
  - destruct s as [|c s]; [discriminate|].
    simpl in Hall. inversion Hall as [|? ? [d Hd] _]. discriminate.
  - reflexivity.
  - destruct d as [|[k x] d]; [discriminate|].
    simpl in Hall. inversion Hall as [|? ? [d' Hd] _]. discriminate.
Qed.

(** X25.  What the Perplexity client hands to the router.  A JSON reply
    with a [choices] field is returned as it is.  One without is turned
    into a chat completion for the requested model.  When the reply has
    no usable [output] field, the completion holds a fixed error text,
    the id "unknown" and zero usage.  When it has one and the conversion
    returns, the content is the concatenation, in order, of the [text]
    fields of the items of type [text] in the [content] lists of the
    output items of type [message], and the completion carries the id
    and the usage of the reply ("unknown" and zeros when absent).
    Every reply the conversion builds passes the router's log preview
    and formatting as a canonical completion, so a reply that could not
    be parsed reaches the user as a normal answer. *)
Theorem perplexity_reply_shape py_int resp model_id :
  (dict_has "choices" resp = true ->
   convert_perplexity_response py_int resp model_id = Ok resp)
  /\ (dict_has "choices" resp = false -> has_output resp = false ->
      convert_perplexity_response py_int resp model_id
      = Ok (perplexity_completion (PStr "unknown") (PNum 0) model_id
              perplexity_parse_error zero_usage))
  /\ (forall d,
        dict_has "choices" resp = false ->
        convert_perplexity_response py_int resp model_id = Ok d ->
        (has_output resp = true ->
         exists output created,
           dict_get "output" resp = Some output
           /\ py_int (dict_get_default "created_at" (PNum 0) resp) = Ok created
           /\ d = perplexity_completion
                    (dict_get_default "id" (PStr "unknown") resp)
                    created model_id (output_text output)
                    (dict_get_default "usage" zero_usage resp))
        /\ log_response_preview (RDict d) = Ok tt
        /\ forall env name w,
             exists c w',
               format_openai_response env (RDict d) name w
               = (Ok (Canonical c), w')
               /\ cc_model c = name).
Proof.
  unfold convert_perplexity_response, has_output.
  split; [intros ->; reflexivity|].
  split.
  - intros -> Hout. destruct (dict_get "output" resp) as [output|];
      [|reflexivity].
    rewrite Hout. reflexivity.
  - intros d -> Hconv.
    assert (Hshape :
              (exists id created text usage,
                 d = perplexity_completion id created model_id text usage)
              /\ (match dict_get "output" resp with
                  | Some output => truthy output
                  | None => false
                  end = true ->
                  exists output created,
                    dict_get "output" resp = Some output
                    /\ py_int (dict_get_default "created_at" (PNum 0) resp)
                       = Ok created
                    /\ d = perplexity_completion
                             (dict_get_default "id" (PStr "unknown") resp)
                             created model_id (output_text output)
                             (dict_get_default "usage" zero_usage resp))).
    { destruct (dict_get "output" resp) as [output|].
      - destruct (truthy output) eqn:Ht.
        + destruct (py_len output) as [n|e] eqn:Hn; [|discriminate].
          rewrite result_bind_ok in Hconv.
          rewrite (py_len_truthy output n Ht Hn) in Hconv.
          destruct (py_iter output) as [items|e] eqn:Hiter; [|discriminate].
          rewrite result_bind_ok in Hconv.
          destruct (result_fold perplexity_item_text items "")
            as [text|e] eqn:Hfold; [|discriminate].
          rewrite result_bind_ok in Hconv.
          destruct (py_int _) as [created|e] eqn:Hint; [|discriminate].
          rewrite result_bind_ok in Hconv. injection Hconv as <-.
          rewrite (perplexity_output_text output items text Ht Hiter Hfold).
          split; [do 4 eexists; reflexivity|].
          intros _. exists output, created. auto.
        + injection Hconv as <-.
          split; [do 4 eexists; reflexivity|discriminate].
      - injection Hconv as <-.
        split; [do 4 eexists; reflexivity|discriminate]. }
    destruct Hshape as ((id & created & text & usage & Hd) & Hout).
    split; [exact Hout|]. subst d.
    split; [reflexivity|].
    intros env name w.
    destruct (perplexity_completion_formats env id created model_id text usage
                name w) as (_ & c & w' & Hf & Hm & _).
    eauto.
Qed.

(** ** The contents sent to Gemini *)

Lemma user_images_cons b64 m msgs :
  user_images b64 (m :: msgs)
  = ((if is_user m
      then match convert_openai_content_to_gemini b64 (content m) with
           | Ok parts => List.filter (fun p => negb (is_text_part p)) parts
           | Raise _ => []
           end
      else []) ++ user_images b64 msgs)%list.
Proof.
  unfold user_images. simpl. destruct (is_user m); reflexivity.
Qed.

Lemma gemini_scan_images b64 msgs :
  forall imgs ctx imgs' ctx',
    result_fold (gemini_scan_message b64) msgs (imgs, ctx) = Ok (imgs', ctx') ->
    imgs' = (imgs ++ user_images b64 msgs)%list.
Proof.
  induction msgs as [|m msgs IH]; intros imgs ctx imgs' ctx'.
  - simpl. intros H. injection H as <- <-. unfold user_images. simpl.
    rewrite app_nil_r. reflexivity.
  - rewrite user_images_cons. unfold is_user.
    change (result_fold (gemini_scan_message b64) (m :: msgs) (imgs, ctx))
      with (gemini_scan_message b64 (imgs, ctx) m
            ≫= result_fold (gemini_scan_message b64) msgs).
    unfold gemini_scan_message.
    destruct (String.eqb (role m) "user").
    + destruct (convert_openai_content_to_gemini b64 (content m))
        as [parts|e]; [|discriminate].
      rewrite result_bind_ok.
      destruct (omap part_text parts); rewrite result_bind_ok;
        intros H; apply IH in H; rewrite H, app_assoc; reflexivity.
    + destruct (String.eqb (role m) "assistant").
      * destruct (content m) as [s|parts].
        -- destruct (if Text.contains " - " s then _ else _) as [t|e];
             [|discriminate].
           rewrite !result_bind_ok. intros H. apply IH in H. exact H.
        -- rewrite result_bind_ok. intros H. apply IH in H. exact H.
      * rewrite result_bind_ok. intros H. apply IH in H. exact H.
Qed.

Lemma user_images_not_text b64 msgs :
  Forall (fun p => is_text_part p = false) (user_images b64 msgs).
Proof.
  induction msgs as [|m msgs IH].
  - constructor.
  - rewrite user_images_cons. apply Forall_app. split; [|exact IH].
    destruct (is_user m); [|constructor].
    destruct (convert_openai_content_to_gemini b64 (content m)) as [parts|e];
      [|constructor].
    apply Forall_forall. intros p Hp.
    apply elem_of_list_filter_b in Hp as [_ Hp].
    apply negb_true_iff. exact Hp.
Qed.

Lemma gemini_scan_other_role b64 m st :
  speaks m = false -> gemini_scan_message b64 st m = Ok st.
Proof.
  unfold speaks, gemini_scan_message. destruct st as [imgs ctx].
  intros H. apply orb_false_iff in H as [-> ->]. reflexivity.
Qed.

Lemma gemini_scan_filter b64 msgs :
  forall st,
    result_fold (gemini_scan_message b64) (List.filter speaks msgs) st
    = result_fold (gemini_scan_message b64) msgs st.
Proof.
  induction msgs as [|m msgs IH]; intros st; [reflexivity|].
  simpl. destruct (speaks m) eqn:Hs.
  - simpl. destruct (gemini_scan_message b64 st m) as [st'|e];
      [|reflexivity].
    rewrite !result_bind_ok. apply IH.
  - rewrite (gemini_scan_other_role b64 m st Hs), result_bind_ok. apply IH.
Qed.

Lemma last_filter_keeps {A : Type} (f : A -> bool) (l : list A) (x : A) :
  last l = Some x -> f x = true -> last (List.filter f l) = Some x.
Proof.
  induction l as [|y l IH]; [discriminate|].
  destruct l as [|z l].
  - simpl. intros H Hx. injection H as ->. rewrite Hx. reflexivity.
  - intros H Hx. change (last (y :: z :: l)) with (last (z :: l)) in H.
    specialize (IH H Hx).
    change (List.filter f (y :: z :: l))
      with (if f y then y :: List.filter f (z :: l) else List.filter f (z :: l)).
    destruct (f y); [|exact IH].
    destruct (List.filter f (z :: l)) as [|u l'] eqn:Hf; [discriminate|].
    exact IH.
Qed.

(** X26.  What reaches Gemini of a conversation.  When
    [_build_gemini_contents] returns for a conversation that is not
    empty, the contents are at most two leading entries (the system
    prompt and one text holding the last 10 lines of the conversation),
    then every image of every user message, in order and however old,
    then at most one entry repeating the last user text.  Messages of
    other roles than user and assistant are not read at all: removing
    them changes nothing, as long as the last message is one of the
    user or of the assistant. *)
Theorem gemini_contents_shape b64 msgs system_prompt contents :
  msgs <> [] ->
  build_gemini_contents b64 msgs system_prompt = Ok contents ->
  (exists head,
     contents = (head ++ user_images b64 msgs ++ current_question msgs)%list
     /\ (length head <= 2)%nat
     /\ (length (current_question msgs) <= 1)%nat
     /\ Forall (fun p => is_text_part p = false) (user_images b64 msgs))
  /\ (forall m, last msgs = Some m -> speaks m = true ->
      build_gemini_contents b64 (List.filter speaks msgs) system_prompt
      = Ok contents).
Proof.
  intros Hne Hbuild. split.
  - unfold build_gemini_contents in Hbuild.
    destruct msgs as [|m0 msgs0]; [congruence|].
    destruct (result_fold (gemini_scan_message b64) (m0 :: msgs0) ([], []))
      as [[imgs ctx]|e] eqn:Hscan; [|discriminate].
    rewrite result_bind_ok in Hbuild. injection Hbuild as <-.
    apply gemini_scan_images in Hscan. simpl in Hscan. subst imgs.
    eexists. split; [rewrite app_assoc; reflexivity|].
    split.
    { rewrite length_app. destruct (truthy system_prompt), ctx; simpl; lia. }
    split.
    { unfold current_question. destruct (last (m0 :: msgs0)) as [m|]; [|simpl; lia].
      destruct (String.eqb (role m) "user"); [|simpl; lia].
      destruct (content m); simpl; lia. }
    apply user_images_not_text.
  - intros m Hlast Hs. rewrite <- Hbuild.
    pose proof (last_filter_keeps speaks msgs m Hlast Hs) as Hlast'.
    unfold build_gemini_contents.
    destruct msgs as [|m0 msgs0]; [congruence|].
    destruct (List.filter speaks (m0 :: msgs0)) as [|m1 msgs1] eqn:Hf;
      [discriminate|].
    unfold current_question. rewrite Hlast, Hlast'.
    rewrite <- Hf, gemini_scan_filter. reflexivity.
Qed.

Lemma gemini_contents_shape_witness :
  (exists head,
     [GValue (PStr "You are a helpful AI assistant.");
      GValue (PStr ("Conversation context:" ++ newline
                    ++ "User: look at this" ++ newline
                    ++ "Assistant: a cat" ++ newline
                    ++ "User: what colour is it"));
      GImage "AAAA" "image/png";
      GValue (PStr "Current question: what colour is it")]
     = (head ++ user_images sample_b64decode picture_chat
        ++ current_question picture_chat)%list
     /\ (length head <= 2)%nat
     /\ (length (current_question picture_chat) <= 1)%nat
     /\ Forall (fun p => is_text_part p = false)
          (user_images sample_b64decode picture_chat))
  /\ (forall m, last picture_chat = Some m -> speaks m = true ->
      build_gemini_contents sample_b64decode (List.filter speaks picture_chat)
        (PStr "You are a helpful AI assistant.")
      = Ok [GValue (PStr "You are a helpful AI assistant.");
            GValue (PStr ("Conversation context:" ++ newline
                          ++ "User: look at this" ++ newline
                          ++ "Assistant: a cat" ++ newline
                          ++ "User: what colour is it"));
            GImage "AAAA" "image/png";
            GValue (PStr "Current question: what colour is it")]).
Proof.
  apply (gemini_contents_shape sample_b64decode picture_chat
           (PStr "You are a helpful AI assistant.")).
  - discriminate.
  - vm_compute. reflexivity.
Defined.

(** ** The parameters of the provider calls *)

Lemma dict_get_set_eq k v d : dict_get k (dict_set k v d) = Some v.
Proof.
  induction d as [|[k' v'] d IH]; simpl.
  - rewrite String.eqb_refl. reflexivity.
  - destruct (String.eqb k k') eqn:E; simpl.
    + rewrite String.eqb_refl. reflexivity.
    + rewrite E. exact IH.
Qed.

Lemma dict_get_set_ne k k' v d :
  k <> k' -> dict_get k (dict_set k' v d) = dict_get k d.
Proof.
  intros Hne. induction d as [|[k0 v0] d IH]; simpl.
  - destruct (String.eqb_spec k k'); [congruence|reflexivity].
  - destruct (String.eqb_spec k' k0) as [->|Hk]; simpl.
    + destruct (String.eqb_spec k k0); [congruence|reflexivity].
    + destruct (String.eqb k k0); [reflexivity|exact IH].
Qed.

Lemma dict_get_absent k (d : pydict) : k ∉ map fst d -> dict_get k d = None.
Proof.
  induction d as [|[k' v'] d IH]; simpl; [reflexivity|].
  intros Hn. destruct (String.eqb_spec k k') as [->|Hne].
  - exfalso. apply Hn. apply list_elem_of_here.
  - apply IH. intros H. apply Hn. apply list_elem_of_further. exact H.
Qed.

(** What the copying loop leaves under a key: the configured value,
    unless the key is a flag or not configured. *)
Lemma forward_parameters_get flags k ap :
  NoDup (map fst ap) ->
  forall cp,
    dict_get k (forward_parameters flags ap cp)
    = if Text.mem k flags then dict_get k cp
      else match dict_get k ap with
           | Some v => Some v
           | None => dict_get k cp
           end.
Proof.
  unfold forward_parameters.
  induction ap as [|[k0 v0] ap IH]; intros Hnd cp.
  - simpl. destruct (Text.mem k flags); reflexivity.
  - apply NoDup_cons in Hnd as [Hk0 Hnd]. simpl.
    rewrite (IH Hnd). clear IH.
    destruct (String.eqb_spec k k0) as [->|Hne].
    + rewrite (dict_get_absent k0 ap Hk0).
      destruct (Text.mem k0 flags); [reflexivity|].
      apply dict_get_set_eq.
    + destruct (Text.mem k flags) eqn:Hflag.
      * destruct (Text.mem k0 flags); [reflexivity|].
        apply dict_get_set_ne. exact Hne.
      * destruct (dict_get k ap); [reflexivity|].
        destruct (Text.mem k0 flags); [reflexivity|].
        apply dict_get_set_ne. exact Hne.
Qed.

Lemma with_temperature_get k ap temperature cp :
  dict_get k (with_temperature ap temperature cp)
  = if String.eqb k "temperature"
       && negb (truthy (dict_get_default "exclude_temperature" (PBool false) ap))
    then Some temperature
    else dict_get k cp.
Proof.
  unfold with_temperature.
  destruct (truthy _); simpl.
  - rewrite andb_false_r. reflexivity.
  - rewrite andb_true_r. destruct (String.eqb_spec k "temperature") as [->|Hne].
    + apply dict_get_set_eq.
    + apply dict_get_set_ne. exact Hne.
Qed.

Lemma dict_has_get k (d : pydict) :
  dict_has k d = match dict_get k d with Some _ => true | None => false end.
Proof. reflexivity. Qed.

(** X27.  What the OpenAI and Anthropic clients pass to their SDK.
    For a model configuration whose parameters are a dict, both calls
    are built without failure; the router's flag [exclude_temperature]
    never reaches the SDK; every other configured parameter is passed
    with its configured value, which therefore replaces the model id,
    the messages, the temperature or the system prompt of the request
    when it has their name; without such a parameter the temperature is
    the caller's unless the flag excludes it, OpenAI gets the system
    prompt as a leading message followed by all messages, Anthropic gets
    the messages without those of role [system] and the prompt under
    [system]; and Anthropic always gets [max_tokens], 4096 when the
    configuration has none. *)
Theorem forwarded_parameters model_id messages temperature ap system_prompt :
  NoDup (map fst ap) ->
  exists openai anthropic,
    openai_call_params model_id messages temperature (PDict ap) system_prompt
    = Ok openai
    /\ anthropic_call_params model_id messages temperature (PDict ap)
         system_prompt
       = Ok anthropic
    /\ dict_has "exclude_temperature" openai = false
    /\ dict_has "exclude_temperature" anthropic = false
    /\ (forall k v,
          dict_get k ap = Some v -> k <> "exclude_temperature" ->
          dict_get k openai = Some v /\ dict_get k anthropic = Some v)
    /\ (dict_get "temperature" ap = None ->
        let sent :=
          if truthy (dict_get_default "exclude_temperature" (PBool false) ap)
          then None else Some temperature in
        dict_get "temperature" openai = sent
        /\ dict_get "temperature" anthropic = sent)
    /\ (dict_get "messages" ap = None ->
        dict_get "messages" openai
        = Some (PList (system_message system_prompt
                       ++ map message_dict messages))
        /\ dict_get "messages" anthropic
           = Some (PList (map message_dict (List.filter not_system messages))))
    /\ (dict_get "system" ap = None ->
        dict_get "system" openai = None
        /\ dict_get "system" anthropic
           = if truthy system_prompt then Some system_prompt else None)
    /\ dict_has "max_tokens" openai = dict_has "max_tokens" ap
    /\ dict_has "max_tokens" anthropic = true
    /\ (dict_get "max_tokens" ap = None ->
        dict_get "max_tokens" anthropic = Some (PNum 4096)).
Proof.
  intros Hnd.
  pose proof (fun k cp => forward_parameters_get ["exclude_temperature"] k ap
                            Hnd cp) as Hfwd.
  set (base_o := with_temperature ap temperature
                   [("model", model_id);
                    ("messages",
                     PList (system_message system_prompt
                            ++ map message_dict messages))]).
  set (base_a :=
         if truthy system_prompt
         then dict_set "system" system_prompt
                (with_temperature ap temperature
                   [("model", model_id);
                    ("messages",
                     PList (map message_dict (List.filter not_system messages)))])
         else with_temperature ap temperature
                [("model", model_id);
                 ("messages",
                  PList (map message_dict (List.filter not_system messages)))]).
  set (fwd_a := forward_parameters ["exclude_temperature"] ap base_a).
  assert (Hbase_a : forall k,
             dict_get k base_a
             = if String.eqb k "system" && truthy system_prompt
               then Some system_prompt
               else dict_get k
                      (with_temperature ap temperature
                         [("model", model_id);
                          ("messages",
                           PList (map message_dict
                                    (List.filter not_system messages)))])).
  { intros k. unfold base_a. destruct (truthy system_prompt).
    - rewrite andb_true_r. destruct (String.eqb_spec k "system") as [->|Hne].
      + apply dict_get_set_eq.
      + apply dict_get_set_ne. exact Hne.
    - rewrite andb_false_r. reflexivity. }
  assert (Hfinal : forall k,
             k <> "max_tokens" ->
             dict_get k (if dict_has "max_tokens" fwd_a then fwd_a
                         else dict_set "max_tokens" (PNum 4096) fwd_a)
             = dict_get k fwd_a).
  { intros k Hk. destruct (dict_has "max_tokens" fwd_a); [reflexivity|].
    apply dict_get_set_ne. exact Hk. }
  exists (forward_parameters ["exclude_temperature"] ap base_o).
  exists (if dict_has "max_tokens" fwd_a then fwd_a
          else dict_set "max_tokens" (PNum 4096) fwd_a).
  split; [reflexivity|]. split; [reflexivity|].
  split.
  { rewrite dict_has_get, Hfwd. unfold base_o.
    rewrite with_temperature_get. reflexivity. }
  split.
  { rewrite dict_has_get, Hfinal by discriminate. unfold fwd_a.
    rewrite Hfwd, Hbase_a, with_temperature_get. reflexivity. }
  split.
  { intros k v Hk Hne.
    assert (Hflag : Text.mem k ["exclude_temperature"] = false).
    { simpl. destruct (String.eqb_spec k "exclude_temperature");
        [congruence|reflexivity]. }
    split.
    - rewrite Hfwd, Hflag, Hk. reflexivity.
    - destruct (String.eqb_spec k "max_tokens") as [->|Hmt].
      + assert (Hget : dict_get "max_tokens" fwd_a = Some v).
        { unfold fwd_a. rewrite Hfwd. change (Text.mem _ _) with false.
          cbv iota. rewrite Hk. reflexivity. }
        rewrite dict_has_get, Hget. exact Hget.
      + rewrite Hfinal by exact Hmt. unfold fwd_a.
        rewrite Hfwd, Hflag, Hk. reflexivity. }
  split.
  { intros Ht sent. split.
    - rewrite Hfwd. change (Text.mem _ _) with false. cbv iota.
      rewrite Ht. unfold base_o. rewrite with_temperature_get. subst sent.
      destruct (truthy (dict_get_default _ _ _)); reflexivity.
    - rewrite Hfinal by discriminate. unfold fwd_a. rewrite Hfwd.
      change (Text.mem _ _) with false. cbv iota. rewrite Ht.
      rewrite Hbase_a, with_temperature_get. subst sent.
      destruct (truthy (dict_get_default _ _ _)); reflexivity. }
  split.
  { intros Hm. split.
    - rewrite Hfwd. change (Text.mem _ _) with false. cbv iota.
      rewrite Hm. unfold base_o. rewrite with_temperature_get. reflexivity.
    - rewrite Hfinal by discriminate. unfold fwd_a. rewrite Hfwd.
      change (Text.mem _ _) with false. cbv iota. rewrite Hm.
      rewrite Hbase_a, with_temperature_get. reflexivity. }
  split.
  { intros Hs. split.
    - rewrite Hfwd. change (Text.mem _ _) with false. cbv iota.
      rewrite Hs. unfold base_o. rewrite with_temperature_get. reflexivity.
    - rewrite Hfinal by discriminate. unfold fwd_a. rewrite Hfwd.
      change (Text.mem _ _) with false. cbv iota. rewrite Hs.
      rewrite Hbase_a, with_temperature_get.
      destruct (truthy system_prompt); reflexivity. }
  split.
  { rewrite !dict_has_get, Hfwd. change (Text.mem _ _) with false. cbv iota.
    destruct (dict_get "max_tokens" ap); [reflexivity|].
    unfold base_o. rewrite with_temperature_get. reflexivity. }
  split.
  { destruct (dict_has "max_tokens" fwd_a) eqn:Hh; [exact Hh|].
    rewrite dict_has_get, dict_get_set_eq. reflexivity. }
  intros Hmt.
  assert (Hnone : dict_get "max_tokens" fwd_a = None).
  { unfold fwd_a. rewrite Hfwd. change (Text.mem _ _) with false. cbv iota.
    rewrite Hmt, Hbase_a, with_temperature_get. reflexivity. }
  rewrite dict_has_get, Hnone. apply dict_get_set_eq.
Qed.

Lemma forwarded_parameters_witness :
  exists openai anthropic,
    openai_call_params (PStr "gpt-x") picture_chat (PNum 1)
      (PDict sample_api_parameters) (PStr "Be brief.")
    = Ok openai
    /\ anthropic_call_params (PStr "gpt-x") picture_chat (PNum 1)
         (PDict sample_api_parameters) (PStr "Be brief.")
       = Ok anthropic
    /\ dict_has "exclude_temperature" openai = false
    /\ dict_has "exclude_temperature" anthropic = false
    /\ (forall k v,
          dict_get k sample_api_parameters = Some v ->
          k <> "exclude_temperature" ->
          dict_get k openai = Some v /\ dict_get k anthropic = Some v)
    /\ (dict_get "temperature" sample_api_parameters = None ->
        let sent :=
          if truthy (dict_get_default "exclude_temperature" (PBool false)
                       sample_api_parameters)
          then None else Some (PNum 1) in
        dict_get "temperature" openai = sent
        /\ dict_get "temperature" anthropic = sent)
    /\ (dict_get "messages" sample_api_parameters = None ->
        dict_get "messages" openai
        = Some (PList (system_message (PStr "Be brief.")
                       ++ map message_dict picture_chat))
        /\ dict_get "messages" anthropic
           = Some (PList (map message_dict
                            (List.filter not_system picture_chat))))
    /\ (dict_get "system" sample_api_parameters = None ->
        dict_get "system" openai = None
        /\ dict_get "system" anthropic
           = if truthy (PStr "Be brief.") then Some (PStr "Be brief.")
             else None)
    /\ dict_has "max_tokens" openai = dict_has "max_tokens" sample_api_parameters
    /\ dict_has "max_tokens" anthropic = true
    /\ (dict_get "max_tokens" sample_api_parameters = None ->
        dict_get "max_tokens" anthropic = Some (PNum 4096)).
Proof.
  apply (forwarded_parameters (PStr "gpt-x") picture_chat (PNum 1)
           sample_api_parameters (PStr "Be brief.")).
  apply (bool_decide_unpack _). vm_compute. exact I.
Defined.

Lemma copy_parameters_get ap k ks :
  forall payload,
    dict_get k (fold_left (copy_parameter ap) ks payload)
    = if Text.mem k ks
      then match dict_get k ap with
           | Some v => Some v
           | None => dict_get k payload
           end
      else dict_get k payload.
Proof.
  induction ks as [|k0 ks IH]; intros payload; [reflexivity|].
  simpl. rewrite IH. clear IH. unfold copy_parameter.
  destruct (String.eqb_spec k k0) as [->|Hne]; simpl.
  - destruct (dict_get k0 ap) as [v|] eqn:Hk.
    + rewrite dict_get_set_eq. destruct (Text.mem k0 ks); reflexivity.
    + destruct (Text.mem k0 ks); reflexivity.
  - destruct (dict_get k0 ap) as [v|]; [|reflexivity].
    rewrite (dict_get_set_ne k k0 v payload Hne). reflexivity.
Qed.

Lemma perplexity_message_text m v :
  perplexity_message m = Ok v ->
  exists s, v = PDict [("role", PStr (role m)); ("content", PStr s)].
Proof.
  unfold perplexity_message. destruct (content m) as [s|parts].
  - rewrite result_bind_ok. intros H. injection H as <-. eauto.
  - destruct (result_map _ _) as [tp|e]; [|discriminate].
    rewrite result_bind_ok.
    destruct (join_values tp) as [texts|e]; [|discriminate].
    rewrite !result_bind_ok. intros H. injection H as <-. eauto.
Qed.

Lemma result_map_each {A B : Type} (f : A -> result B) (l : list A) ys :
  result_map f l = Ok ys -> Forall2 (fun x y => f x = Ok y) l ys.
Proof.
  revert ys. induction l as [|x l IH]; intros ys; simpl.
  - intros H. injection H as <-. constructor.
  - destruct (f x) as [y|e] eqn:Hx; [|discriminate].
    rewrite result_bind_ok.
    destruct (result_map f l) as [ys'|e]; [|discriminate].
    rewrite result_bind_ok. intros H. injection H as <-.
    constructor; auto.
Qed.

(** X28.  What the Perplexity client posts.  When the payload can be
    built, its keys are [model], [messages], [temperature] and six named
    parameters and no others: any other parameter of the model
    configuration is dropped, and the configuration cannot replace the
    model id or the messages.  The six parameters carry the configured
    values, the temperature is the caller's unless the flag excludes it.
    The messages are the system prompt, when there is one, followed by
    one message per message of the conversation, with its role and a
    text as content: images never reach Perplexity. *)
Theorem perplexity_payload_shape
  model_id messages temperature api_parameters system_prompt payload :
  perplexity_payload model_id messages temperature api_parameters system_prompt
  = Ok payload ->
  exists ap converted,
    api_parameters = PDict ap
    /\ (forall k, dict_has k payload = true ->
          k ∈ (["model"; "messages"; "temperature"] ++ perplexity_parameters)%list)
    /\ (forall k, k ∈ perplexity_parameters -> dict_get k payload = dict_get k ap)
    /\ dict_get "model" payload = Some model_id
    /\ dict_get "temperature" payload
       = (if truthy (dict_get_default "exclude_temperature" (PBool false) ap)
          then None else Some temperature)
    /\ dict_get "messages" payload
       = Some (PList (system_message system_prompt ++ converted))
    /\ Forall2 (fun m v => exists s,
                  v = PDict [("role", PStr (role m)); ("content", PStr s)])
         messages converted.
Proof.
  unfold perplexity_payload.
  destruct (result_map perplexity_message messages) as [converted|e] eqn:Hconv;
    [|discriminate].
  rewrite result_bind_ok.
  destruct api_parameters as [| | | | |ap]; try discriminate.
  remember (fold_left (copy_parameter ap) perplexity_parameters
              (with_temperature ap temperature
                 [("model", model_id);
                  ("messages",
                   PList (system_message system_prompt ++ converted))]))
    as built eqn:Hbuilt.
  intros H. injection H as <-. subst built.
  exists ap, converted. split; [reflexivity|].
  split.
  { intros k. rewrite dict_has_get, copy_parameters_get.
    destruct (Text.mem k perplexity_parameters) eqn:Hmem.
    - intros _. apply elem_of_app. right. apply mem_elem_of. exact Hmem.
    - rewrite with_temperature_get. intros Hk. apply elem_of_app. left.
      destruct (String.eqb_spec k "temperature") as [->|Hne].
      + apply (bool_decide_unpack _). vm_compute. exact I.
      + simpl in Hk.
        destruct (String.eqb_spec k "model") as [->|Hm];
          [apply list_elem_of_here|].
        destruct (String.eqb_spec k "messages") as [->|Hs];
          [apply list_elem_of_further, list_elem_of_here|discriminate]. }
  split.
  { intros k Hk. rewrite copy_parameters_get.
    rewrite (proj2 (mem_elem_of k perplexity_parameters) Hk).
    destruct (dict_get k ap) eqn:Hget; [reflexivity|].
    rewrite with_temperature_get.
    assert (Hcases : k = "max_tokens" \/ k = "top_p" \/ k = "presence_penalty"
                     \/ k = "stream" \/ k = "search_domain_filter"
                     \/ k = "search_recency_filter").
    { unfold perplexity_parameters in Hk.
      repeat (apply elem_of_cons in Hk as [Hk|Hk]; [auto 10|]).
      inversion Hk. }
    destruct Hcases as [ -> | [ -> | [ -> | [ -> | [ -> | -> ] ] ] ] ];
      reflexivity. }
  split.
  { rewrite copy_parameters_get, with_temperature_get. reflexivity. }
  split.
  { rewrite copy_parameters_get, with_temperature_get.
    change (Text.mem "temperature" perplexity_parameters) with false.
    cbv iota. destruct (truthy _); reflexivity. }
  split.
  { rewrite copy_parameters_get, with_temperature_get. reflexivity. }
  apply result_map_each in Hconv.
  eapply Forall2_impl; [exact Hconv|].
  intros m v Hm. exact (perplexity_message_text m v Hm).
Qed.

Lemma perplexity_payload_shape_witness :
  exists ap converted,
    PDict sample_api_parameters = PDict ap
    /\ (forall k,
          dict_has k
            [("model", PStr "sonar");
             ("messages",
              PList [PDict [("role", PStr "system");
                            ("content", PStr "Be brief.")];
                     PDict [("role", PStr "user");
                            ("content", PStr "look at this")];
                     PDict [("role", PStr "assistant");
                            ("content", PStr "Flash - a cat")];
                     PDict [("role", PStr "system");
                            ("content", PStr "be brief")];
                     PDict [("role", PStr "user");
                            ("content", PStr "what colour is it")]]);
             ("max_tokens", PNum 512)] = true ->
          k ∈ (["model"; "messages"; "temperature"] ++ perplexity_parameters)%list)
    /\ (forall k, k ∈ perplexity_parameters ->
          dict_get k
            [("model", PStr "sonar");
             ("messages",
              PList [PDict [("role", PStr "system");
                            ("content", PStr "Be brief.")];
                     PDict [("role", PStr "user");
                            ("content", PStr "look at this")];
                     PDict [("role", PStr "assistant");
                            ("content", PStr "Flash - a cat")];
                     PDict [("role", PStr "system");
                            ("content", PStr "be brief")];
                     PDict [("role", PStr "user");
                            ("content", PStr "what colour is it")]]);
             ("max_tokens", PNum 512)]
          = dict_get k ap)
    /\ dict_get "model"
         [("model", PStr "sonar");
          ("messages",
           PList [PDict [("role", PStr "system");
                         ("content", PStr "Be brief.")];
                  PDict [("role", PStr "user");
                         ("content", PStr "look at this")];
                  PDict [("role", PStr "assistant");
                         ("content", PStr "Flash - a cat")];
                  PDict [("role", PStr "system");
                         ("content", PStr "be brief")];
                  PDict [("role", PStr "user");
                         ("content", PStr "what colour is it")]]);
          ("max_tokens", PNum 512)]
       = Some (PStr "sonar")
    /\ dict_get "temperature"
         [("model", PStr "sonar");
          ("messages",
           PList [PDict [("role", PStr "system");
                         ("content", PStr "Be brief.")];
                  PDict [("role", PStr "user");
                         ("content", PStr "look at this")];
                  PDict [("role", PStr "assistant");
                         ("content", PStr "Flash - a cat")];
                  PDict [("role", PStr "system");
                         ("content", PStr "be brief")];
                  PDict [("role", PStr "user");
                         ("content", PStr "what colour is it")]]);
          ("max_tokens", PNum 512)]
       = (if truthy (dict_get_default "exclude_temperature" (PBool false) ap)
          then None else Some (PNum 1))
    /\ dict_get "messages"
         [("model", PStr "sonar");
          ("messages",
           PList [PDict [("role", PStr "system");
                         ("content", PStr "Be brief.")];
                  PDict [("role", PStr "user");
                         ("content", PStr "look at this")];
                  PDict [("role", PStr "assistant");
                         ("content", PStr "Flash - a cat")];
                  PDict [("role", PStr "system");
                         ("content", PStr "be brief")];
                  PDict [("role", PStr "user");
                         ("content", PStr "what colour is it")]]);
          ("max_tokens", PNum 512)]
       = Some (PList (system_message (PStr "Be brief.") ++ converted))
    /\ Forall2 (fun m v => exists s,
                  v = PDict [("role", PStr (role m)); ("content", PStr s)])
         picture_chat converted.
Proof.
  apply (perplexity_payload_shape (PStr "sonar") picture_chat (PNum 1)
           (PDict sample_api_parameters) (PStr "Be brief.")).
  vm_compute. reflexivity.
Defined.

(** ** The replies of the Anthropic and Gemini clients *)

(** A reply dict with a text as the content of its first choice, and
    without [error], [data] or [object] fields, is formatted as a
    canonical completion with the usage it carries. *)
Lemma text_reply_formats env model_id text usage name w :
  let reply := RDict [("choices",
                       PList [PDict [("message",
                                      PDict [("content", PStr text)])]]);
                      ("model", model_id); ("usage", usage)] in
  log_response_preview reply = Ok tt
  /\ exists c w',
       format_openai_response env reply name w = (Ok (Canonical c), w')
       /\ cc_model c = name /\ cc_usage c = usage
       /\ (cc_content c = PStr text
           \/ cc_content c = PStr (name ++ " - " ++ text)).
Proof.
  intros reply. split; [reflexivity|].
  unfold reply, format_openai_response, standard_completion.
  change (is_image_batch _) with false.
  change (dict_has "error" _) with false.
  cbv iota.
  change (standard_content_usage _)
    with (Ok (A := pyval * pyval) (PStr text, usage)).
  munfold. unfold lift. cbv beta iota. unfold debug_prefix.
  destruct (String.eqb _ "DEBUG").
  - destruct (negb _); simpl; do 2 eexists;
      (split; [reflexivity|]); simpl; auto.
  - simpl. do 2 eexists. split; [reflexivity|]. simpl. auto.
Qed.

(** X29.  The replies that the Anthropic and Gemini clients build, in
    the router.  An Anthropic reply is answered as a canonical
    completion under the logical model name, whose usage has the input
    and output token counts and their sum as total.  A Gemini reply with
    a text is answered the same way, always with zero usage.  A Gemini
    reply without text cannot be answered: the log preview fails on it
    and the request ends in an HTTP 500 after the backend call. *)
Theorem provider_dict_replies env name w model_id :
  (forall text input_tokens output_tokens,
     log_response_preview
       (anthropic_reply model_id text input_tokens output_tokens) = Ok tt
     /\ exists c w',
          format_openai_response env
            (anthropic_reply model_id text input_tokens output_tokens) name w
          = (Ok (Canonical c), w')
          /\ cc_model c = name
          /\ cc_usage c
             = usage_dict (PNum input_tokens) (PNum output_tokens)
                 (PNum (input_tokens + output_tokens)))
  /\ (forall text,
        log_response_preview (gemini_reply model_id (Some text)) = Ok tt
        /\ exists c w',
             format_openai_response env (gemini_reply model_id (Some text))
               name w
             = (Ok (Canonical c), w')
             /\ cc_model c = name /\ cc_usage c = zero_usage)
  /\ (forall req rt,
        generate_response env (res_client (fst rt)) (res_model_id (fst rt))
          (messages req) (request_temperature req)
          (res_api_parameters (fst rt)) (res_system_prompt (fst rt))
        = Ok (gemini_reply model_id None) ->
        exists detail,
          generate_and_format env req rt w
          = (Raise (HTTPException 500 detail),
             add_events w [router_call req (fst rt)])).
Proof.
  split; [|split].
  - intros text i o.
    destruct (text_reply_formats env model_id text
                (usage_dict (PNum i) (PNum o) (PNum (i + o))) name w)
      as (Hlog & c & w' & Hf & Hm & Hu & _).
    split; [exact Hlog|]. eauto.
  - intros text.
    destruct (text_reply_formats env model_id text zero_usage name w)
      as (Hlog & c & w' & Hf & Hm & Hu & _).
    split; [exact Hlog|]. eauto.
  - intros req rt Hgen.
    rewrite generate_and_format_unfold, Hgen. simpl. eauto.
Qed.

(** ** Heavy context *)

Lemma result_map_app {A B : Type} (f : A -> result B) (l1 l2 : list A) :
  result_map f (l1 ++ l2)%list
  = match result_map f l1 with
    | Ok ys1 => match result_map f l2 with
                | Ok ys2 => Ok (ys1 ++ ys2)%list
                | Raise e => Raise e
                end
    | Raise e => Raise e
    end.
Proof.
  induction l1 as [|x l1 IH]; simpl.
  - destruct (result_map f l2); reflexivity.
  - destruct (f x) as [y|e]; [|reflexivity].
    rewrite !result_bind_ok, IH.
    destruct (result_map f l1) as [ys1|e]; [|reflexivity].
    rewrite result_bind_ok.
    destruct (result_map f l2) as [ys2|e]; reflexivity.
Qed.

Lemma total_length_grows (texts : list string) :
  forall a,
    (a <= fold_left (fun n t => n + Z.of_nat (String.length t)) texts a)%Z.
Proof.
  induction texts as [|t texts IH]; intros a; simpl; [lia|].
  etransitivity; [|apply IH]. lia.
Qed.

Lemma token_count_raise (encode : string -> result Z) msgs e :
  fold_left
    (fun acc m =>
       n ← acc;
       text_content ← get_text_from_content (content m);
       if truthy (PStr text_content)
       then k ← encode text_content; Ok (n + k)%Z
       else Ok n)
    msgs (Raise e)
  = Raise e.
Proof.
  induction msgs as [|m msgs IH]; [reflexivity|]. exact IH.
Qed.

Lemma token_count_grows encode msgs :
  (forall text n, encode text = Ok n -> (0 <= n)%Z) ->
  forall a b,
    fold_left
      (fun acc m =>
         n ← acc;
         text_content ← get_text_from_content (content m);
         if truthy (PStr text_content)
         then k ← encode text_content; Ok (n + k)%Z
         else Ok n)
      msgs (Ok a)
    = Ok b ->
    (a <= b)%Z.
Proof.
  intros Hpos. induction msgs as [|m msgs IH]; intros a b.
  - simpl. intros H. injection H as <-. lia.
  - cbn [fold_left]. rewrite result_bind_ok.
    destruct (get_text_from_content (content m)) as [text|e].
    + rewrite result_bind_ok. destruct (truthy (PStr text)).
      * destruct (encode text) as [k|e] eqn:Hk.
        -- rewrite result_bind_ok. intros H. apply IH in H.
           pose proof (Hpos _ _ Hk). lia.
        -- rewrite result_bind_raise.
           rewrite token_count_raise. discriminate.
      * apply IH.
    + rewrite result_bind_raise.
      rewrite token_count_raise. discriminate.
Qed.

(** X30.  A heavy conversation stays heavy.  With a tokenizer that
    returns lengths (or in the fallback that counts characters), once
    [_detect_heavy_context] answers true for a conversation it answers
    true for every continuation of that conversation for which it
    answers at all.  A request carries its whole history, so for every
    later request of the conversation the target selection names the
    hard non-research model with tier "hard", whether or not the request
    also needs vision, and runs neither the intent tests nor the
    classifier. *)
Theorem heavy_context_is_monotone env msgs more b :
  counts_tokens env ->
  detect_heavy_context env msgs = Ok true ->
  detect_heavy_context env (msgs ++ more) = Ok b ->
  b = true
  /\ forall text needs_vision w,
       select_target env (msgs ++ more) text needs_vision b w
       = (Ok (hard_no_research_model (settings env), "hard"), w).
Proof.
  intros Hpos Hheavy Hmore.
  assert (Hb : b = true).
  { revert Hheavy Hmore. unfold counts_tokens in Hpos.
    unfold detect_heavy_context.
    destruct (tiktoken_encoding env) as [encode|].
    - rewrite fold_left_app.
      destruct (fold_left _ msgs (Ok 0%Z)) as [n|e]; [|discriminate].
      rewrite result_bind_ok. intros H. injection H as Hn.
      destruct (fold_left _ more (Ok n)) as [n'|e] eqn:Hfold; [|discriminate].
      rewrite result_bind_ok. intros H. injection H as <-.
      apply token_count_grows in Hfold;
        [|intros t k; apply (Hpos encode t k eq_refl)].
      apply Z.ltb_lt in Hn. apply Z.ltb_lt. lia.
    - rewrite result_map_app.
      destruct (result_map _ msgs) as [texts|e]; [|discriminate].
      rewrite result_bind_ok. intros H. injection H as Hn.
      destruct (result_map _ more) as [texts'|e]; [|discriminate].
      rewrite result_bind_ok. intros H. injection H as <-.
      rewrite fold_left_app.
      apply Z.ltb_lt in Hn. apply Z.ltb_lt.
      pose proof (total_length_grows texts'
                    (fold_left (fun n t => (n + Z.of_nat (String.length t))%Z)
                       texts 0%Z)).
      lia. }
  split; [exact Hb|]. subst b.
  intros text needs_vision w. unfold select_target.
  destruct needs_vision; reflexivity.
Qed.

Lemma heavy_context_is_monotone_witness :
  counts_tokens word_count_env
  /\ detect_heavy_context word_count_env
       [user_says "compare these four long documents"] = Ok true
  /\ forall b,
       detect_heavy_context word_count_env
         ([user_says "compare these four long documents"]
          ++ [assistant_says "sure"])%list = Ok b ->
       b = true
       /\ forall text needs_vision w,
            select_target word_count_env
              ([user_says "compare these four long documents"]
               ++ [assistant_says "sure"])%list text needs_vision b w
            = (Ok (hard_no_research_model (settings word_count_env), "hard"),
               w).
Proof.
  assert (Hcount : counts_tokens word_count_env).
  { intros encode text n Henc. injection Henc as <-.
    intros H. injection H as <-. lia. }
  split; [exact Hcount|]. split; [vm_compute; reflexivity|].
  intros b Hb.
  apply (heavy_context_is_monotone word_count_env
           [user_says "compare these four long documents"]
           [assistant_says "sure"] b Hcount).
  - vm_compute. reflexivity.
  - exact Hb.
Defined.
